(** * fast: command registry, dispatch and helpers of the [fast] CLI

    A shallow embedding of the entry point of the [fast] command-line tool
    (a Bun/TypeScript program) and the properties its specification states
    about it.  JavaScript strings are sequences of UTF-16 code units; the
    command registry is a [Map] keyed by strings; console output, telemetry
    calls, handler invocations and [process.exit] are recorded as a trace of
    effects; child processes are oracles threaded through an explicit world. *)

From Stdlib Require Import ZArith NArith List String Ascii Bool Lia DecimalString.
From stdpp Require Import base option list gmap.

Open Scope Z_scope.

(* ===================================================================== *)
(** * Part I: the program                                                 *)
(* ===================================================================== *)

(** ** JavaScript strings *)

(** A JavaScript string is its list of UTF-16 code units. *)
Abbreviation jsstring := (list N).

(** ASCII literals of the source. *)
Definition js (s : string) : jsstring :=
  map N_of_ascii (list_ascii_of_string s).

Definition TAB : N := 9%N.
Definition LF : N := 10%N.
Definition CR : N := 13%N.
Definition SPACE : N := 32%N.
Definition DQUOTE : N := 34%N.
Definition SQUOTE : N := 39%N.
Definition BACKSLASH : N := 92%N.

(** [a === b] on strings. *)
Definition streq (a b : jsstring) : bool := bool_decide (a = b).

(** Truthiness of a string: only the empty string is falsy. *)
Definition truthy (s : jsstring) : bool :=
  match s with [] => false | _ => true end.

(** Truthiness of [string | undefined]. *)
Definition truthy_opt (o : option jsstring) : bool :=
  match o with Some s => truthy s | None => false end.

(** ECMAScript WhiteSpace and LineTerminator code units, the set that
    [String.prototype.trim] removes. *)
Definition isWhiteSpace (c : N) : bool :=
  ((9 <=? c) && (c <=? 13))%N
  || (c =? 32)%N || (c =? 160)%N || (c =? 5760)%N
  || ((8192 <=? c) && (c <=? 8202))%N
  || (c =? 8232)%N || (c =? 8233)%N || (c =? 8239)%N || (c =? 8287)%N
  || (c =? 12288)%N || (c =? 65279)%N.

Fixpoint dropWhile {A} (p : A -> bool) (l : list A) : list A :=
  match l with
  | [] => []
  | x :: r => if p x then dropWhile p r else l
  end.

(** Removes the longest suffix whose elements all satisfy [p]. *)
Definition dropWhileEnd {A} (p : A -> bool) (l : list A) : list A :=
  rev (dropWhile p (rev l)).

Definition trimStart (s : jsstring) : jsstring := dropWhile isWhiteSpace s.
Definition trimEnd (s : jsstring) : jsstring := dropWhileEnd isWhiteSpace s.
Definition trim (s : jsstring) : jsstring := trimEnd (trimStart s).

(** [parts.join(sep)]. *)
Fixpoint join (sep : jsstring) (parts : list jsstring) : jsstring :=
  match parts with
  | [] => []
  | [p] => p
  | p :: rest => p ++ sep ++ join sep rest
  end.

(** [s.split(/\r?\n/)]: the pieces between line breaks, where a line break
    is a line feed optionally preceded by one carriage return.  [cur] is the
    piece being read. *)
Fixpoint splitLinesFrom (cur s : jsstring) : list jsstring :=
  match s with
  | [] => [cur]
  | c :: rest =>
      if (c =? LF)%N then cur :: splitLinesFrom [] rest
      else
        match rest with
        | d :: rest' =>
            if ((c =? CR)%N && (d =? LF)%N)%bool
            then cur :: splitLinesFrom [] rest'
            else splitLinesFrom (cur ++ [c]) rest
        | [] => splitLinesFrom (cur ++ [c]) rest
        end
  end.

Definition splitLines (s : jsstring) : list jsstring := splitLinesFrom [] s.

(** [s.split("\t")[0]]: the text before the first tab. *)
Fixpoint beforeFirstTab (s : jsstring) : jsstring :=
  match s with
  | [] => []
  | c :: rest => if (c =? TAB)%N then [] else c :: beforeFirstTab rest
  end.

(** [s.startsWith(p)]. *)
Fixpoint startsWith (p s : jsstring) : bool :=
  match p, s with
  | [], _ => true
  | _ :: _, [] => false
  | a :: p', b :: s' => (a =? b)%N && startsWith p' s'
  end.

(** [s.replace(pat, "")] with a string pattern: the first occurrence of
    [pat] is removed (the empty pattern matches at index 0 and removes
    nothing). *)
Fixpoint removeFirst (pat s : jsstring) : jsstring :=
  if startsWith pat s then drop (length pat) s
  else match s with
       | [] => []
       | c :: rest => c :: removeFirst pat rest
       end.

(** [`${n}`] for an integer [n]. *)
Definition Number_toString (n : Z) : jsstring :=
  js (NilZero.string_of_int (Z.to_int n)).

(** [args.includes(x)]. *)
Definition includes (x : jsstring) (args : list jsstring) : bool :=
  existsb (streq x) args.

(** *** [JSON.stringify] of a string *)

Definition hexDigit (d : N) : N :=
  if (d <? 10)%N then (48 + d)%N else (87 + d)%N.

Definition unicodeEscape (c : N) : jsstring :=
  [BACKSLASH; 117%N;
   hexDigit (c / 4096 mod 16)%N; hexDigit (c / 256 mod 16)%N;
   hexDigit (c / 16 mod 16)%N; hexDigit (c mod 16)%N].

Definition isHighSurrogate (c : N) : bool := ((55296 <=? c) && (c <=? 56319))%N.
Definition isLowSurrogate (c : N) : bool := ((56320 <=? c) && (c <=? 57343))%N.

(** One code unit that is not part of a surrogate pair. *)
Definition quoteJSONUnit (c : N) : jsstring :=
  if (c =? 8)%N then [BACKSLASH; 98%N]
  else if (c =? TAB)%N then [BACKSLASH; 116%N]
  else if (c =? LF)%N then [BACKSLASH; 110%N]
  else if (c =? 12)%N then [BACKSLASH; 102%N]
  else if (c =? CR)%N then [BACKSLASH; 114%N]
  else if (c =? DQUOTE)%N then [BACKSLASH; DQUOTE]
  else if (c =? BACKSLASH)%N then [BACKSLASH; BACKSLASH]
  else if ((c <? 32)%N || isHighSurrogate c || isLowSurrogate c)%bool
       then unicodeEscape c
  else [c].

Fixpoint quoteJSONBody (s : jsstring) : jsstring :=
  match s with
  | [] => []
  | c :: rest =>
      match rest with
      | d :: rest' =>
          if (isHighSurrogate c && isLowSurrogate d)%bool
          then c :: d :: quoteJSONBody rest'
          else quoteJSONUnit c ++ quoteJSONBody rest
      | [] => quoteJSONUnit c
      end
  end.

Definition JSON_stringify (s : jsstring) : jsstring :=
  [DQUOTE] ++ quoteJSONBody s ++ [DQUOTE].

(** ** Configuration *)

(** The configuration types of [config.ts], which the entry point imports
    ([OneFAppConfig], [OneFSecretConfig], [OneFTaskConfig], [OneFConfig])
    and the file name constant [ONE_F_CONFIG_FILENAME].  An optional field
    is an [option]; a table ([tasks], [secrets]) is the list
    [Object.entries] enumerates. *)
Record OneFAppConfig := {
  app_name : option jsstring;
  app_description : option jsstring;
  app_version : option jsstring
}.

Record OneFSecretConfig := {
  secret_label : option jsstring;
  secret_required : option bool;
  secret_description : option jsstring;
  secret_default : option jsstring
}.

Record OneFTaskConfig := {
  task_desc : option jsstring;
  task_silent : option bool;
  task_cmds : option (list jsstring)
}.

Record OneFConfig := {
  app : option OneFAppConfig;
  secrets : option (list (jsstring * OneFSecretConfig));
  tasks : option (list (jsstring * OneFTaskConfig))
}.

Definition ONE_F_CONFIG_FILENAME : jsstring := js "1f.toml".

(** [process.env]. *)
Abbreviation Env := (gmap jsstring jsstring).

Definition lookupNonEmptyEnv (env : Env) (key : jsstring) : option jsstring :=
  match env !! key with
  | None => None
  | Some raw =>
      if truthy raw
      then let trimmed := trim raw in
           if (0 <? Z.of_nat (length trimmed)) then Some trimmed else None
      else None
  end.

(** ** Command identity *)

(** The two functions of [node:path] the entry point calls. *)
Record PathModule := {
  basename : jsstring -> jsstring;
  extname : jsstring -> jsstring
}.

Definition SLASH : N := 47%N.
Definition DOT : N := 46%N.

Fixpoint takeWhile {A} (p : A -> bool) (l : list A) : list A :=
  match l with
  | [] => []
  | x :: r => if p x then x :: takeWhile p r else []
  end.

(** [path.posix.basename]: the last component, trailing separators
    ignored. *)
Definition posix_basename (p : jsstring) : jsstring :=
  rev (takeWhile (fun c => negb (c =? SLASH)%N)
         (dropWhile (fun c => (c =? SLASH)%N) (rev p))).

(** [path.posix.extname]: from the last dot of the last component to its
    end; empty when there is no dot, when that dot starts the component, or
    when the component is [..]. *)
Definition posix_extname (p : jsstring) : jsstring :=
  let comp := posix_basename p in
  let r := rev comp in
  match dropWhile (fun c => negb (c =? DOT)%N) r with
  | [] => []
  | dot :: before =>
      if (negb (truthy before) || streq comp [DOT; DOT])%bool then []
      else dot :: rev (takeWhile (fun c => negb (c =? DOT)%N) r)
  end.

Definition posix : PathModule :=
  {| basename := posix_basename; extname := posix_extname |}.

Record Identity := {
  commandName : jsstring;
  commandSummary : jsstring;
  reportedVersion : jsstring
}.

Record IdentityLocks := {
  nameLocked : bool;
  summaryLocked : bool
}.

Definition FLOW_VERSION : jsstring := js "1.0.0".
Definition DEFAULT_COMMAND_NAME : jsstring := js "fast".
Definition DEFAULT_SUMMARY : jsstring :=
  js "fast is CLI to move faster in software projects".

(** The module-level variables before [main] runs. *)
Definition initialIdentity : Identity :=
  {| commandName := DEFAULT_COMMAND_NAME;
     commandSummary := DEFAULT_SUMMARY;
     reportedVersion := FLOW_VERSION |}.

(** [`${base} is CLI to move faster in software projects`]. *)
Definition generatedSummary (base : jsstring) : jsstring :=
  base ++ js " is CLI to move faster in software projects".

(** [path.basename(trimmed).replace(path.extname(trimmed), "") || trimmed]. *)
Definition baseOf (path : PathModule) (trimmed : jsstring) : jsstring :=
  let stem := removeFirst (extname path trimmed) (basename path trimmed) in
  if truthy stem then stem else trimmed.

Definition setSummary (s : jsstring) (id : Identity) : Identity :=
  {| commandName := commandName id;
     commandSummary := s;
     reportedVersion := reportedVersion id |}.

Definition setVersion (v : jsstring) (id : Identity) : Identity :=
  {| commandName := commandName id;
     commandSummary := commandSummary id;
     reportedVersion := v |}.

Definition applyCommandIdentity (path : PathModule)
    (candidate : option jsstring) (summaryLocked : bool)
    (id : Identity) : Identity :=
  match candidate with
  | None => id
  | Some c =>
      if negb (truthy c) then id
      else
        let trimmed := trim c in
        if negb (truthy trimmed) then id
        else
          let base := baseOf path trimmed in
          {| commandName := base;
             commandSummary :=
               if summaryLocked then commandSummary id
               else generatedSummary base;
             reportedVersion := reportedVersion id |}
  end.

(** [argv1] is [process.argv[1]]. *)
Definition configureCommandIdentity (path : PathModule) (env : Env)
    (argv1 : option jsstring) (id : Identity) : Identity * IdentityLocks :=
  let summary := lookupNonEmptyEnv env (js "FLOW_COMMAND_SUMMARY") in
  let summaryLocked := truthy_opt summary in
  let id1 :=
    if truthy_opt summary then setSummary (default [] summary) id else id in
  let name := lookupNonEmptyEnv env (js "FLOW_COMMAND_NAME") in
  let nameLocked := truthy_opt name in
  if truthy_opt name
  then (applyCommandIdentity path name summaryLocked id1,
        {| nameLocked := nameLocked; summaryLocked := summaryLocked |})
  else (applyCommandIdentity path
          (Some (default DEFAULT_COMMAND_NAME argv1)) summaryLocked id1,
        {| nameLocked := false; summaryLocked := summaryLocked |}).

Definition applyAppMetadata (path : PathModule) (app : option OneFAppConfig)
    (locks : IdentityLocks) (id : Identity) : Identity :=
  match app with
  | None => id
  | Some a =>
      let appName := trim <$> app_name a in
      let appDescription := trim <$> app_description a in
      let id1 :=
        if (truthy_opt appName && negb (nameLocked locks))%bool
        then applyCommandIdentity path appName
               (summaryLocked locks || truthy_opt appDescription) id
        else id in
      let id2 :=
        if negb (summaryLocked locks)
        then
          if truthy_opt appDescription
          then setSummary (default [] appDescription) id1
          else if truthy_opt appName
          then setSummary (generatedSummary (default [] appName)) id1
          else id1
        else id1 in
      match app_version a with
      | Some v => if truthy (trim v) then setVersion (trim v) id2 else id2
      | None => id2
      end
  end.

(** The identity [main] ends up with: [configureCommandIdentity] first,
    [applyAppMetadata] on the loaded configuration second. *)
Definition resolveIdentity (path : PathModule) (env : Env)
    (argv1 : option jsstring) (app : option OneFAppConfig) : Identity :=
  let '(id, locks) := configureCommandIdentity path env argv1 initialIdentity in
  applyAppMetadata path app locks id.

(** ** Command registry *)

(** The handlers [main] registers.  A configuration task's handler is the
    closure over its name and its table. *)
Inductive CommandHandler :=
| HCommitPush (label : jsstring)
| HDBOpen
| HDBClear
| HUpdate
| HSetup
| HTasksList
| HTestWatch
| HChatTui
| HVersion
| HConfiguredTask (taskName : jsstring) (taskConfig : OneFTaskConfig).

(** The closure [() => executeCommandWithTelemetry(name, handler)] stored
    in the registry. *)
Record TelemetryHandler := WithTelemetry {
  wrapped_name : jsstring;
  wrapped_handler : CommandHandler
}.

Record CommandCatalogEntry := {
  name : jsstring;
  description : jsstring
}.

(** The two module-level tables. *)
Record Commands := {
  commandRegistry : gmap jsstring TelemetryHandler;
  commandCatalog : list CommandCatalogEntry
}.

Definition initialCommands : Commands :=
  {| commandRegistry := ∅;
     commandCatalog :=
       [ {| name := js "help"; description := js "Help about any command" |} ] |}.

Definition registerCommand (nm descr : jsstring) (handler : CommandHandler)
    (st : Commands) : Commands :=
  {| commandRegistry := <[nm := WithTelemetry nm handler]> (commandRegistry st);
     commandCatalog := commandCatalog st ++ [ {| name := nm; description := descr |} ] |}.

(** A registration request: the three arguments of [registerCommand]. *)
Record Registration := {
  reg_name : jsstring;
  reg_description : jsstring;
  reg_handler : CommandHandler
}.

Definition commitDescription : jsstring :=
  js "Generate a commit message with GPT-5 nano, create the commit, and push it".

(** The ten [registerCommand] calls of [main], in order. *)
Definition builtinRegistrations : list Registration :=
  [ {| reg_name := js "commit"; reg_description := commitDescription;
       reg_handler := HCommitPush (js "commit") |};
    {| reg_name := js "commitPush"; reg_description := commitDescription;
       reg_handler := HCommitPush (js "commitPush") |};
    {| reg_name := js "dbOpen";
       reg_description := js "Open the project SQLite database in TablePlus";
       reg_handler := HDBOpen |};
    {| reg_name := js "dbClear";
       reg_description := js "Remove all data from the project SQLite database";
       reg_handler := HDBClear |};
    {| reg_name := js "update";
       reg_description := js "Update dependencies (bun) and pull latest git changes";
       reg_handler := HUpdate |};
    {| reg_name := js "setup";
       reg_description :=
         js "Validate required secrets and run the setup task from 1f.toml";
       reg_handler := HSetup |};
    {| reg_name := js "tasks";
       reg_description := js "List tasks defined in 1f.toml";
       reg_handler := HTasksList |};
    {| reg_name := js "test";
       reg_description :=
         js "Fuzzy select a test file under tests/ then run bun --watch";
       reg_handler := HTestWatch |};
    {| reg_name := js "chat";
       reg_description := js "Open a ChatGPT-like TUI for quick requests";
       reg_handler := HChatTui |};
    {| reg_name := js "version";
       reg_description := js "Print the current fast release";
       reg_handler := HVersion |} ].

Definition registerBuiltins (st : Commands) : Commands :=
  fold_left
    (fun st r => registerCommand (reg_name r) (reg_description r) (reg_handler r) st)
    builtinRegistrations st.

(** What [registerConfigTasks] passes to [registerCommand] for one entry
    of the task table. *)
Definition taskRegistration (entry : jsstring * OneFTaskConfig) : Registration :=
  let '(taskName, taskConfig) := entry in
  {| reg_name := taskName;
     reg_description :=
       default (js "Run " ++ taskName ++ js " task from " ++ ONE_F_CONFIG_FILENAME)
               (task_desc taskConfig);
     reg_handler := HConfiguredTask taskName taskConfig |}.

(** One iteration of the loop of [registerConfigTasks]. *)
Definition registerConfigTask (st : Commands)
    (entry : jsstring * OneFTaskConfig) : Commands :=
  if bool_decide (is_Some (commandRegistry st !! entry.1)) then st
  else let r := taskRegistration entry in
       registerCommand (reg_name r) (reg_description r) (reg_handler r) st.

Definition registerConfigTasks (config : option OneFConfig)
    (st : Commands) : Commands :=
  match config with
  | None => st
  | Some c =>
      match tasks c with
      | None => st
      | Some entries => fold_left registerConfigTask entries st
      end
  end.

(** The registration part of [main]: built-ins, then the configuration. *)
Definition startup (config : option OneFConfig) : Commands :=
  registerConfigTasks config (registerBuiltins initialCommands).

(** The contract of the specification: [register] adds the entry only when
    the name is not yet in the registry. *)
Definition register_spec (st : Commands) (r : Registration) : Commands :=
  match commandRegistry st !! reg_name r with
  | Some _ => st
  | None =>
      {| commandRegistry :=
           <[reg_name r := WithTelemetry (reg_name r) (reg_handler r)]>
             (commandRegistry st);
         commandCatalog :=
           commandCatalog st
             ++ [ {| name := reg_name r; description := reg_description r |} ] |}
  end.

(** Every registration request of a start-up, in order. *)
Definition startupRegistrations (config : option OneFConfig) : list Registration :=
  builtinRegistrations
    ++ match config with
       | Some c => taskRegistration <$> default [] (tasks c)
       | None => []
       end.

(** ** Dispatch *)

Inductive TelemetryLevel := debug | info | warn | error.

(** What the process does that is visible from outside, in order. *)
Inductive Effect :=
| ConsoleLog (line : jsstring)
| ConsoleError (line : jsstring)
| TrackTelemetry (level : TelemetryLevel) (event command : jsstring)
| Invoke (handler : CommandHandler)
| ProcessExit (code : Z).

Definition log (s : string) : Effect := ConsoleLog (js s).

(** [console.log(`  ${commandName} ${rest}`)]. *)
Definition usageLine (id : Identity) (rest : jsstring) : Effect :=
  ConsoleLog (js "  " ++ commandName id ++ js " " ++ rest).

(** The text of a help heading ends in a line feed of its own. *)
Definition heading (s : string) : Effect := ConsoleLog (js s ++ [LF]).

(** [printCommandHelp]: what it prints and what it returns. *)
Definition printCommandHelp (id : Identity) (nm : jsstring) : bool * list Effect :=
  if streq nm (js "help") then
    (true, [heading "Help about any command"; log "Usage:";
            usageLine id (js "help [command]")])
  else if (streq nm (js "commit") || streq nm (js "commitPush"))%bool then
    (true, [heading "Generate a commit message with GPT-5 nano, create the commit, and push it";
            log "Usage:"; usageLine id nm])
  else if streq nm (js "dbOpen") then
    (true, [heading "Open the project SQLite database in TablePlus";
            log "Usage:"; usageLine id (js "dbOpen")])
  else if streq nm (js "dbClear") then
    (true, [heading "Remove all data from the project SQLite database";
            log "Usage:"; usageLine id (js "dbClear")])
  else if streq nm (js "update") then
    (true, [heading "Update dependencies and sync the repository";
            log "Usage:"; usageLine id (js "update")])
  else if streq nm (js "setup") then
    (true, [heading "Validate secrets then run the setup task from 1f.toml";
            log "Usage:"; usageLine id (js "setup")])
  else if streq nm (js "tasks") then
    (true, [heading "List tasks defined in 1f.toml";
            log "Usage:"; usageLine id (js "tasks")])
  else if streq nm (js "test") then
    (true, [heading "Fuzzy select a test from tests/ and run bun --watch";
            log "Usage:"; usageLine id (js "test")])
  else if streq nm (js "chat") then
    (true, [heading "Open a chat-style TUI powered by GPT";
            log "Usage:"; usageLine id (js "chat")])
  else if streq nm (js "version") then
    (true, [heading "Print the current fast release";
            log "Usage:"; usageLine id (js "version")])
  else (false, []).

Definition printRootHelp (id : Identity) : list Effect :=
  [ ConsoleLog (commandSummary id);
    ConsoleLog ([LF] ++ js "Usage:");
    ConsoleLog (js "  " ++ commandName id ++ js " [command]" ++ [LF]);
    ConsoleLog (js "Run `" ++ commandName id
                  ++ js "` without arguments to open the interactive command palette."
                  ++ [LF]);
    log "Available Commands:";
    log "  help             Help about any command";
    log "  commit           Generate a commit message with GPT-5 nano, create the commit, and push it";
    log "  commitPush       Generate a commit message with GPT-5 nano, create the commit, and push it";
    log "  dbOpen           Open the project SQLite database in TablePlus";
    log "  dbClear          Remove all data from the project SQLite database";
    log "  update           Update dependencies (bun) and pull latest git changes";
    log "  setup           Validate secrets and run the setup task from 1f.toml";
    log "  tasks            Show tasks defined in 1f.toml";
    log "  test             Fuzzy select a test file under tests/ then run bun --watch";
    log "  chat             ChatGPT-like TUI for quick requests";
    heading "  version          Print the current fast release";
    log "Flags:";
    ConsoleLog (js "  -h, --help   help for " ++ commandName id ++ [LF]);
    ConsoleLog (js "Use " ++ [DQUOTE] ++ commandName id ++ js " [command] --help"
                  ++ [DQUOTE] ++ js " for more information about a command.") ].

Definition isHelpFlag (s : jsstring) : bool :=
  (streq s (js "--help") || streq s (js "-h"))%bool.

(** [handleTopLevel]: whether it handled the arguments, and what it
    printed. *)
Definition handleTopLevel (id : Identity) (args : list jsstring)
  : bool * list Effect :=
  match args with
  | [] => (true, printRootHelp id)
  | primary :: rest =>
      if negb (truthy primary) then (true, printRootHelp id)
      else if (streq primary (js "--help") || streq primary (js "-h")
               || streq primary (js "h"))%bool
      then (true, printRootHelp id)
      else if streq primary (js "--version")
      then (true, [ConsoleLog (reportedVersion id)])
      else if streq primary (js "help") then
        match rest with
        | [] => (true, printRootHelp id)
        | topic :: _ =>
            if negb (truthy topic) then (true, printRootHelp id)
            else
              let '(known, out) := printCommandHelp id topic in
              if known then (true, out)
              else (true, [ConsoleError (js "Unknown help topic "
                                           ++ JSON_stringify topic)])
        end
      else if (1 <? Z.of_nat (length args)) then
        if isHelpFlag (List.last args [])
        then
          let '(known, out) := printCommandHelp id primary in
          if known then (true, out) else (true, printRootHelp id)
        else (false, [])
      else (false, [])
  end.

(** [executeCommandWithTelemetry]: [outcome] tells what the handler does
    when called, [None] when it resolves and [Some message] when it
    throws an error with that message. *)
Definition executeCommandWithTelemetry
    (outcome : CommandHandler -> option jsstring)
    (nm : jsstring) (handler : CommandHandler)
  : list Effect * option jsstring :=
  let r := outcome handler in
  ([TrackTelemetry info (js "command_start") nm; Invoke handler]
     ++ match r with
        | None => [TrackTelemetry info (js "command_success") nm]
        | Some _ => [TrackTelemetry error (js "command_failure") nm]
        end,
   r).

(** The part of [main] that follows the palette: [args] is the argument
    vector to dispatch. *)
Definition dispatch (outcome : CommandHandler -> option jsstring)
    (id : Identity) (st : Commands) (args : list jsstring) : list Effect :=
  let '(handled, out) := handleTopLevel id args in
  if handled then out
  else
    match args with
    | [] => printRootHelp id
    | commandKey :: _ =>
        if negb (truthy commandKey) then printRootHelp id
        else
          match commandRegistry st !! commandKey with
          | None =>
              [TrackTelemetry warn (js "command_not_found") commandKey;
               ConsoleError (js "Unknown command: " ++ commandKey)]
                ++ printRootHelp id ++ [ProcessExit 1]
          | Some handler =>
              if (includes (js "--help") args || includes (js "-h") args)%bool
              then
                let '(known, out) := printCommandHelp id commandKey in
                if known then out else printRootHelp id
              else
                let '(trace, thrown) :=
                  executeCommandWithTelemetry outcome
                    (wrapped_name handler) (wrapped_handler handler) in
                trace ++ match thrown with
                         | Some message => [ConsoleError message; ProcessExit 1]
                         | None => []
                         end
          end
    end.

(** ** Interactive palette *)

Inductive CommandPaletteResult :=
| PaletteCommand (args : list jsstring)
| PaletteCancel (code : Z)
| PaletteFallback.

(** What [selectCommandArgs] observes of its surroundings. *)
Record Terminal := {
  stdin_isTTY : bool;
  stdout_isTTY : bool;
  fzf_exists : bool
}.

(** The first event of the selector child that settles the promise:
    [error], or [close] with the exit code ([None] is JavaScript's [null],
    the code of a child killed by a signal) after [stdout] was collected. *)
Inductive SelectorOutcome :=
| SelectorError
| SelectorClose (code : option Z) (stdout : jsstring).

(** [lines.find((line) => line.trim().length > 0)]. *)
Definition firstNonBlank (lines : list jsstring) : option jsstring :=
  List.find (fun line => 0 <? Z.of_nat (length (trim line))) lines.

Definition selectCommandArgs (term : Terminal) (fzf : SelectorOutcome)
  : CommandPaletteResult :=
  if (negb (stdin_isTTY term) || negb (stdout_isTTY term))%bool
  then PaletteFallback
  else if negb (fzf_exists term) then PaletteFallback
  else
    match fzf with
    | SelectorError => PaletteFallback
    | SelectorClose code stdout =>
        match code with
        | Some 0 =>
            match firstNonBlank (splitLines stdout) with
            | None => PaletteFallback
            | Some firstLine =>
                if negb (truthy firstLine) then PaletteFallback
                else
                  let selection := trim (beforeFirstTab firstLine) in
                  if negb (truthy selection) then PaletteFallback
                  else PaletteCommand [selection]
            end
        | _ => PaletteCancel (default 1 code)
        end
    end.

(** [main] from the point where the registry is populated; [argv] is
    [process.argv.slice(2)]. *)
Definition main (outcome : CommandHandler -> option jsstring)
    (id : Identity) (st : Commands) (term : Terminal) (fzf : SelectorOutcome)
    (argv : list jsstring) : list Effect :=
  match argv with
  | [] =>
      match selectCommandArgs term fzf with
      | PaletteCommand args => dispatch outcome id st args
      | PaletteCancel code =>
          if negb (code =? 0) then [ProcessExit code] else []
      | PaletteFallback => printRootHelp id
      end
  | _ :: _ => dispatch outcome id st argv
  end.

(** ** Child processes and promises *)

(** How a promise settles. *)
Inductive Result (A : Type) :=
| Resolved (value : A)
| Rejected (message : jsstring).
Arguments Resolved {A} value.
Arguments Rejected {A} message.

(** How a spawned child ends: the [error] event, or [close] with its exit
    code, [None] (JavaScript's [null]) when a signal terminated it. *)
Inductive ChildOutcome :=
| ChildError (message : jsstring)
| ChildClose (code : option Z).

(** The operating system and the completion service as oracles over a
    world: a child with inherited stdio ([spawn]), a child whose output is
    captured ([execFile], rejected on a non-zero exit), and the text of a
    completion for a system and a user prompt. *)
Record System (World : Type) := {
  spawnInherit : list jsstring -> World -> World * ChildOutcome;
  execFileAsync : list jsstring -> World -> World * Result jsstring;
  streamText : jsstring -> jsstring -> World -> World * Result jsstring
}.
Arguments spawnInherit {World} _ _ _.
Arguments execFileAsync {World} _ _ _.
Arguments streamText {World} _ _ _.

(** The state of a run: the world, every command line started so far and
    every line written with [console.log], both oldest first. *)
Record Run (World : Type) := {
  world : World;
  spawned : list (list jsstring);
  printed : list jsstring
}.
Arguments world {World} _.
Arguments spawned {World} _.
Arguments printed {World} _.

(** An [async] function. *)
Definition Async (World A : Type) : Type := Run World -> Run World * Result A.

Definition resolve {World A : Type} (a : A) : Async World A :=
  fun r => (r, Resolved a).

Definition reject {World A : Type} (message : jsstring) : Async World A :=
  fun r => (r, Rejected message).

Definition andThen {World A B : Type} (m : Async World A) (k : A -> Async World B)
  : Async World B :=
  fun r =>
    match m r with
    | (r', Resolved a) => k a r'
    | (r', Rejected message) => (r', Rejected message)
    end.

(** [try { m } catch { h }]. *)
Definition tryCatch {World A : Type} (m : Async World A) (h : jsstring -> Async World A)
  : Async World A :=
  fun r =>
    match m r with
    | (r', Resolved a) => (r', Resolved a)
    | (r', Rejected message) => h message r'
    end.

Declare Scope async_scope.
Delimit Scope async_scope with async.
Notation "x <- c1 ;; c2" := (andThen c1 (fun x => c2))
  (at level 100, c1 at next level, right associativity) : async_scope.
Notation "c1 ;; c2" := (andThen c1 (fun _ => c2))
  (at level 100, right associativity) : async_scope.
Open Scope async_scope.

Definition consoleLog {World : Type} (line : jsstring) : Async World unit :=
  fun r => ({| world := world r; spawned := spawned r;
               printed := printed r ++ [line] |}, Resolved tt).

(** [for (const x of xs) { await f(x) }]. *)
Fixpoint forEach {World A : Type} (f : A -> Async World unit) (xs : list A)
  : Async World unit :=
  match xs with
  | [] => resolve tt
  | x :: rest => f x ;; forEach f rest
  end.

(** [spawn(command, args, { stdio: "inherit" })] up to the event that
    settles the promise around it. *)
Definition spawnChild {World : Type} (sys : System World) (argv : list jsstring)
  : Async World ChildOutcome :=
  fun r =>
    let '(w, out) := spawnInherit sys argv (world r) in
    ({| world := w; spawned := spawned r ++ [argv]; printed := printed r |},
     Resolved out).

(** [execFileAsync(command, args)] and [stdout.toString()]. *)
Definition capture {World : Type} (sys : System World) (argv : list jsstring)
  : Async World jsstring :=
  fun r =>
    let '(w, out) := execFileAsync sys argv (world r) in
    ({| world := w; spawned := spawned r ++ [argv]; printed := printed r |}, out).

(** ** Configuration tasks *)

Definition executeTaskCommand {World : Type} (sys : System World)
    (command nm : jsstring) : Async World unit :=
  out <- spawnChild sys [js "bash"; js "-lc"; command] ;;
  match out with
  | ChildError message => reject message
  | ChildClose code =>
      if bool_decide (code = Some 0) then resolve tt
      else reject (js "Task '" ++ nm ++ js "' command exited with code "
                     ++ Number_toString (default (-1) code))
  end.

(** [config.tasks?.[name]]. *)
Definition lookupTask (config : option OneFConfig) (nm : jsstring)
  : option OneFTaskConfig :=
  c ← config; entries ← tasks c;
  snd <$> List.find (fun e => streq (fst e) nm) entries.

(** [loaded] is what [loadOneFConfig()] would return. *)
Definition runConfiguredTask {World : Type} (sys : System World)
    (loaded : option OneFConfig)
    (nm : jsstring) (configOverride : option OneFTaskConfig)
  : Async World unit :=
  let config :=
    match configOverride with
    | Some c => Some c
    | None => lookupTask loaded nm
    end in
  match config with
  | None => reject (js "Task '" ++ nm ++ js "' not found in " ++ ONE_F_CONFIG_FILENAME)
  | Some config =>
      let commands := default [] (task_cmds config) in
      if (Z.of_nat (length commands) =? 0)
      then reject (js "Task '" ++ nm ++ js "' has no commands to run")
      else forEach (fun command => executeTaskCommand sys command nm) commands
  end.

(** ** Secret validation *)

Record SecretReport := {
  lines : list jsstring;
  missing : list jsstring
}.

Definition CHECK_MARK : jsstring := [10004%N; 65039%N].
Definition WARNING_SIGN : jsstring := [9888%N; 65039%N].
Definition CROSS_MARK : jsstring := [10060%N].
Definition BULLET : jsstring := [8226%N].

(** [`${label} (${envName})`], common to the four lines. *)
Definition secretTitle (label envName : jsstring) : jsstring :=
  js " " ++ label ++ js " (" ++ envName ++ js ")".

(** One iteration of the loop of [validateSecrets]. *)
Definition validateSecret (env : Env) (acc : SecretReport)
    (entry : jsstring * OneFSecretConfig) : SecretReport :=
  let '(envName, secretConfig) := entry in
  let label := default envName (secret_label secretConfig) in
  let required := default false (secret_required secretConfig) in
  let envValue := lookupNonEmptyEnv env envName in
  if truthy_opt envValue
  then {| lines := lines acc ++ [CHECK_MARK ++ secretTitle label envName ++ js " is set"];
          missing := missing acc |}
  else if required
  then
    match secret_default secretConfig with
    | Some d =>
        {| lines := lines acc
             ++ [WARNING_SIGN ++ secretTitle label envName
                   ++ js " missing; default '" ++ d ++ js "' will be used"];
           missing := missing acc |}
    | None =>
        {| lines := lines acc
             ++ [CROSS_MARK ++ secretTitle label envName ++ js " is required: "
                   ++ default (js "no description provided")
                        (secret_description secretConfig)];
           missing := missing acc ++ [envName] |}
    end
  else {| lines := lines acc
            ++ [BULLET ++ secretTitle label envName ++ js " not set (optional)"];
          missing := missing acc |}.

Definition validateSecrets (env : Env) (config : OneFConfig) : SecretReport :=
  match secrets config with
  | None =>
      {| lines := [js "No secrets defined in " ++ ONE_F_CONFIG_FILENAME ++ js "."];
         missing := [] |}
  | Some entries =>
      if (Z.of_nat (length entries) =? 0)
      then {| lines := [js "No secrets defined in " ++ ONE_F_CONFIG_FILENAME ++ js "."];
              missing := [] |}
      else fold_left (validateSecret env) entries {| lines := []; missing := [] |}
  end.

(** [loaded] is what [loadOneFConfig()] returns. *)
Definition runSetup {World : Type} (sys : System World) (env : Env)
    (loaded : option OneFConfig) : Async World unit :=
  match loaded with
  | None =>
      consoleLog (js "No " ++ ONE_F_CONFIG_FILENAME ++ js " found. Nothing to validate.")
  | Some config =>
      let secretResults := validateSecrets env config in
      forEach consoleLog (lines secretResults) ;;
      if (0 <? Z.of_nat (length (missing secretResults)))
      then reject (js "Missing required secrets: "
                     ++ join (js ", ") (missing secretResults))
      else
        match lookupTask (Some config) (js "setup") with
        | Some setupTask =>
            consoleLog (js "Running setup task commands...") ;;
            runConfiguredTask sys loaded (js "setup") (Some setupTask)
        | None =>
            consoleLog (js "No setup task defined; environment looks good.")
        end
  end.

(** ** Commit workflow *)

Definition MAX_COMMIT_DIFF_CHARS : Z := 12000.
Definition OPENAI_API_KEY_ENV : jsstring := js "OPENAI_API_KEY".

(** [s.slice(0, n)] for [0 <= n]. *)
Definition sliceTo (n : Z) (s : jsstring) : jsstring := take (Z.to_nat n) s.

(** The marker appended to a diff that was cut. *)
Definition truncationMarker : jsstring :=
  [LF; LF] ++ js "[Diff truncated to the first "
    ++ Number_toString MAX_COMMIT_DIFF_CHARS ++ js " characters]".

(** Returns [truncatedDiff] and [truncated]. *)
Definition truncateDiffForCommit (diff : jsstring) : jsstring * bool :=
  if (Z.of_nat (length diff) <=? MAX_COMMIT_DIFF_CHARS) then (diff, false)
  else (sliceTo MAX_COMMIT_DIFF_CHARS diff ++ truncationMarker, true).

Definition commitSystemPrompt : jsstring :=
  js "You are an expert software engineer who writes clear, concise git commit messages. Use imperative mood, keep the subject line under 72 characters, and include an optional body with bullet points if helpful. Never wrap the message in quotes. Never include secrets, credentials, or file contents from .env files, environment variables, keys, or other sensitive data"
    ++ [8212%N] ++ js "even if they appear in the diff.".

(** The notice [generateCommitMessage] adds for a cut diff. *)
Definition truncationNotice : jsstring :=
  [LF; LF] ++ js "[Diff truncated to fit within prompt]".

(** [userPrompt] of [generateCommitMessage]. *)
Definition commitUserPrompt (diff status : jsstring) (truncated : bool) : jsstring :=
  let userPrompt :=
    js "Write a git commit message for the staged changes." ++ [LF; LF]
      ++ js "Git diff:" ++ [LF] in
  let userPrompt := userPrompt ++ diff in
  let userPrompt :=
    if truncated then userPrompt ++ truncationNotice else userPrompt in
  let trimmedStatus := trim status in
  if truthy trimmedStatus
  then userPrompt ++ [LF; LF] ++ js "Git status --short:" ++ [LF] ++ trimmedStatus
  else userPrompt.

(** [await result.text] of the completion started by [streamText]. *)
Definition completionText {World : Type} (sys : System World)
    (system prompt : jsstring) : Async World jsstring :=
  fun r =>
    let '(w, out) := streamText sys system prompt (world r) in
    ({| world := w; spawned := spawned r; printed := printed r |}, out).

Definition generateCommitMessage {World : Type} (sys : System World)
    (apiKey diff status : jsstring) (truncated : bool) : Async World jsstring :=
  text <- completionText sys commitSystemPrompt
            (commitUserPrompt diff status truncated) ;;
  let message := trim text in
  if negb (truthy message)
  then reject (js "Model returned an empty commit message")
  else resolve message.

Definition isBlankChar (c : N) : bool := ((c =? TAB) || (c =? SPACE))%N.

(** [line.replace(/[\t ]+$/, "")]. *)
Definition stripTrailingBlanks (line : jsstring) : jsstring :=
  dropWhileEnd isBlankChar line.

(** [current.join("\n").trimEnd()]. *)
Definition paragraphOf (current : list jsstring) : jsstring :=
  trimEnd (join [LF] current).

(** One iteration of the loop of [splitCommitMessageParagraphs] on its two
    variables [paragraphs] and [current]. *)
Definition paragraphStep (st : list jsstring * list jsstring) (line : jsstring)
  : list jsstring * list jsstring :=
  let '(paragraphs, current) := st in
  if negb (truthy (trim line))
  then
    if (0 <? Z.of_nat (length current))
    then (paragraphs ++ [paragraphOf current], [])
    else (paragraphs, current)
  else (paragraphs, current ++ [stripTrailingBlanks line]).

Definition splitCommitMessageParagraphs (message : jsstring) : list jsstring :=
  let '(paragraphs, current) :=
    fold_left paragraphStep (splitLines message) ([], []) in
  if (0 <? Z.of_nat (length current))
  then paragraphs ++ [paragraphOf current]
  else paragraphs.

Definition trimMatchingQuotes (input : jsstring) : jsstring :=
  if (2 <=? Z.of_nat (length input))
  then
    let first := hd 0%N input in
    let last := List.last input 0%N in
    if (((first =? DQUOTE)%N && (last =? DQUOTE)%N)
        || ((first =? SQUOTE)%N && (last =? SQUOTE)%N))%bool
    then take (length input - 2) (drop 1 input)
    else input
  else input.

Record CommitPayload := {
  message : jsstring;
  paragraphs : list jsstring
}.

Definition runCommandStreaming {World : Type} (sys : System World)
    (command : jsstring) (args : list jsstring) : Async World unit :=
  out <- spawnChild sys (command :: args) ;;
  match out with
  | ChildError message => reject message
  | ChildClose code =>
      if bool_decide (code = Some 0) then resolve tt
      else reject (command ++ js " " ++ join (js " ") args
                     ++ js " exited with code "
                     ++ match code with
                        | Some c => Number_toString c
                        | None => js "null"
                        end)
  end.

Definition runGitCommandStreaming {World : Type} (sys : System World)
    (args : list jsstring) : Async World unit :=
  runCommandStreaming sys (js "git") args.

Definition runGitCapture {World : Type} (sys : System World)
    (args : list jsstring) : Async World jsstring :=
  capture sys (js "git" :: args).

Definition ensureGitRepository {World : Type} (sys : System World) : Async World unit :=
  stdout <- capture sys [js "git"; js "rev-parse"; js "--is-inside-work-tree"] ;;
  if negb (streq (trim stdout) (js "true"))
  then reject (js "Not inside a git repository")
  else resolve tt.

(** The key is read from the environment: the cache [cachedOpenAIKey] is
    empty on the first call of a process. *)
Definition resolveOpenAIKey {World : Type} (env : Env) (id : Identity)
  : Async World jsstring :=
  match lookupNonEmptyEnv env OPENAI_API_KEY_ENV with
  | Some value =>
      if truthy value then resolve value
      else reject (OPENAI_API_KEY_ENV ++ js " is not set; export it before running "
                     ++ commandName id ++ js " commit")
  | None =>
      reject (OPENAI_API_KEY_ENV ++ js " is not set; export it before running "
                ++ commandName id ++ js " commit")
  end.

(** The end of [prepareCommit], from the message [generateCommitMessage]
    returned. *)
Definition formatCommitMessage {World : Type} (message : jsstring)
  : Async World CommitPayload :=
  let trimmedMessage := trimMatchingQuotes (trim message) in
  if negb (truthy trimmedMessage)
  then reject (js "Commit message is empty")
  else
    let paragraphs := splitCommitMessageParagraphs trimmedMessage in
    if (Z.of_nat (length paragraphs) =? 0)
    then reject (js "Commit message is empty after formatting")
    else resolve {| message := trimmedMessage; paragraphs := paragraphs |}.

Definition prepareCommit {World : Type} (sys : System World) (env : Env)
    (id : Identity) : Async World CommitPayload :=
  ensureGitRepository sys ;;
  apiKey <- resolveOpenAIKey env id ;;
  runGitCommandStreaming sys [js "add"; js "."] ;;
  diff <- runGitCapture sys [js "diff"; js "--cached"] ;;
  if negb (truthy (trim diff))
  then reject (js "No staged changes to commit; stage files with git add")
  else
    let '(truncatedDiff, truncated) := truncateDiffForCommit diff in
    status <- tryCatch (runGitCapture sys [js "status"; js "--short"])
                (fun _ => resolve []) ;;
    message <- generateCommitMessage sys apiKey truncatedDiff status truncated ;;
    formatCommitMessage message.

(** The arguments of the [git commit] call: one [-m] per paragraph. *)
Definition commitArgs (payload : CommitPayload) : list jsstring :=
  js "commit" :: flat_map (fun paragraph => [js "-m"; paragraph]) (paragraphs payload).

Definition commitWithPayload {World : Type} (sys : System World)
    (payload : CommitPayload) : Async World unit :=
  runGitCommandStreaming sys (commitArgs payload).

Definition printProposedMessage {World : Type} (message : jsstring) : Async World unit :=
  consoleLog (js "Proposed commit message:" ++ [LF] ++ message ++ [LF]).

Definition printCommitSuccess {World : Type} (payload : CommitPayload) : Async World unit :=
  match paragraphs payload with
  | first :: _ =>
      consoleLog (CHECK_MARK ++ js " Committed with message: " ++ first)
  | [] => resolve tt
  end.

Definition runCommitPushWorkflow {World : Type} (sys : System World) (env : Env)
    (id : Identity) (label : jsstring) : Async World unit :=
  if (negb (streq label (js "commit")) && negb (streq label (js "commitPush")))%bool
  then reject (js "Unsupported commit workflow: " ++ label)
  else
    payload <- prepareCommit sys env id ;;
    printProposedMessage (message payload) ;;
    commitWithPayload sys payload ;;
    printCommitSuccess payload ;;
    runGitCommandStreaming sys [js "push"] ;;
    consoleLog (CHECK_MARK ++ js " Pushed").

(** A command line that starts [git commit]. *)
Definition isGitCommit (argv : list jsstring) : bool :=
  match argv with
  | program :: sub :: _ => (streq program (js "git") && streq sub (js "commit"))%bool
  | _ => false
  end.

(* ===================================================================== *)
(** * Part II: properties                                                 *)
(* ===================================================================== *)

(** ** Strings *)

Lemma streq_spec (a b : jsstring) : streq a b = true <-> a = b.
Proof. unfold streq. apply bool_decide_eq_true. Qed.

Lemma streq_refl (a : jsstring) : streq a a = true.
Proof. by apply streq_spec. Qed.

Lemma streq_neq (a b : jsstring) : a ≠ b -> streq a b = false.
Proof. unfold streq. apply bool_decide_eq_false_2. Qed.

Lemma truthy_length (s : jsstring) : truthy s = (0 <? Z.of_nat (length s)).
Proof. destruct s; simpl; [done|]. symmetry. apply Z.ltb_lt. lia. Qed.

(** ** The registry *)

Definition helpEntry : CommandCatalogEntry :=
  {| name := js "help"; description := js "Help about any command" |}.

(** The closure the registry holds for a request. *)
Definition wrapped (r : Registration) : TelemetryHandler :=
  WithTelemetry (reg_name r) (reg_handler r).

(** The catalog entries that registrations added: all but the entry for
    [help] the catalog starts with. *)
Definition registeredEntries (st : Commands) : list CommandCatalogEntry :=
  drop 1 (commandCatalog st).

(** What start-up maintains: the catalog is the [help] entry followed by one
    entry per registered name, each name once. *)
Definition consistent (st : Commands) : Prop :=
  exists rest,
    commandCatalog st = helpEntry :: rest
    /\ NoDup (name <$> rest)
    /\ forall n, n ∈ (name <$> rest) <-> is_Some (commandRegistry st !! n).

Lemma register_spec_fresh (st : Commands) (r : Registration) :
  commandRegistry st !! reg_name r = None ->
  register_spec st r
  = registerCommand (reg_name r) (reg_description r) (reg_handler r) st.
Proof. intros H. unfold register_spec. by rewrite H. Qed.

Lemma register_spec_taken (st : Commands) (r : Registration) :
  is_Some (commandRegistry st !! reg_name r) -> register_spec st r = st.
Proof. intros [h H]. unfold register_spec. by rewrite H. Qed.

Lemma register_spec_idempotent (st : Commands) (r : Registration) :
  register_spec (register_spec st r) r = register_spec st r.
Proof.
  destruct (commandRegistry st !! reg_name r) as [h|] eqn:E.
  - rewrite (register_spec_taken st r) by eauto.
    apply register_spec_taken; eauto.
  - apply register_spec_taken.
    unfold register_spec. rewrite E. simpl. rewrite lookup_insert_eq. eauto.
Qed.

Lemma registerConfigTask_spec (st : Commands) (entry : jsstring * OneFTaskConfig) :
  registerConfigTask st entry = register_spec st (taskRegistration entry).
Proof.
  unfold registerConfigTask.
  assert (Hn : reg_name (taskRegistration entry) = entry.1) by (by destruct entry).
  case_bool_decide as H.
  - symmetry. apply register_spec_taken. by rewrite Hn.
  - symmetry. apply register_spec_fresh. rewrite Hn.
    by apply eq_None_not_Some.
Qed.

Lemma registerConfigTask_taken (st : Commands) (entry : jsstring * OneFTaskConfig) :
  is_Some (commandRegistry st !! entry.1) -> registerConfigTask st entry = st.
Proof. intros H. unfold registerConfigTask. by rewrite bool_decide_eq_true_2. Qed.

Lemma registerConfigTasks_spec (entries : list (jsstring * OneFTaskConfig))
    (st : Commands) :
  fold_left registerConfigTask entries st
  = fold_left register_spec (taskRegistration <$> entries) st.
Proof.
  revert st. induction entries as [|e entries IH]; intros st; simpl; [done|].
  by rewrite registerConfigTask_spec, IH.
Qed.

Lemma registerBuiltins_spec :
  registerBuiltins initialCommands
  = fold_left register_spec builtinRegistrations initialCommands.
Proof. vm_compute. reflexivity. Qed.

Lemma startup_spec (config : option OneFConfig) :
  startup config
  = fold_left register_spec (startupRegistrations config) initialCommands.
Proof.
  unfold startup, startupRegistrations. rewrite fold_left_app.
  rewrite <- registerBuiltins_spec.
  destruct config as [c|]; simpl; [|done].
  destruct (tasks c) as [entries|]; simpl; [|done].
  apply registerConfigTasks_spec.
Qed.

Lemma register_spec_consistent (st : Commands) (r : Registration) :
  consistent st -> consistent (register_spec st r).
Proof.
  intros (rest & Hc & Hnd & Hdom).
  destruct (commandRegistry st !! reg_name r) as [h|] eqn:E.
  - rewrite register_spec_taken by eauto. by exists rest.
  - unfold register_spec. rewrite E.
    exists (rest ++ [ {| name := reg_name r; description := reg_description r |} ]).
    simpl. split; [by rewrite Hc|]. rewrite fmap_app. simpl. split.
    + apply NoDup_app. split; [done|]. split; [|apply NoDup_singleton].
      intros n Hin Hin'. apply list_elem_of_singleton in Hin'. subst n.
      apply Hdom in Hin. rewrite E in Hin. by destruct Hin.
    + intros n. rewrite elem_of_app, list_elem_of_singleton, Hdom.
      destruct (decide (reg_name r = n)) as [->|Hne].
      * rewrite lookup_insert_eq. split; eauto.
      * rewrite lookup_insert_ne by done. split; [|tauto].
        intros [H|H]; [done|]. by subst n.
Qed.

Lemma fold_register_spec_consistent (rs : list Registration) (st : Commands) :
  consistent st -> consistent (fold_left register_spec rs st).
Proof.
  revert st. induction rs as [|r rs IH]; intros st H; simpl; [done|].
  apply IH. by apply register_spec_consistent.
Qed.

Lemma initialCommands_consistent : consistent initialCommands.
Proof.
  exists []. split; [done|]. split; [constructor|].
  intros n. simpl. rewrite lookup_empty. split.
  - intros H. by apply elem_of_nil in H.
  - intros [h H]. done.
Qed.

(** First writer wins: a name already present keeps its handler, and a
    name that is not gets the handler of the first request for it. *)
Lemma fold_register_spec_lookup (rs : list Registration) (st : Commands)
    (n : jsstring) :
  commandRegistry (fold_left register_spec rs st) !! n
  = match commandRegistry st !! n with
    | Some h => Some h
    | None => wrapped <$> List.find (fun r => streq (reg_name r) n) rs
    end.
Proof.
  revert st. induction rs as [|r rs IH]; intros st; simpl.
  - by destruct (commandRegistry st !! n).
  - rewrite IH. unfold register_spec at 1.
    destruct (commandRegistry st !! reg_name r) as [h|] eqn:E.
    + destruct (commandRegistry st !! n) as [h'|] eqn:E'; [done|].
      rewrite streq_neq; [done|]. intros Heq. rewrite Heq in E. congruence.
    + simpl. destruct (decide (n = reg_name r)) as [->|Hne].
      * rewrite lookup_insert_eq, E, streq_refl. done.
      * rewrite lookup_insert_ne by done. by rewrite streq_neq.
Qed.

Lemma find_app_first {A} (p : A -> bool) (l1 l2 : list A) (x : A) :
  List.find p l1 = Some x -> List.find p (l1 ++ l2) = Some x.
Proof.
  induction l1 as [|a l1 IH]; simpl; [done|].
  destruct (p a); [done|]. apply IH.
Qed.

Lemma builtin_is_first_writer (r : Registration) :
  r ∈ builtinRegistrations ->
  List.find (fun r' => streq (reg_name r') (reg_name r)) builtinRegistrations
  = Some r.
Proof.
  unfold builtinRegistrations. intros H.
  repeat (apply elem_of_cons in H as [->|H]; [vm_compute; reflexivity|]).
  by apply elem_of_nil in H.
Qed.

(** C1. For every configuration, the registrations performed at start-up
    (the ten built-ins first, then the configuration tasks) behave as the
    guarded [register] of the specification applied to every request in
    order: a request adds its catalog entry and telemetry-wrapped handler
    only if its name is not yet registered.  That operation is idempotent,
    every name is registered at most once (the entries added to the catalog
    have pairwise distinct names, and they are exactly the keys of the
    registry), the first writer wins, every built-in keeps its own handler
    whatever the configuration declares, and a configuration task whose
    name is already registered is skipped without any change. *)
Theorem C1_registration_first_writer_wins (config : option OneFConfig) :
  let st := startup config in
  st = fold_left register_spec (startupRegistrations config) initialCommands
  /\ (forall st0 r, register_spec (register_spec st0 r) r = register_spec st0 r)
  /\ NoDup (name <$> registeredEntries st)
  /\ (forall n, n ∈ (name <$> registeredEntries st)
                <-> is_Some (commandRegistry st !! n))
  /\ (forall n, commandRegistry st !! n
                = wrapped <$> List.find (fun r => streq (reg_name r) n)
                                (startupRegistrations config))
  /\ (forall r, r ∈ builtinRegistrations ->
                commandRegistry st !! reg_name r = Some (wrapped r))
  /\ (forall st0 entry, is_Some (commandRegistry st0 !! entry.1) ->
                        registerConfigTask st0 entry = st0).
Proof.
  intros st.
  assert (Hst : st = fold_left register_spec (startupRegistrations config)
                       initialCommands) by apply startup_spec.
  assert (Hlookup : forall n, commandRegistry st !! n
            = wrapped <$> List.find (fun r => streq (reg_name r) n)
                            (startupRegistrations config)).
  { intros n. rewrite Hst, fold_register_spec_lookup. simpl.
    by rewrite lookup_empty. }
  destruct (fold_register_spec_consistent (startupRegistrations config)
              initialCommands initialCommands_consistent)
    as (rest & Hc & Hnd & Hdom).
  rewrite <- Hst in Hc, Hdom.
  assert (Hrest : registeredEntries st = rest).
  { unfold registeredEntries. by rewrite Hc. }
  split; [done|]. split; [apply register_spec_idempotent|].
  rewrite Hrest. split; [done|]. split; [done|]. split; [done|].
  split; [|apply registerConfigTask_taken].
  intros r Hr. rewrite Hlookup. unfold startupRegistrations.
  by rewrite (find_app_first _ _ _ r (builtin_is_first_writer r Hr)).
Qed.

(** A configuration that redefines [commit] and adds [dev]. *)
Definition sampleTask (command : string) : OneFTaskConfig :=
  {| task_desc := None; task_silent := None; task_cmds := Some [js command] |}.

Definition sampleConfig : OneFConfig :=
  {| app := None; secrets := None;
     tasks := Some [(js "commit", sampleTask "echo hijack");
                    (js "dev", sampleTask "bun dev")] |}.

Lemma C1_registration_witness :
  commandRegistry (startup (Some sampleConfig)) !! js "commit"
  = Some (WithTelemetry (js "commit") (HCommitPush (js "commit")))
  /\ registerConfigTask (startup (Some sampleConfig))
       (js "commit", sampleTask "echo hijack")
     = startup (Some sampleConfig).
Proof.
  destruct (C1_registration_first_writer_wins (Some sampleConfig))
    as (_ & _ & _ & _ & _ & Hbuiltin & Hskip).
  split.
  - apply (Hbuiltin {| reg_name := js "commit";
                       reg_description := commitDescription;
                       reg_handler := HCommitPush (js "commit") |}).
    apply list_elem_of_here.
  - apply Hskip. vm_compute. eauto.
Defined.

(** ** Dispatch *)

(** The handlers a trace invokes, in order. *)
Definition invoked (trace : list Effect) : list CommandHandler :=
  omap (fun e => match e with Invoke h => Some h | _ => None end) trace.

Lemma printRootHelp_no_invoke (id : Identity) : invoked (printRootHelp id) = [].
Proof. reflexivity. Qed.

(** Case analysis on the next test of a dispatch function. *)
Ltac case_test :=
  match goal with
  | |- context [streq ?a ?b] => destruct (streq a b) eqn:?
  | |- context [truthy ?a] => destruct (truthy a) eqn:?
  | |- context [isHelpFlag ?a] => destruct (isHelpFlag a) eqn:?
  end; simpl.

Lemma printCommandHelp_no_invoke (id : Identity) (nm : jsstring) :
  invoked (printCommandHelp id nm).2 = [].
Proof. unfold printCommandHelp. repeat case_test; reflexivity. Qed.

(** [handleTopLevel] on [help topic ...]. *)
Lemma handleTopLevel_help (id : Identity) (rest : list jsstring) :
  handleTopLevel id (js "help" :: rest)
  = match rest with
    | [] => (true, printRootHelp id)
    | topic :: _ =>
        if negb (truthy topic) then (true, printRootHelp id)
        else
          let '(known, out) := printCommandHelp id topic in
          if known then (true, out)
          else (true, [ConsoleError (js "Unknown help topic "
                                       ++ JSON_stringify topic)])
    end.
Proof.
  unfold handleTopLevel.
  change (truthy (js "help")) with true.
  change (streq (js "help") (js "--help")) with false.
  change (streq (js "help") (js "-h")) with false.
  change (streq (js "help") (js "h")) with false.
  change (streq (js "help") (js "--version")) with false.
  change (streq (js "help") (js "help")) with true.
  reflexivity.
Qed.

Lemma handleTopLevel_no_invoke (id : Identity) (args : list jsstring) :
  invoked (handleTopLevel id args).2 = [].
Proof.
  pose proof (printCommandHelp_no_invoke id) as Hhelp.
  unfold handleTopLevel.
  destruct args as [|primary rest]; [reflexivity|].
  destruct (truthy primary); simpl; [|reflexivity].
  destruct (streq primary (js "--help")); simpl; [reflexivity|].
  destruct (streq primary (js "-h")); simpl; [reflexivity|].
  destruct (streq primary (js "h")); simpl; [reflexivity|].
  destruct (streq primary (js "--version")); simpl; [reflexivity|].
  destruct (streq primary (js "help")); simpl.
  - destruct rest as [|topic rest]; [reflexivity|].
    destruct (truthy topic); simpl; [|reflexivity].
    specialize (Hhelp topic).
    destruct (printCommandHelp id topic) as [[] out]; simpl in *; done.
  - specialize (Hhelp primary).
    destruct (1 <? _); [|reflexivity].
    destruct (isHelpFlag _); [|reflexivity].
    destruct (printCommandHelp id primary) as [[] out]; simpl in *; done.
Qed.

(** Membership in a list that is written out. *)
Ltac elem_of_list :=
  repeat first [apply list_elem_of_here | apply list_elem_of_further].

(** When [handleTopLevel] handles the arguments, [main] returns what it
    printed and never looks at the registry. *)
Lemma dispatch_handled (outcome : CommandHandler -> option jsstring)
    (id : Identity) (st : Commands) (args : list jsstring) :
  (handleTopLevel id args).1 = true ->
  dispatch outcome id st args = (handleTopLevel id args).2.
Proof.
  intros H. unfold dispatch.
  destruct (handleTopLevel id args) as [handled out]. simpl in *. by subst.
Qed.

(** The first tokens [handleTopLevel] recognises by themselves. *)
Definition topLevelWords : list jsstring :=
  [js "--help"; js "-h"; js "h"; js "--version"; js "help"].

Lemma handleTopLevel_word (id : Identity) (primary : jsstring)
    (rest : list jsstring) :
  primary ∈ topLevelWords -> (handleTopLevel id (primary :: rest)).1 = true.
Proof.
  unfold topLevelWords. intros H.
  repeat (apply elem_of_cons in H as [->|H]; [try reflexivity|]).
  - rewrite handleTopLevel_help.
    destruct rest as [|topic ?]; [reflexivity|].
    destruct (truthy topic); simpl; [|reflexivity].
    by destruct (printCommandHelp id topic) as [[] out].
  - by apply elem_of_nil in H.
Qed.

Lemma find_app_None {A} (p : A -> bool) (l1 l2 : list A) :
  List.find p l1 = None -> List.find p (l1 ++ l2) = List.find p l2.
Proof.
  induction l1 as [|a l1 IH]; simpl; [done|].
  destruct (p a); [done|]. apply IH.
Qed.

Lemma find_fmap {A B} (f : A -> B) (p : B -> bool) (l : list A) :
  List.find p (f <$> l) = f <$> List.find (fun a => p (f a)) l.
Proof.
  induction l as [|a l IH]; simpl; [done|].
  destruct (p (f a)); [done|]. apply IH.
Qed.

Lemma startup_lookup (config : option OneFConfig) (n : jsstring) :
  commandRegistry (startup config) !! n
  = wrapped <$> List.find (fun r => streq (reg_name r) n)
                  (startupRegistrations config).
Proof.
  rewrite startup_spec, fold_register_spec_lookup. simpl.
  by rewrite lookup_empty.
Qed.

Lemma startup_consistent (config : option OneFConfig) :
  consistent (startup config).
Proof.
  rewrite startup_spec.
  apply fold_register_spec_consistent, initialCommands_consistent.
Qed.

(** A name that is not a built-in is served by the first task of the
    configuration that bears it. *)
Lemma startup_lookup_task (config : OneFConfig) (n : jsstring) :
  List.find (fun r => streq (reg_name r) n) builtinRegistrations = None ->
  commandRegistry (startup (Some config)) !! n
  = (fun taskConfig => WithTelemetry n (HConfiguredTask n taskConfig))
      <$> lookupTask (Some config) n.
Proof.
  intros Hb. rewrite startup_lookup. unfold startupRegistrations.
  rewrite (find_app_None _ _ _ Hb), find_fmap. simpl.
  destruct (tasks config) as [entries|]; simpl; [|done].
  induction entries as [|[k c] entries IH]; simpl; [done|].
  destruct (streq k n) eqn:E; [|apply IH].
  apply streq_spec in E. by subst.
Qed.

Lemma count_never {A} (f : A -> jsstring) (x : jsstring) (l : list A) :
  x ∉ (f <$> l) -> length (filter (fun e => f e = x) l) = 0%nat.
Proof.
  induction l as [|a l IH]; simpl; intros Hin; [done|].
  apply not_elem_of_cons in Hin as [Hx Hin].
  rewrite filter_cons, decide_False by congruence. by apply IH.
Qed.

Lemma count_once {A} (f : A -> jsstring) (x : jsstring) (l : list A) :
  NoDup (f <$> l) -> x ∈ (f <$> l) ->
  length (filter (fun e => f e = x) l) = 1%nat.
Proof.
  induction l as [|a l IH]; simpl; intros Hnd Hin.
  - by apply elem_of_nil in Hin.
  - apply NoDup_cons in Hnd as [Hna Hnd].
    rewrite filter_cons. case_decide as Ha.
    + simpl. f_equal. apply count_never. by rewrite <- Ha.
    + apply IH; [done|]. apply elem_of_cons in Hin as [Hx|Hin]; [|done].
      by subst.
Qed.

(** C10. The built-in [help] is an entry of the catalog alone: the registry
    holds no [help] after the built-ins are registered.  So a configuration
    that defines a task named [help] gets it registered, and the catalog
    then lists [help] twice; yet on every argument vector that starts with
    [help], [main] returns what [handleTopLevel] printed and invokes no
    handler. *)
Theorem C10_help_task_registered_never_invoked
    (config : OneFConfig) (taskConfig : OneFTaskConfig) :
  lookupTask (Some config) (js "help") = Some taskConfig ->
  let st := startup (Some config) in
  helpEntry ∈ commandCatalog initialCommands
  /\ commandRegistry (registerBuiltins initialCommands) !! js "help" = None
  /\ commandRegistry st !! js "help"
     = Some (WithTelemetry (js "help") (HConfiguredTask (js "help") taskConfig))
  /\ length (filter (fun e => name e = js "help") (commandCatalog st)) = 2%nat
  /\ (forall outcome id term fzf rest,
        main outcome id st term fzf (js "help" :: rest)
        = (handleTopLevel id (js "help" :: rest)).2
        /\ invoked (main outcome id st term fzf (js "help" :: rest)) = []).
Proof.
  intros Htask st.
  assert (Hreg : commandRegistry st !! js "help"
                 = Some (WithTelemetry (js "help")
                           (HConfiguredTask (js "help") taskConfig))).
  { unfold st. rewrite startup_lookup_task by (vm_compute; reflexivity).
    by rewrite Htask. }
  split; [apply list_elem_of_here|]. split; [vm_compute; reflexivity|].
  split; [done|]. split.
  - destruct (startup_consistent (Some config)) as (rest & Hc & Hnd & Hdom).
    fold st in Hc, Hdom. rewrite Hc, filter_cons.
    rewrite decide_True by reflexivity. simpl. f_equal.
    apply count_once; [done|]. apply Hdom. rewrite Hreg. eauto.
  - intros outcome id term fzf rest. simpl.
    rewrite dispatch_handled
      by (apply handleTopLevel_word; unfold topLevelWords; elem_of_list).
    split; [done|]. apply handleTopLevel_no_invoke.
Qed.

(** A configuration whose only task is called [help]. *)
Definition helpConfig : OneFConfig :=
  {| app := None; secrets := None;
     tasks := Some [(js "help", sampleTask "echo custom help")] |}.

Lemma C10_help_task_witness :
  commandRegistry (startup (Some helpConfig)) !! js "help"
  = Some (WithTelemetry (js "help")
            (HConfiguredTask (js "help") (sampleTask "echo custom help")))
  /\ length (filter (fun e => name e = js "help")
               (commandCatalog (startup (Some helpConfig)))) = 2%nat.
Proof.
  destruct (C10_help_task_registered_never_invoked helpConfig
              (sampleTask "echo custom help"))
    as (_ & _ & Hreg & Hcount & _).
  - vm_compute. reflexivity.
  - split; [exact Hreg | exact Hcount].
Defined.

(** The remaining tokens include a help flag. *)
Definition hasHelpFlag (rest : list jsstring) : bool :=
  (includes (js "--help") rest || includes (js "-h") rest)%bool.

(** The names of the ten built-in commands. *)
Definition builtinNames : list jsstring := reg_name <$> builtinRegistrations.

(** A trace is the help of command [cmd]. *)
Definition isCommandHelp (id : Identity) (cmd : jsstring) (trace : list Effect)
  : Prop :=
  exists out, printCommandHelp id cmd = (true, out) /\ trace = out.

Lemma hasHelpFlag_includes (cmd : jsstring) (rest : list jsstring) :
  hasHelpFlag rest = true ->
  (includes (js "--help") (cmd :: rest) || includes (js "-h") (cmd :: rest))%bool
  = true.
Proof.
  unfold hasHelpFlag, includes. simpl. intros H.
  apply orb_true_iff in H as [H|H]; rewrite H;
    repeat rewrite orb_true_r; reflexivity.
Qed.

Lemma hasHelpFlag_length (cmd : jsstring) (rest : list jsstring) :
  hasHelpFlag rest = true -> (1 <? Z.of_nat (length (cmd :: rest))) = true.
Proof.
  intros H. destruct rest as [|a rest]; [discriminate|].
  apply Z.ltb_lt. simpl length. lia.
Qed.

(** A registered command other than a top-level word, asked for help: its
    own help when [printCommandHelp] knows it, the root help otherwise. *)
Lemma dispatch_command_help (outcome : CommandHandler -> option jsstring)
    (id : Identity) (st : Commands) (cmd : jsstring) (rest : list jsstring) :
  truthy cmd = true -> cmd ∉ topLevelWords ->
  is_Some (commandRegistry st !! cmd) -> hasHelpFlag rest = true ->
  dispatch outcome id st (cmd :: rest)
  = if (printCommandHelp id cmd).1 then (printCommandHelp id cmd).2
    else printRootHelp id.
Proof.
  intros Ht Hw [h Hreg] Hflag. unfold topLevelWords in Hw.
  repeat (apply not_elem_of_cons in Hw as [?%streq_neq Hw]).
  unfold dispatch, handleTopLevel.
  rewrite Ht. simpl negb. cbv iota.
  repeat match goal with H : streq cmd _ = false |- _ => rewrite H; clear H end.
  rewrite !orb_false_l. cbv iota.
  rewrite (hasHelpFlag_length cmd rest Hflag).
  destruct (isHelpFlag (List.last (cmd :: rest) [])).
  - by destruct (printCommandHelp id cmd) as [[] out].
  - cbv iota beta. rewrite Hreg, (hasHelpFlag_includes cmd rest Hflag).
    by destruct (printCommandHelp id cmd) as [[] out].
Qed.

Lemma dispatch_help_no_invoke (outcome : CommandHandler -> option jsstring)
    (id : Identity) (st : Commands) (cmd : jsstring) (rest : list jsstring) :
  hasHelpFlag rest = true ->
  invoked (dispatch outcome id st (cmd :: rest)) = [].
Proof.
  intros Hflag. unfold dispatch.
  pose proof (handleTopLevel_no_invoke id (cmd :: rest)) as Htop.
  destruct (handleTopLevel id (cmd :: rest)) as [[] out]; [done|].
  destruct (truthy cmd); [|reflexivity]. simpl negb. cbv iota.
  destruct (commandRegistry st !! cmd) as [h|]; [|reflexivity].
  rewrite (hasHelpFlag_includes cmd rest Hflag).
  pose proof (printCommandHelp_no_invoke id cmd) as Hhelp.
  by destruct (printCommandHelp id cmd) as [[] out'].
Qed.

Lemma printCommandHelp_builtin (id : Identity) (cmd : jsstring) :
  cmd ∈ builtinNames -> (printCommandHelp id cmd).1 = true.
Proof.
  unfold builtinNames, builtinRegistrations. simpl. intros H.
  repeat (apply elem_of_cons in H as [->|H]; [reflexivity|]).
  by apply elem_of_nil in H.
Qed.

Lemma builtin_not_topLevelWord (cmd : jsstring) :
  cmd ∈ builtinNames -> truthy cmd = true /\ cmd ∉ topLevelWords.
Proof.
  unfold builtinNames, builtinRegistrations. simpl. intros H.
  repeat (apply elem_of_cons in H as [->|H];
          [split; [reflexivity | by refine (bool_decide_unpack _ _); vm_compute]|]).
  by apply elem_of_nil in H.
Qed.

Lemma printCommandHelp_unknown (id : Identity) (cmd : jsstring) :
  cmd ∉ builtinNames -> cmd ≠ js "help" -> printCommandHelp id cmd = (false, []).
Proof.
  unfold builtinNames, builtinRegistrations. simpl. intros H Hh.
  repeat (apply not_elem_of_cons in H as [?%streq_neq H]).
  apply streq_neq in Hh.
  unfold printCommandHelp.
  repeat match goal with H : streq cmd _ = false |- _ => rewrite H; clear H end.
  reflexivity.
Qed.

(** C2 as stated fails: [dev] is a registered command (a task of the
    configuration) and [--help] follows it, but what is printed is the root
    help, not a help of [dev], which [printCommandHelp] does not know. *)
Lemma C2_counterexample_task_help :
  let st := startup (Some sampleConfig) in
  let trace := dispatch (fun _ => None) initialIdentity st [js "dev"; js "--help"] in
  is_Some (commandRegistry st !! js "dev")
  /\ hasHelpFlag [js "--help"] = true
  /\ trace = printRootHelp initialIdentity
  /\ ~ isCommandHelp initialIdentity (js "dev") trace.
Proof.
  split; [vm_compute; eauto|]. split; [reflexivity|].
  split; [vm_compute; reflexivity|].
  intros (out & Hhelp & _). vm_compute in Hhelp. discriminate Hhelp.
Qed.

(** C2 (amended). For every argument vector, [main] recognises [--help],
    [-h], [--version] and [help [topic]] before it consults the registry:
    it returns what [handleTopLevel] printed (the root help for [--help] and
    [-h], the version for [--version]), whatever the registry holds, and
    invokes no handler.  Whenever the first token is a registered command
    and the remaining tokens include [--help] or [-h], no handler is
    invoked; the help of that command is printed when it is one of the ten
    built-ins, and the root help is printed instead when it is a
    configuration task.  Two task names are the exception, because the
    top-level words of the same name shadow them: for a task named
    [--version] the version is printed, and for a task named [help] the
    token that follows is taken as the help topic, so that its help is
    printed when [printCommandHelp] knows it and the error [Unknown help
    topic] otherwise. *)
Theorem C2_help_short_circuits (outcome : CommandHandler -> option jsstring)
    (id : Identity) (st : Commands) :
  (forall primary rest,
      primary ∈ [js "--help"; js "-h"; js "--version"; js "help"] ->
      dispatch outcome id st (primary :: rest)
      = (handleTopLevel id (primary :: rest)).2
      /\ invoked (dispatch outcome id st (primary :: rest)) = [])
  /\ (forall rest,
        dispatch outcome id st (js "--help" :: rest) = printRootHelp id
        /\ dispatch outcome id st (js "-h" :: rest) = printRootHelp id
        /\ dispatch outcome id st (js "--version" :: rest)
           = [ConsoleLog (reportedVersion id)])
  /\ (forall cmd rest,
        is_Some (commandRegistry st !! cmd) -> hasHelpFlag rest = true ->
        invoked (dispatch outcome id st (cmd :: rest)) = []
        /\ (cmd ∈ builtinNames ->
            isCommandHelp id cmd (dispatch outcome id st (cmd :: rest)))
        /\ (cmd ∉ builtinNames -> cmd ∉ [js "--version"; js "help"] ->
            dispatch outcome id st (cmd :: rest) = printRootHelp id)
        /\ (cmd = js "--version" ->
            dispatch outcome id st (cmd :: rest)
            = [ConsoleLog (reportedVersion id)])
        /\ (cmd = js "help" ->
            dispatch outcome id st (cmd :: rest)
            = match rest with
              | [] => printRootHelp id
              | topic :: _ =>
                  if negb (truthy topic) then printRootHelp id
                  else if (printCommandHelp id topic).1
                       then (printCommandHelp id topic).2
                       else [ConsoleError (js "Unknown help topic "
                                             ++ JSON_stringify topic)]
              end)).
Proof.
  assert (Hword : forall primary rest, primary ∈ topLevelWords ->
            dispatch outcome id st (primary :: rest)
            = (handleTopLevel id (primary :: rest)).2).
  { intros primary rest H. by apply dispatch_handled, handleTopLevel_word. }
  split; [|split].
  - intros primary rest H.
    assert (Hin : primary ∈ topLevelWords).
    { unfold topLevelWords.
      repeat (apply elem_of_cons in H as [->|H]; [elem_of_list|]).
      by apply elem_of_nil in H. }
    rewrite (Hword _ _ Hin). split; [done|]. apply handleTopLevel_no_invoke.
  - intros rest.
    rewrite !Hword by (unfold topLevelWords; elem_of_list). done.
  - intros cmd rest Hreg Hflag.
    split; [by apply dispatch_help_no_invoke|]. split; [|split; [|split]].
    + intros Hb. destruct (builtin_not_topLevelWord cmd Hb) as [Ht Hw].
      rewrite (dispatch_command_help outcome id st cmd rest Ht Hw Hreg Hflag).
      pose proof (printCommandHelp_builtin id cmd Hb) as Hknown.
      destruct (printCommandHelp id cmd) as [known out] eqn:E.
      simpl in Hknown. subst known. by exists out.
    + intros Hb Hw.
      apply not_elem_of_cons in Hw as [Hv Hw].
      apply not_elem_of_cons in Hw as [Hh _].
      destruct (truthy cmd) eqn:Ht.
      * destruct (decide (cmd ∈ [js "--help"; js "-h"; js "h"])) as [Hin|Hnin].
        { repeat (apply elem_of_cons in Hin as [->|Hin];
                  [rewrite Hword by (unfold topLevelWords; elem_of_list);
                   reflexivity|]).
          by apply elem_of_nil in Hin. }
        assert (Hw : cmd ∉ topLevelWords).
        { unfold topLevelWords. intros Hin. apply Hnin.
          do 3 (apply elem_of_cons in Hin as [->|Hin]; [elem_of_list|]).
          do 2 (apply elem_of_cons in Hin as [->|Hin]; [done|]).
          by apply elem_of_nil in Hin. }
        rewrite (dispatch_command_help outcome id st cmd rest Ht Hw Hreg Hflag).
        by rewrite printCommandHelp_unknown.
      * destruct cmd; [|discriminate]. reflexivity.
    + intros ->. rewrite Hword by (unfold topLevelWords; elem_of_list).
      reflexivity.
    + intros ->. rewrite Hword by (unfold topLevelWords; elem_of_list).
      rewrite handleTopLevel_help.
      destruct rest as [|topic more]; [reflexivity|].
      destruct (truthy topic); simpl; [|reflexivity].
      by destruct (printCommandHelp id topic) as [[] out].
Qed.

Lemma C2_help_witness :
  isCommandHelp initialIdentity (js "commit")
    (dispatch (fun _ => None) initialIdentity (startup (Some sampleConfig))
       [js "commit"; js "-h"; js "now"])
  /\ dispatch (fun _ => None) initialIdentity (startup (Some sampleConfig))
       [js "dev"; js "--help"]
     = printRootHelp initialIdentity
  /\ invoked (dispatch (fun _ => None) initialIdentity
                (startup (Some sampleConfig)) [js "help"; js "dev"]) = []
  /\ dispatch (fun _ => None) initialIdentity (startup (Some helpConfig))
       [js "help"; js "--help"]
     = [ConsoleError (js "Unknown help topic " ++ [DQUOTE] ++ js "--help"
                        ++ [DQUOTE])].
Proof.
  destruct (C2_help_short_circuits (fun _ => None) initialIdentity
              (startup (Some sampleConfig))) as (Hflags & _ & Hcmd).
  destruct (C2_help_short_circuits (fun _ => None) initialIdentity
              (startup (Some helpConfig))) as (_ & _ & Htask).
  split; [|split; [|split]].
  - apply (Hcmd (js "commit") [js "-h"; js "now"]).
    + vm_compute. eauto.
    + reflexivity.
    + refine (bool_decide_unpack _ _). vm_compute. exact I.
  - apply (Hcmd (js "dev") [js "--help"]).
    + vm_compute. eauto.
    + reflexivity.
    + refine (bool_decide_unpack _ _). vm_compute. exact I.
    + refine (bool_decide_unpack _ _). vm_compute. exact I.
  - apply (Hflags (js "help") [js "dev"]).
    refine (bool_decide_unpack _ _). vm_compute. exact I.
  - destruct (Htask (js "help") [js "--help"]) as (_ & _ & _ & _ & Hhelp).
    + vm_compute. eauto.
    + reflexivity.
    + rewrite (Hhelp eq_refl). reflexivity.
Defined.

(** ** The palette *)

(** A terminal on which the selector runs. *)
Definition interactive : Terminal :=
  {| stdin_isTTY := true; stdout_isTTY := true; fzf_exists := true |}.

Lemma firstNonBlank_truthy (lines : list jsstring) (line : jsstring) :
  firstNonBlank lines = Some line -> truthy line = true.
Proof.
  unfold firstNonBlank. intros H. apply find_some in H as [_ H].
  destruct line; [discriminate H | reflexivity].
Qed.

(** C8 as stated fails: the selector exits with code 0 and its output has
    a non-empty line, [<TAB>x], but the token before the first tab is empty
    and the result is the fallback, not a chosen command. *)
Lemma C8_counterexample_empty_token :
  let stdout := [TAB] ++ js "x" ++ [LF] in
  firstNonBlank (splitLines stdout) = Some ([TAB] ++ js "x")
  /\ selectCommandArgs interactive (SelectorClose (Some 0) stdout)
     = PaletteFallback
  /\ selectCommandArgs interactive (SelectorClose (Some 0) stdout)
     <> PaletteCommand [beforeFirstTab ([TAB] ++ js "x")].
Proof. split; [reflexivity|]. split; [reflexivity|]. discriminate. Qed.

(** C8 (amended). The selector runs on an interactive terminal with [fzf]
    installed.  Exit code 0 with a non-blank line in the output yields the
    trimmed token before the first tab of the first such line as the only
    argument (no remaining arguments) when that token is not empty, and the
    fallback when it is; exit code 0 with no non-blank line yields the
    fallback; a non-zero exit code yields a cancellation with that code (and
    code 1 when a signal ended the selector); an error of the selector
    yields the fallback.  [main] prints the root help on a fallback, ends
    the process with the code of a cancellation unless it is zero, and
    dispatches the chosen command otherwise. *)
Theorem C8_palette_outcomes (term : Terminal) :
  stdin_isTTY term = true -> stdout_isTTY term = true -> fzf_exists term = true ->
  (forall stdout firstLine,
      firstNonBlank (splitLines stdout) = Some firstLine ->
      selectCommandArgs term (SelectorClose (Some 0) stdout)
      = if truthy (trim (beforeFirstTab firstLine))
        then PaletteCommand [trim (beforeFirstTab firstLine)]
        else PaletteFallback)
  /\ (forall stdout,
        firstNonBlank (splitLines stdout) = None ->
        selectCommandArgs term (SelectorClose (Some 0) stdout) = PaletteFallback)
  /\ selectCommandArgs term (SelectorClose (Some 0) []) = PaletteFallback
  /\ (forall code stdout,
        code <> 0 ->
        selectCommandArgs term (SelectorClose (Some code) stdout)
        = PaletteCancel code)
  /\ (forall stdout,
        selectCommandArgs term (SelectorClose None stdout) = PaletteCancel 1)
  /\ selectCommandArgs term SelectorError = PaletteFallback
  /\ (forall outcome id st fzf,
        match selectCommandArgs term fzf with
        | PaletteCommand args =>
            main outcome id st term fzf [] = dispatch outcome id st args
        | PaletteCancel code =>
            main outcome id st term fzf []
            = if (code =? 0) then [] else [ProcessExit code]
        | PaletteFallback =>
            main outcome id st term fzf [] = printRootHelp id
        end).
Proof.
  intros Hin Hout Hfzf.
  assert (Hrun : forall fzf, selectCommandArgs term fzf
            = selectCommandArgs interactive fzf).
  { intros fzf. unfold selectCommandArgs. by rewrite Hin, Hout, Hfzf. }
  repeat split.
  - intros stdout firstLine Hline. rewrite Hrun. unfold selectCommandArgs. simpl.
    rewrite Hline, (firstNonBlank_truthy (splitLines stdout) firstLine) by done.
    simpl. by destruct (truthy (trim (beforeFirstTab firstLine))).
  - intros stdout Hnone. rewrite Hrun. unfold selectCommandArgs. simpl.
    by rewrite Hnone.
  - by rewrite Hrun.
  - intros code stdout Hcode. rewrite Hrun. unfold selectCommandArgs. simpl.
    by destruct code.
  - intros stdout. by rewrite Hrun.
  - by rewrite Hrun.
  - intros outcome id st fzf. unfold main.
    destruct (selectCommandArgs term fzf) as [args|code|]; try done.
    by destruct (code =? 0).
Qed.

Lemma C8_palette_witness :
  selectCommandArgs interactive
    (SelectorClose (Some 0) (js "dev" ++ [TAB] ++ js "Run dev task" ++ [LF]))
  = PaletteCommand [js "dev"]
  /\ selectCommandArgs interactive (SelectorClose (Some 130) []) = PaletteCancel 130.
Proof.
  destruct (C8_palette_outcomes interactive eq_refl eq_refl eq_refl)
    as (Hline & _ & _ & Hcancel & _).
  split.
  - apply (Hline (js "dev" ++ [TAB] ++ js "Run dev task" ++ [LF])
             (js "dev" ++ [TAB] ++ js "Run dev task")).
    reflexivity.
  - apply Hcancel. discriminate.
Defined.

(** ** Configuration tasks *)

Lemma find_None_not_elem {A} (f : A -> jsstring) (x : jsstring) (l : list A) :
  x ∉ (f <$> l) -> List.find (fun a => streq (f a) x) l = None.
Proof.
  induction l as [|a l IH]; simpl; intros H; [done|].
  apply not_elem_of_cons in H as [Hx H].
  rewrite streq_neq by congruence. by apply IH.
Qed.

(** The command line [executeTaskCommand] starts. *)
Definition bashLine (command : jsstring) : list jsstring :=
  [js "bash"; js "-lc"; command].

(** The error of a task command that did not exit with code 0. *)
Definition taskCommandError (nm : jsstring) (code : option Z) : jsstring :=
  js "Task '" ++ nm ++ js "' command exited with code "
    ++ Number_toString (default (-1) code).

(** A message names the task when the name occurs in it. *)
Definition mentions (message nm : jsstring) : Prop :=
  exists before after, message = before ++ nm ++ after.

Section Tasks.
Context {World : Type} (sys : System World).

(** Every command of the list, run in order from world [w], exits with
    code 0 and leaves world [w']. *)
Inductive allSucceed : list jsstring -> World -> World -> Prop :=
| allSucceed_nil w : allSucceed [] w w
| allSucceed_cons c cs w w' w'' :
    spawnInherit sys (bashLine c) w = (w', ChildClose (Some 0)) ->
    allSucceed cs w' w'' ->
    allSucceed (c :: cs) w w''.

(** The run after the listed commands were started from [r] and left
    world [w]. *)
Definition afterCommands (r : Run World) (cs : list jsstring) (w : World)
  : Run World :=
  {| world := w; spawned := spawned r ++ (bashLine <$> cs);
     printed := printed r |}.

Lemma executeTaskCommand_run (command nm : jsstring) (r : Run World) :
  executeTaskCommand sys command nm r
  = let '(w, out) := spawnInherit sys (bashLine command) (world r) in
    (afterCommands r [command] w,
     match out with
     | ChildError message => Rejected message
     | ChildClose code =>
         if bool_decide (code = Some 0) then Resolved tt
         else Rejected (taskCommandError nm code)
     end).
Proof.
  unfold executeTaskCommand, andThen, spawnChild, bashLine.
  destruct (spawnInherit sys _ (world r)) as [w [message|code]]; [done|].
  by case_bool_decide.
Qed.

Lemma afterCommands_nil (r : Run World) : afterCommands r [] (world r) = r.
Proof.
  unfold afterCommands. destruct r. simpl. by rewrite app_nil_r.
Qed.

Lemma afterCommands_app (r : Run World) (cs cs' : list jsstring) (w w' : World) :
  afterCommands (afterCommands r cs w) cs' w' = afterCommands r (cs ++ cs') w'.
Proof. unfold afterCommands. simpl. by rewrite fmap_app, app_assoc. Qed.

Lemma forEach_allSucceed (nm : jsstring) (cs : list jsstring) (w w' : World) :
  allSucceed cs w w' ->
  forall r, world r = w ->
    forEach (fun command => executeTaskCommand sys command nm) cs r
    = (afterCommands r cs w', Resolved tt).
Proof.
  induction 1 as [w|c cs w w' w'' Hc Hcs IH]; intros r Hr; simpl.
  - by rewrite <- Hr, afterCommands_nil.
  - unfold andThen. rewrite executeTaskCommand_run, Hr, Hc. simpl.
    rewrite IH by done. by rewrite afterCommands_app.
Qed.

(** Fail fast: after the commands [pre] succeeded and [c] did not exit
    with code 0, nothing of [post] is started. *)
Lemma forEach_fail_fast (nm : jsstring) (pre post : list jsstring)
    (c : jsstring) (w w1 w2 : World) (code : option Z) :
  allSucceed pre w w1 ->
  spawnInherit sys (bashLine c) w1 = (w2, ChildClose code) ->
  code <> Some 0 ->
  forall r, world r = w ->
    forEach (fun command => executeTaskCommand sys command nm)
      (pre ++ c :: post) r
    = (afterCommands r (pre ++ [c]) w2, Rejected (taskCommandError nm code)).
Proof.
  induction 1 as [w|c' cs w w' w'' Hc Hcs IH]; intros Hfail Hcode r Hr; simpl.
  - unfold andThen. rewrite executeTaskCommand_run, Hr, Hfail. simpl.
    by rewrite bool_decide_eq_false_2.
  - unfold andThen. rewrite executeTaskCommand_run, Hr, Hc. simpl.
    rewrite IH by done. by rewrite afterCommands_app.
Qed.

Lemma runConfiguredTask_commands (loaded : option OneFConfig) (nm : jsstring)
    (taskConfig : OneFTaskConfig) (commands : list jsstring) :
  task_cmds taskConfig = Some commands -> commands <> [] ->
  runConfiguredTask sys loaded nm (Some taskConfig)
  = forEach (fun command => executeTaskCommand sys command nm) commands.
Proof.
  intros Hcmds Hne. unfold runConfiguredTask. rewrite Hcmds. simpl.
  destruct commands; [done|]. reflexivity.
Qed.

End Tasks.

(** A diff one character above the budget. *)
Definition sampleDiff : jsstring := repeat 120%N (Z.to_nat 12001).

(** A system for examples: the world counts the children started; the
    command [false] exits with code 1, [kill -9 $$] is ended by a signal and
    every other child exits with code 0; [git rev-parse] prints [true],
    [git diff --cached] prints a one-line diff; the completion answers with a
    quoted message between blanks. *)
Definition sampleSystem : System nat :=
  {| spawnInherit argv w :=
       (S w,
        if bool_decide (argv = bashLine (js "false")) then ChildClose (Some 1)
        else if bool_decide (argv = bashLine (js "kill -9 $$")) then ChildClose None
        else ChildClose (Some 0));
     execFileAsync argv w :=
       (S w,
        Resolved
          (if bool_decide (argv = [js "git"; js "rev-parse"; js "--is-inside-work-tree"])
           then js "true" ++ [LF]
           else if bool_decide (argv = [js "git"; js "diff"; js "--cached"])
           then js "+fix"
           else js " M readme.md" ++ [LF]));
     streamText system prompt w :=
       (w, Resolved (js "  " ++ [DQUOTE] ++ js "Fix bug" ++ [DQUOTE] ++ js "  ")) |}.

Definition sampleEnv : Env := {[ js "OPENAI_API_KEY" := js "sk-test" ]}.

Definition freshRun : Run nat := {| world := 0%nat; spawned := []; printed := [] |}.

Definition ciTask : OneFTaskConfig :=
  {| task_desc := None; task_silent := None;
     task_cmds := Some [js "echo a"; js "false"; js "echo b"] |}.

Definition emptyTask : OneFTaskConfig :=
  {| task_desc := Some (js "nothing"); task_silent := None; task_cmds := Some [] |}.

Definition ciConfig : OneFConfig :=
  {| app := None; secrets := None;
     tasks := Some [(js "ci", ciTask); (js "noop", emptyTask)] |}.

(** ** Secret validation *)






Lemma trim_nil : trim [] = [].
Proof. reflexivity. Qed.

Lemma lookupNonEmptyEnv_Some (env : Env) (key value : jsstring) :
  lookupNonEmptyEnv env key = Some value -> truthy value = true.
Proof.
  unfold lookupNonEmptyEnv. destruct (env !! key) as [raw|]; [|done].
  destruct (truthy raw); [|done].
  destruct (0 <? _) eqn:E; [|done]. intros [= <-].
  by rewrite truthy_length.
Qed.




Lemma forEach_consoleLog {World : Type} (ls : list jsstring) (r : Run World) :
  forEach consoleLog ls r
  = ({| world := world r; spawned := spawned r; printed := printed r ++ ls |},
     Resolved tt).
Proof.
  revert r. induction ls as [|l ls IH]; intros r; simpl.
  - unfold resolve. destruct r. simpl. by rewrite app_nil_r.
  - unfold andThen, consoleLog at 1. rewrite IH. simpl. by rewrite <- app_assoc.
Qed.

(** The run after [validateSecrets]'s lines were printed. *)
Definition afterLines {World : Type} (r : Run World) (ls : list jsstring)
  : Run World :=
  {| world := world r; spawned := spawned r; printed := printed r ++ ls |}.





(** ** Commit workflow *)

(** The steps of [prepareCommit] up to the staged diff: they return the
    API key and the diff. *)
Definition stagedDiff {World : Type} (sys : System World) (env : Env)
    (id : Identity) : Async World (jsstring * jsstring) :=
  ensureGitRepository sys ;;
  apiKey <- resolveOpenAIKey env id ;;
  runGitCommandStreaming sys [js "add"; js "."] ;;
  diff <- runGitCapture sys [js "diff"; js "--cached"] ;;
  if negb (truthy (trim diff))
  then reject (js "No staged changes to commit; stage files with git add")
  else resolve (apiKey, diff).

(** The step of [prepareCommit] that reads the status, empty when [git
    status] fails. *)
Definition shortStatus {World : Type} (sys : System World) : Async World jsstring :=
  tryCatch (runGitCapture sys [js "status"; js "--short"]) (fun _ => resolve []).

(** What happens to the text of the completion: the check of
    [generateCommitMessage], then the end of [prepareCommit]. *)
Definition afterCompletion {World : Type} (text : jsstring)
  : Async World CommitPayload :=
  let message := trim text in
  if negb (truthy message)
  then reject (js "Model returned an empty commit message")
  else formatCommitMessage message.

(** The user prompt built for a staged diff. *)
Definition commitPrompt (diff status : jsstring) : jsstring :=
  commitUserPrompt (truncateDiffForCommit diff).1 status
    (truncateDiffForCommit diff).2.

Definition promptHead : jsstring :=
  js "Write a git commit message for the staged changes." ++ [LF; LF]
    ++ js "Git diff:" ++ [LF].

(** The part of the prompt about [git status]. *)
Definition statusSection (status : jsstring) : jsstring :=
  if truthy (trim status)
  then [LF; LF] ++ js "Git status --short:" ++ [LF] ++ trim status
  else [].

Lemma commitUserPrompt_parts (diff status : jsstring) (truncated : bool) :
  commitUserPrompt diff status truncated
  = promptHead ++ diff ++ (if truncated then truncationNotice else [])
      ++ statusSection status.
Proof.
  unfold commitUserPrompt, statusSection. fold promptHead.
  destruct truncated, (truthy (trim status));
    by rewrite <- ?app_assoc, ?app_nil_r.
Qed.

(** [prepareCommit] once the diff is staged and the status read: the
    completion is asked with the prompt built from the diff. *)
Lemma prepareCommit_run {World : Type} (sys : System World) (env : Env)
    (id : Identity) (r r1 r2 : Run World) (apiKey diff status : jsstring) :
  stagedDiff sys env id r = (r1, Resolved (apiKey, diff)) ->
  shortStatus sys r1 = (r2, Resolved status) ->
  prepareCommit sys env id r
  = (text <- completionText sys commitSystemPrompt (commitPrompt diff status) ;;
     afterCompletion text) r2.
Proof.
  unfold stagedDiff, prepareCommit, andThen. intros Hstaged Hstatus.
  destruct (ensureGitRepository sys r) as [ra [[]|m]]; [|done].
  destruct (resolveOpenAIKey env id ra) as [rb [key|m]]; [|done].
  destruct (runGitCommandStreaming sys _ rb) as [rc [[]|m]]; [|done].
  destruct (runGitCapture sys _ rc) as [rd [d|m]]; [|done].
  destruct (negb (truthy (trim d))); [done|].
  injection Hstaged as -> -> ->.
  unfold commitPrompt. destruct (truncateDiffForCommit diff) as [td t].
  fold (shortStatus sys). rewrite Hstatus.
  unfold generateCommitMessage, afterCompletion, andThen. simpl.
  destruct (completionText sys _ _ r2) as [r3 [text|m]]; [|done].
  by destruct (negb (truthy (trim text))).
Qed.

(** What a completion leaves of a run: only the world changes. *)
Definition afterStream {World : Type} (r : Run World) (w : World) : Run World :=
  {| world := w; spawned := spawned r; printed := printed r |}.

(** C4. A diff of at most 12000 characters is returned unchanged with the
    flag [truncated] false.  A longer diff, from 12001 characters on, is
    cut: what is returned is its first 12000 characters, a prefix of the
    diff, followed by the truncation marker, with the flag true.  The
    prompt [prepareCommit] sends to the model, the second argument of
    [streamText], is the introduction, the possibly cut diff, the notice
    [[Diff truncated to fit within prompt]] exactly when the flag is true,
    and the status section. *)
Theorem C4_diff_truncation {World : Type} (sys : System World) (env : Env)
    (id : Identity) (diff : jsstring) :
  let marker := [LF; LF] ++ js "[Diff truncated to the first 12000 characters]" in
  let notice := [LF; LF] ++ js "[Diff truncated to fit within prompt]" in
  let intro :=
    js "Write a git commit message for the staged changes." ++ [LF; LF]
      ++ js "Git diff:" ++ [LF] in
  let about status :=
    if truthy (trim status)
    then [LF; LF] ++ js "Git status --short:" ++ [LF] ++ trim status
    else [] in
  (Z.of_nat (length diff) <= 12000 ->
   truncateDiffForCommit diff = (diff, false))
  /\ (12000 < Z.of_nat (length diff) ->
      exists kept dropped,
        diff = kept ++ dropped
        /\ Z.of_nat (length kept) = 12000
        /\ truncateDiffForCommit diff = (kept ++ marker, true))
  /\ (forall r r1 r2 apiKey status,
        stagedDiff sys env id r = (r1, Resolved (apiKey, diff)) ->
        shortStatus sys r1 = (r2, Resolved status) ->
        let prompt :=
          intro ++ (truncateDiffForCommit diff).1
            ++ (if (truncateDiffForCommit diff).2 then notice else [])
            ++ about status in
        prepareCommit sys env id r
        = match streamText sys commitSystemPrompt prompt (world r2) with
          | (w, Resolved text) => afterCompletion text (afterStream r2 w)
          | (w, Rejected failure) => (afterStream r2 w, Rejected failure)
          end).
Proof.
  cbv zeta. split; [|split].
  - intros Hlen. unfold truncateDiffForCommit.
    by rewrite (proj2 (Z.leb_le _ _)).
  - intros Hlen.
    exists (sliceTo 12000 diff), (drop (Z.to_nat 12000) diff).
    split; [unfold sliceTo; by rewrite take_drop|]. split.
    + unfold sliceTo. rewrite length_take. lia.
    + unfold truncateDiffForCommit.
      by rewrite (proj2 (Z.leb_gt _ _)) by done.
  - intros r r1 r2 apiKey status Hstaged Hstatus.
    rewrite (prepareCommit_run sys env id r r1 r2 apiKey diff status)
      by done.
    unfold andThen, completionText, commitPrompt.
    rewrite commitUserPrompt_parts.
    unfold promptHead, truncationNotice, statusSection, afterStream.
    rewrite <- !app_assoc.
    by destruct (streamText sys _ _ (world r2)) as [w [text|failure]].
Qed.

(** The sample run once the diff is staged, and once the status is read. *)
Definition stagedRun : Run nat :=
  {| world := 3%nat;
     spawned := [[js "git"; js "rev-parse"; js "--is-inside-work-tree"];
                 [js "git"; js "add"; js "."];
                 [js "git"; js "diff"; js "--cached"]];
     printed := [] |}.

Definition statusRun : Run nat :=
  {| world := 4%nat;
     spawned := spawned stagedRun ++ [[js "git"; js "status"; js "--short"]];
     printed := [] |}.

Lemma C4_diff_truncation_witness :
  truncateDiffForCommit (js "+fix") = (js "+fix", false)
  /\ (exists kept dropped,
        sampleDiff = kept ++ dropped
        /\ Z.of_nat (length kept) = 12000
        /\ truncateDiffForCommit sampleDiff
           = (kept ++ [LF; LF]
                ++ js "[Diff truncated to the first 12000 characters]", true))
  /\ prepareCommit sampleSystem sampleEnv initialIdentity freshRun
     = afterCompletion (js "  " ++ [DQUOTE] ++ js "Fix bug" ++ [DQUOTE] ++ js "  ")
         statusRun.
Proof.
  destruct (C4_diff_truncation sampleSystem sampleEnv initialIdentity (js "+fix"))
    as (Hshort & _ & Hprompt).
  destruct (C4_diff_truncation sampleSystem sampleEnv initialIdentity sampleDiff)
    as (_ & Hlong & _).
  split; [|split].
  - apply Hshort. vm_compute. discriminate.
  - apply Hlong. vm_compute. reflexivity.
  - rewrite (Hprompt freshRun stagedRun statusRun (js "sk-test")
               (js " M readme.md" ++ [LF])); reflexivity.
Defined.

(** ** Commit message formatting *)

Lemma dropWhile_app {A} (p : A -> bool) (l1 l2 : list A) :
  dropWhile p (l1 ++ l2)
  = match dropWhile p l1 with
    | [] => dropWhile p l2
    | x :: r => (x :: r) ++ l2
    end.
Proof.
  induction l1 as [|a l1 IH]; simpl; [by destruct (dropWhile p l2)|].
  destruct (p a); [apply IH | done].
Qed.

Lemma dropWhile_all {A} (p : A -> bool) (l : list A) :
  forallb p l = true -> dropWhile p l = [].
Proof.
  induction l as [|a l IH]; simpl; [done|].
  intros [Ha Hl]%andb_true_iff. rewrite Ha. by apply IH.
Qed.

Lemma dropWhile_idempotent {A} (p : A -> bool) (l : list A) :
  dropWhile p (dropWhile p l) = dropWhile p l.
Proof.
  induction l as [|a l IH]; simpl; [done|].
  destruct (p a) eqn:E; [done|]. simpl. by rewrite E.
Qed.

Lemma dropWhileEnd_idempotent {A} (p : A -> bool) (l : list A) :
  dropWhileEnd p (dropWhileEnd p l) = dropWhileEnd p l.
Proof.
  unfold dropWhileEnd. by rewrite rev_involutive, dropWhile_idempotent.
Qed.

Lemma dropWhileEnd_cons {A} (p : A -> bool) (x : A) (l : list A) :
  p x = false -> dropWhileEnd p (x :: l) = x :: dropWhileEnd p l.
Proof.
  intros Hx. unfold dropWhileEnd. simpl. rewrite dropWhile_app.
  destruct (dropWhile p (rev l)) as [|y r]; simpl.
  - by rewrite Hx.
  - by rewrite rev_app_distr.
Qed.

Lemma dropWhileEnd_all {A} (p : A -> bool) (l : list A) :
  forallb p l = true -> dropWhileEnd p l = [].
Proof.
  intros H. unfold dropWhileEnd. rewrite dropWhile_all; [done|].
  apply forallb_forall. intros x Hx. apply in_rev in Hx.
  by apply (proj1 (forallb_forall p l) H).
Qed.

Lemma dropWhile_head {A} (p : A -> bool) (l : list A) (x : A) :
  head (dropWhile p l) = Some x -> p x = false.
Proof.
  induction l as [|a l IH]; simpl; [done|].
  destruct (p a) eqn:E; [done|]. simpl. by intros [= <-].
Qed.

(** What is left after [dropWhileEnd] does not end with an element that
    satisfies the test. *)
Lemma dropWhileEnd_last {A} (p : A -> bool) (l : list A) (x : A) :
  last (dropWhileEnd p l) = Some x -> p x = false.
Proof.
  unfold dropWhileEnd. intros Hlast. apply (dropWhile_head p (rev l)).
  destruct (dropWhile p (rev l)) as [|a r]; [done|].
  simpl in Hlast. by rewrite last_snoc in Hlast.
Qed.

Lemma trim_idempotent (s : jsstring) : trim (trim s) = trim s.
Proof.
  unfold trim, trimStart, trimEnd.
  destruct (dropWhile isWhiteSpace s) as [|x l] eqn:E; [reflexivity|].
  assert (Hx : isWhiteSpace x = false).
  { apply (dropWhile_head isWhiteSpace s). by rewrite E. }
  rewrite (dropWhileEnd_cons _ x l Hx). cbn [dropWhile]. rewrite Hx.
  rewrite (dropWhileEnd_cons _ x _ Hx). f_equal.
  apply dropWhileEnd_idempotent.
Qed.

Lemma trim_all_whitespace (s : jsstring) :
  forallb isWhiteSpace s = true -> trim s = [].
Proof.
  intros H. unfold trim, trimStart. by rewrite dropWhile_all.
Qed.

(** A line that [splitCommitMessageParagraphs] treats as a separator. *)
Definition isBlankLine (line : jsstring) : bool := negb (truthy (trim line)).

(** The lines between blank lines: the list is cut at every blank line, as
    [split] cuts a string at every separator. *)
Fixpoint segments (lines : list jsstring) : list (list jsstring) :=
  match lines with
  | [] => [[]]
  | line :: rest =>
      if isBlankLine line then [] :: segments rest
      else match segments rest with
           | s :: ss => (line :: s) :: ss
           | [] => [[line]]
           end
  end.

Definition nonEmpty {A : Type} (l : list A) : bool :=
  match l with [] => false | _ => true end.

(** The runs of consecutive non-blank lines, in order. *)
Definition blocks (lines : list jsstring) : list (list jsstring) :=
  List.filter nonEmpty (segments lines).

(** The paragraph made of the lines of one block. *)
Definition blockParagraph (block : list jsstring) : jsstring :=
  paragraphOf (stripTrailingBlanks <$> block).

(** [pending] continued by the first segment. *)
Definition glue (pending : list jsstring) (segs : list (list jsstring))
  : list (list jsstring) :=
  match segs with
  | s :: ss => (pending ++ s) :: ss
  | [] => [pending]
  end.

(** The end of [splitCommitMessageParagraphs], after its loop. *)
Definition flushParagraph (st : list jsstring * list jsstring) : list jsstring :=
  if (0 <? Z.of_nat (length st.2))
  then st.1 ++ [paragraphOf st.2]
  else st.1.

Lemma segments_not_nil (lines : list jsstring) : segments lines <> [].
Proof.
  destruct lines as [|line rest]; simpl; [done|].
  destruct (isBlankLine line); [done|]. by destruct (segments rest).
Qed.

Lemma nonEmpty_length {A : Type} (l : list A) :
  (0 <? Z.of_nat (length l)) = nonEmpty l.
Proof. destruct l; simpl; [done|]. apply Z.ltb_lt. lia. Qed.

Lemma paragraphStep_blank (paragraphs current : list jsstring) (line : jsstring) :
  isBlankLine line = true ->
  paragraphStep (paragraphs, current) line
  = if nonEmpty current then (paragraphs ++ [paragraphOf current], [])
    else (paragraphs, current).
Proof.
  unfold isBlankLine, paragraphStep. intros ->. by rewrite nonEmpty_length.
Qed.

Lemma paragraphStep_line (paragraphs current : list jsstring) (line : jsstring) :
  isBlankLine line = false ->
  paragraphStep (paragraphs, current) line
  = (paragraphs, current ++ [stripTrailingBlanks line]).
Proof. unfold isBlankLine, paragraphStep. by intros ->. Qed.

Lemma paragraph_loop (lines pending paragraphs : list jsstring) :
  flushParagraph
    (fold_left paragraphStep lines (paragraphs, stripTrailingBlanks <$> pending))
  = paragraphs ++ (blockParagraph <$> List.filter nonEmpty (glue pending (segments lines))).
Proof.
  revert pending paragraphs.
  induction lines as [|line rest IH]; intros pending paragraphs.
  - unfold flushParagraph. simpl. rewrite app_nil_r, length_fmap, nonEmpty_length.
    destruct pending; simpl; [by rewrite app_nil_r | done].
  - pose proof (segments_not_nil rest) as Hne.
    assert (IH0 : forall ps,
              flushParagraph (fold_left paragraphStep rest (ps, []))
              = ps ++ (blockParagraph <$> List.filter nonEmpty (segments rest))).
    { intros ps. etransitivity; [exact (IH [] ps)|].
      by destruct (segments rest). }
    cbn [fold_left segments].
    destruct (isBlankLine line) eqn:Hblank.
    + rewrite paragraphStep_blank by done. cbn [glue]. rewrite app_nil_r.
      destruct pending as [|p pending].
      * change (nonEmpty (stripTrailingBlanks <$> [])) with false. cbv iota.
        change (stripTrailingBlanks <$> []) with (@nil jsstring).
        by rewrite IH0.
      * change (nonEmpty (stripTrailingBlanks <$> p :: pending)) with true.
        cbv iota. rewrite IH0, <- app_assoc. reflexivity.
    + rewrite paragraphStep_line by done.
      replace ((stripTrailingBlanks <$> pending) ++ [stripTrailingBlanks line])
        with (stripTrailingBlanks <$> (pending ++ [line]))
        by (by rewrite fmap_app).
      rewrite IH.
      destruct (segments rest) as [|s ss]; [done|].
      cbn [glue]. by rewrite <- app_assoc.
Qed.

(** The loop of [splitCommitMessageParagraphs] computes the paragraphs of
    the blocks of non-blank lines. *)
Lemma splitCommitMessageParagraphs_blocks (message : jsstring) :
  splitCommitMessageParagraphs message
  = blockParagraph <$> blocks (splitLines message).
Proof.
  unfold splitCommitMessageParagraphs, blocks.
  pose proof (paragraph_loop (splitLines message) [] []) as H.
  unfold flushParagraph in H. simpl in H.
  destruct (fold_left paragraphStep (splitLines message) ([], [])) as [ps cur].
  simpl in H. rewrite H.
  pose proof (segments_not_nil (splitLines message)) as Hne.
  by destruct (segments (splitLines message)).
Qed.

(** A code unit that is no part of a line break. *)
Definition notBreak (c : N) : bool := negb ((c =? LF)%N || (c =? CR)%N).

Lemma splitLinesFrom_cons (cur rest : jsstring) (c : N) :
  (c =? LF)%N = false -> (c =? CR)%N = false ->
  splitLinesFrom cur (c :: rest) = splitLinesFrom (cur ++ [c]) rest.
Proof. intros Hlf Hcr. simpl. rewrite Hlf, Hcr. by destruct rest. Qed.

Lemma splitLinesFrom_line (pre cur rest : jsstring) :
  forallb notBreak pre = true ->
  splitLinesFrom cur (pre ++ LF :: rest) = (cur ++ pre) :: splitLinesFrom [] rest.
Proof.
  revert cur. induction pre as [|c pre IH]; intros cur Hpre.
  - simpl. by rewrite app_nil_r.
  - simpl in Hpre. apply andb_true_iff in Hpre as [Hc Hpre].
    unfold notBreak in Hc. apply negb_true_iff, orb_false_iff in Hc as [Hlf Hcr].
    rewrite <- app_comm_cons, splitLinesFrom_cons by done.
    rewrite IH by done. by rewrite <- app_assoc.
Qed.

Lemma splitLinesFrom_last (pre cur : jsstring) :
  forallb notBreak pre = true -> splitLinesFrom cur pre = [cur ++ pre].
Proof.
  revert cur. induction pre as [|c pre IH]; intros cur Hpre.
  - simpl. by rewrite app_nil_r.
  - simpl in Hpre. apply andb_true_iff in Hpre as [Hc Hpre].
    unfold notBreak in Hc. apply negb_true_iff, orb_false_iff in Hc as [Hlf Hcr].
    rewrite splitLinesFrom_cons by done.
    rewrite IH by done. by rewrite <- app_assoc.
Qed.

(** Splitting undoes joining with line feeds when no line holds a line
    break. *)
Lemma splitLines_join (ls : list jsstring) :
  ls <> [] -> forallb (forallb notBreak) ls = true ->
  splitLines (join [LF] ls) = ls.
Proof.
  unfold splitLines. induction ls as [|l ls IH]; [done|]. intros _ Hls.
  simpl in Hls. apply andb_true_iff in Hls as [Hl Hls].
  destruct ls as [|l' ls].
  - simpl. by rewrite splitLinesFrom_last.
  - change (join [LF] (l :: l' :: ls)) with (l ++ LF :: join [LF] (l' :: ls)).
    rewrite splitLinesFrom_line by done. simpl app. f_equal. by apply IH.
Qed.

Lemma segments_nonblank (ls : list jsstring) :
  forallb (fun l => negb (isBlankLine l)) ls = true -> segments ls = [ls].
Proof.
  induction ls as [|l ls IH]; [done|]. simpl.
  intros [Hl Hls]%andb_true_iff. apply negb_true_iff in Hl.
  by rewrite Hl, IH.
Qed.

Lemma segments_app_blank (ls rest : list jsstring) (sep : jsstring) :
  forallb (fun l => negb (isBlankLine l)) ls = true ->
  isBlankLine sep = true ->
  segments (ls ++ sep :: rest) = ls :: segments rest.
Proof.
  intros Hls Hsep. induction ls as [|l ls IH]; simpl.
  - by rewrite Hsep.
  - simpl in Hls. apply andb_true_iff in Hls as [Hl Hls].
    apply negb_true_iff in Hl. by rewrite Hl, IH.
Qed.

(** Every block is a non-empty run of non-blank lines, and the blocks hold
    the non-blank lines in their order. *)
Lemma blocks_nonblank (lines : list jsstring) :
  Forall (fun b => b <> [] /\ forallb (fun l => negb (isBlankLine l)) b = true)
         (blocks lines)
  /\ concat (blocks lines) = List.filter (fun l => negb (isBlankLine l)) lines.
Proof.
  unfold blocks.
  assert (H : Forall (fun b => forallb (fun l => negb (isBlankLine l)) b = true)
                (segments lines)
              /\ concat (segments lines)
                 = List.filter (fun l => negb (isBlankLine l)) lines).
  { induction lines as [|l ls [IH1 IH2]]; simpl.
    - split; [by repeat constructor | done].
    - destruct (isBlankLine l) eqn:E; simpl.
      + split; [by constructor | done].
      + pose proof (segments_not_nil ls) as Hne.
        destruct (segments ls) as [|s ss]; [done|].
        apply Forall_cons in IH1 as [Hs Hss]. simpl in IH2. split.
        * constructor; [|done]. simpl. by rewrite E.
        * simpl. by rewrite IH2. }
  destruct H as [H1 H2]. split.
  - clear H2. induction (segments lines) as [|s ss IH]; simpl; [constructor|].
    apply Forall_cons in H1 as [Hs Hss].
    destruct s as [|x s]; simpl; [by apply IH|].
    constructor; [split; [done | exact Hs] | by apply IH].
  - rewrite <- H2. clear. induction (segments lines) as [|s ss IH]; [done|].
    simpl. destruct s; simpl; [done|]. by rewrite IH.
Qed.

Lemma dropWhile_keeps {A : Type} (p : A -> bool) (l : list A) (x : A) :
  x ∈ l -> p x = false -> x ∈ dropWhile p l.
Proof.
  induction l as [|a l IH]; simpl; intros Hin Hx; [done|].
  destruct (p a) eqn:E; [|done].
  apply elem_of_cons in Hin as [->|Hin]; [congruence | by apply IH].
Qed.

Lemma dropWhile_subset {A : Type} (p : A -> bool) (l : list A) (x : A) :
  x ∈ dropWhile p l -> x ∈ l.
Proof.
  induction l as [|a l IH]; simpl; [done|].
  destruct (p a); [|done]. intros H. apply list_elem_of_further. by apply IH.
Qed.

Lemma dropWhileEnd_keeps {A : Type} (p : A -> bool) (l : list A) (x : A) :
  x ∈ l -> p x = false -> x ∈ dropWhileEnd p l.
Proof.
  intros Hin Hx. unfold dropWhileEnd.
  apply list_elem_of_In, (proj1 (in_rev _ _)), list_elem_of_In.
  apply dropWhile_keeps; [|done].
  by apply list_elem_of_In, (proj1 (in_rev _ _)), list_elem_of_In.
Qed.

Lemma join_keeps (sep l : jsstring) (ls : list jsstring) (c : N) :
  c ∈ l -> l ∈ ls -> c ∈ join sep ls.
Proof.
  intros Hc. induction ls as [|l' ls IH]; intros Hl; [by apply elem_of_nil in Hl|].
  apply elem_of_cons in Hl as [<-|Hl].
  - destruct ls; simpl; [done|]. apply elem_of_app. by left.
  - destruct ls as [|l'' ls]; [by apply elem_of_nil in Hl|].
    change (join sep (l' :: l'' :: ls)) with (l' ++ sep ++ join sep (l'' :: ls)).
    apply elem_of_app. right. apply elem_of_app. right. by apply IH.
Qed.

Lemma isBlankChar_isWhiteSpace (c : N) :
  isBlankChar c = true -> isWhiteSpace c = true.
Proof.
  unfold isBlankChar. intros [H|H]%orb_true_iff; apply N.eqb_eq in H; by subst.
Qed.

(** A line that is not blank holds a code unit that is no white space. *)
Lemma nonblank_has_ink (line : jsstring) :
  isBlankLine line = false -> exists c, c ∈ line /\ isWhiteSpace c = false.
Proof.
  unfold isBlankLine, trim, trimStart, trimEnd. intros H.
  apply negb_false_iff in H.
  destruct (dropWhile isWhiteSpace line) as [|c r] eqn:E; [done|].
  exists c. split.
  - apply (dropWhile_subset isWhiteSpace). rewrite E. apply list_elem_of_here.
  - apply (dropWhile_head isWhiteSpace line). by rewrite E.
Qed.

(** X1. [splitCommitMessageParagraphs] returns one paragraph per run of
    consecutive non-blank lines of the message, in order: the lines of the
    run with their trailing tabs and spaces removed, joined by line feeds,
    and the trailing white space of the result removed.  The runs hold all
    the non-blank lines and only them. *)
Theorem splitCommitMessageParagraphs_runs (message : jsstring) :
  splitCommitMessageParagraphs message
  = (fun block => trimEnd (join [LF] (stripTrailingBlanks <$> block)))
      <$> blocks (splitLines message)
  /\ concat (blocks (splitLines message))
     = List.filter (fun l => negb (isBlankLine l)) (splitLines message)
  /\ Forall (fun b => b <> [] /\ forallb (fun l => negb (isBlankLine l)) b = true)
       (blocks (splitLines message))
  /\ length (splitCommitMessageParagraphs message)
     = length (blocks (splitLines message)).
Proof.
  destruct (blocks_nonblank (splitLines message)) as [Hall Hconcat].
  split; [apply splitCommitMessageParagraphs_blocks|].
  split; [done|]. split; [done|].
  by rewrite splitCommitMessageParagraphs_blocks, length_fmap.
Qed.

(** The paragraph of a block that starts with a non-blank line holds a
    code unit that is no white space. *)
Lemma blockParagraph_ink (l : jsstring) (b : list jsstring) :
  isBlankLine l = false ->
  exists c, c ∈ blockParagraph (l :: b) /\ isWhiteSpace c = false.
Proof.
  intros Hl. destruct (nonblank_has_ink l Hl) as (c & Hc & Hink).
  exists c. split; [|done].
  unfold blockParagraph, paragraphOf, trimEnd.
  apply dropWhileEnd_keeps; [|done].
  apply (join_keeps _ (stripTrailingBlanks l)); [|apply list_elem_of_here].
  apply dropWhileEnd_keeps; [done|].
  destruct (isBlankChar c) eqn:E; [|done].
  apply isBlankChar_isWhiteSpace in E. congruence.
Qed.

Lemma paragraph_ink (text p : jsstring) :
  p ∈ splitCommitMessageParagraphs text ->
  exists c, c ∈ p /\ isWhiteSpace c = false.
Proof.
  rewrite splitCommitMessageParagraphs_blocks. intros Hp.
  apply list_elem_of_fmap in Hp as (b & -> & Hb).
  destruct (blocks_nonblank (splitLines text)) as [Hall _].
  rewrite Forall_forall in Hall. destruct (Hall b Hb) as [Hne Hlines].
  destruct b as [|l b]; [done|]. simpl in Hlines.
  apply andb_true_iff in Hlines as [Hl _]. apply negb_true_iff in Hl.
  by apply blockParagraph_ink.
Qed.

(** X2. No paragraph of [splitCommitMessageParagraphs] is empty or blank:
    each holds a code unit that is no white space, and none ends with
    white space, so [git commit] never receives an empty [-m] argument. *)
Theorem paragraphs_never_blank (text p : jsstring) :
  p ∈ splitCommitMessageParagraphs text ->
  (exists c, c ∈ p /\ isWhiteSpace c = false)
  /\ (forall c, last p = Some c -> isWhiteSpace c = false)
  /\ p <> [].
Proof.
  intros Hp.
  assert (Hshape : exists b, p = trimEnd (join [LF] (stripTrailingBlanks <$> b))
                             /\ b ∈ blocks (splitLines text)).
  { rewrite splitCommitMessageParagraphs_blocks in Hp.
    apply list_elem_of_fmap in Hp as (b & -> & Hb). by exists b. }
  destruct Hshape as (b & Hshape & Hb).
  destruct (blocks_nonblank (splitLines text)) as [Hall _].
  rewrite Forall_forall in Hall. destruct (Hall b Hb) as [Hne Hlines].
  destruct b as [|l b]; [done|]. simpl in Hlines.
  apply andb_true_iff in Hlines as [Hl _]. apply negb_true_iff in Hl.
  destruct (blockParagraph_ink l b Hl) as (c & Hc & Hink).
  fold (paragraphOf (stripTrailingBlanks <$> l :: b)) in Hshape.
  fold (blockParagraph (l :: b)) in Hshape. rewrite <- Hshape in Hc.
  split; [by exists c|]. split.
  - intros c' Hlast. rewrite Hshape in Hlast.
    by apply (dropWhileEnd_last isWhiteSpace) in Hlast.
  - intros Hnil. rewrite Hnil in Hc. by apply elem_of_nil in Hc.
Qed.

Lemma paragraphs_never_blank_witness :
  exists c, c ∈ js "Fix bug" /\ isWhiteSpace c = false.
Proof.
  destruct (paragraphs_never_blank (js "  Fix bug  ") (js "  Fix bug")) as [H _].
  - apply list_elem_of_here.
  - destruct H as (c & Hc & Hink). exists c. split; [|exact Hink].
    apply elem_of_cons in Hc as [->|Hc]; [discriminate Hink|].
    apply elem_of_cons in Hc as [->|Hc]; [discriminate Hink|].
    exact Hc.
Defined.

(** ** What the commit workflow starts *)

Lemma capture_spawned {World : Type} (sys : System World) (argv : list jsstring)
    (r r' : Run World) (res : Result jsstring) :
  capture sys argv r = (r', res) ->
  spawned r' = spawned r ++ [argv] /\ printed r' = printed r.
Proof.
  unfold capture. destruct (execFileAsync sys argv (world r)) as [w out].
  by intros [= <- <-].
Qed.

Lemma runCommandStreaming_spawned {World : Type} (sys : System World)
    (command : jsstring) (args : list jsstring) (r r' : Run World)
    (res : Result unit) :
  runCommandStreaming sys command args r = (r', res) ->
  spawned r' = spawned r ++ [command :: args] /\ printed r' = printed r.
Proof.
  unfold runCommandStreaming, andThen, spawnChild.
  destruct (spawnInherit sys (command :: args) (world r)) as [w [m|code]].
  - by intros [= <- <-].
  - case_bool_decide; by intros [= <- <-].
Qed.

Lemma ensureGitRepository_spawned {World : Type} (sys : System World)
    (r r' : Run World) (res : Result unit) :
  ensureGitRepository sys r = (r', res) ->
  spawned r' = spawned r ++ [[js "git"; js "rev-parse"; js "--is-inside-work-tree"]]
  /\ printed r' = printed r.
Proof.
  unfold ensureGitRepository, andThen.
  destruct (capture sys _ r) as [r1 [out|m]] eqn:E;
    apply capture_spawned in E.
  - destruct (negb _); by intros [= <- <-].
  - by intros [= <- <-].
Qed.

Lemma resolveOpenAIKey_run {World : Type} (env : Env) (id : Identity)
    (r r' : Run World) (res : Result jsstring) :
  resolveOpenAIKey env id r = (r', res) ->
  r' = r /\ (forall key, res = Resolved key ->
               lookupNonEmptyEnv env OPENAI_API_KEY_ENV = Some key).
Proof.
  unfold resolveOpenAIKey.
  destruct (lookupNonEmptyEnv env OPENAI_API_KEY_ENV) as [value|].
  - destruct (truthy value); intros [= <- <-]; split; try done.
    by intros key [= <-].
  - by intros [= <- <-].
Qed.

Lemma completionText_spawned {World : Type} (sys : System World)
    (system prompt : jsstring) (r r' : Run World) (res : Result jsstring) :
  completionText sys system prompt r = (r', res) ->
  spawned r' = spawned r /\ printed r' = printed r.
Proof.
  unfold completionText. destruct (streamText sys system prompt (world r)).
  by intros [= <- <-].
Qed.

Lemma formatCommitMessage_run {World : Type} (text : jsstring)
    (r r' : Run World) (res : Result CommitPayload) :
  formatCommitMessage text r = (r', res) ->
  r' = r
  /\ (forall payload, res = Resolved payload ->
        message payload = trimMatchingQuotes (trim text)
        /\ paragraphs payload = splitCommitMessageParagraphs (message payload)
        /\ paragraphs payload <> []).
Proof.
  unfold formatCommitMessage.
  destruct (negb (truthy (trimMatchingQuotes (trim text))));
    [by intros [= <- <-]|].
  destruct (splitCommitMessageParagraphs _) as [|p ps] eqn:E;
    [by intros [= <- <-]|].
  simpl. intros [= <- <-]. split; [done|].
  intros payload [= <-]. simpl. by rewrite E.
Qed.

(** The commands [prepareCommit] starts, in order. *)
Definition prepareCommands : list (list jsstring) :=
  [[js "git"; js "rev-parse"; js "--is-inside-work-tree"];
   [js "git"; js "add"; js "."];
   [js "git"; js "diff"; js "--cached"];
   [js "git"; js "status"; js "--short"]].

(** The goal of [prepareCommit_spawned] when the run stopped with a
    rejection after [n] commands. *)
Ltac stopped_after n :=
  intros [= <- <-]; exists (take n prepareCommands);
  split; [done|]; split; [done|]; split; [by eexists | done].

Lemma prepareCommit_spawned {World : Type} (sys : System World) (env : Env)
    (id : Identity) (r r' : Run World) (res : Result CommitPayload) :
  prepareCommit sys env id r = (r', res) ->
  exists L,
    spawned r' = spawned r ++ L
    /\ printed r' = printed r
    /\ L `prefix_of` prepareCommands
    /\ (forall payload, res = Resolved payload ->
          L = prepareCommands
          /\ paragraphs payload = splitCommitMessageParagraphs (message payload)
          /\ paragraphs payload <> []).
Proof.
  unfold prepareCommit, andThen, runGitCommandStreaming, runGitCapture.
  destruct (ensureGitRepository sys r) as [r1 res1] eqn:E1.
  apply ensureGitRepository_spawned in E1 as [S1 P1].
  change (spawned r1 = spawned r ++ take 1 prepareCommands) in S1.
  destruct res1 as [[]|m]; [|stopped_after 1%nat].
  destruct (resolveOpenAIKey env id r1) as [r2 res2] eqn:E2.
  apply resolveOpenAIKey_run in E2 as [-> _].
  destruct res2 as [apiKey|m]; [|stopped_after 1%nat].
  destruct (runCommandStreaming sys (js "git") [js "add"; js "."] r1)
    as [r3 res3] eqn:E3.
  apply runCommandStreaming_spawned in E3 as [S3 P3].
  rewrite S1, <- app_assoc in S3. rewrite P1 in P3.
  change (spawned r3 = spawned r ++ take 2 prepareCommands) in S3.
  destruct res3 as [[]|m]; [|stopped_after 2%nat].
  destruct (capture sys (js "git" :: [js "diff"; js "--cached"]) r3)
    as [r4 res4] eqn:E4.
  apply capture_spawned in E4 as [S4 P4].
  rewrite S3, <- app_assoc in S4. rewrite P3 in P4.
  change (spawned r4 = spawned r ++ take 3 prepareCommands) in S4.
  destruct res4 as [diff|m]; [|stopped_after 3%nat].
  destruct (negb (truthy (trim diff))); [stopped_after 3%nat|].
  destruct (truncateDiffForCommit diff) as [truncatedDiff truncated].
  unfold andThen, tryCatch.
  destruct (capture sys [js "git"; js "status"; js "--short"] r4)
    as [r5 res5] eqn:E5.
  apply capture_spawned in E5 as [S5 P5].
  rewrite S4, <- app_assoc in S5. rewrite P4 in P5.
  change (spawned r5 = spawned r ++ take 4 prepareCommands) in S5.
  assert (Hstep : forall status r5',
            spawned r5' = spawned r ++ take 4 prepareCommands ->
            printed r5' = printed r ->
            (match generateCommitMessage sys apiKey truncatedDiff status truncated r5' with
             | (ra, Resolved a) => formatCommitMessage a ra
             | (ra, Rejected m) => (ra, Rejected m)
             end) = (r', res) ->
            exists L, spawned r' = spawned r ++ L
              /\ printed r' = printed r
              /\ L `prefix_of` prepareCommands
              /\ (forall payload, res = Resolved payload ->
                    L = prepareCommands
                    /\ paragraphs payload
                       = splitCommitMessageParagraphs (message payload)
                    /\ paragraphs payload <> [])).
  { intros status r5' S P. unfold generateCommitMessage, andThen.
    destruct (completionText sys _ _ r5') as [r6 res6] eqn:E6.
    apply completionText_spawned in E6 as [S6 P6].
    rewrite S in S6. rewrite P in P6.
    destruct res6 as [text|m]; [|stopped_after 4%nat].
    destruct (negb (truthy (trim text))); [stopped_after 4%nat|].
    unfold resolve. intros Hf.
    apply formatCommitMessage_run in Hf as [-> Hp].
    exists (take 4 prepareCommands).
    split; [done|]. split; [done|]. split; [by eexists|].
    intros payload Hres. destruct (Hp payload Hres) as (_ & ? & ?). done. }
  destruct res5 as [status|m].
  - by apply Hstep.
  - unfold resolve. by apply Hstep.
Qed.

Lemma consoleLog_spawned {World : Type} (line : jsstring) (r : Run World) :
  spawned (consoleLog line r).1 = spawned r /\ (consoleLog line r).2 = Resolved tt.
Proof. done. Qed.

(** A paragraph with a code unit that is no white space. *)
Definition hasInk (p : jsstring) : Prop :=
  exists c, c ∈ p /\ isWhiteSpace c = false.

(** The error of [runCommandStreaming] for a child that did not exit with
    code 0. *)
Definition streamingFailure (command : jsstring) (args : list jsstring)
    (out : ChildOutcome) : jsstring :=
  match out with
  | ChildError failure => failure
  | ChildClose code =>
      command ++ js " " ++ join (js " ") args ++ js " exited with code "
        ++ match code with
           | Some c => Number_toString c
           | None => js "null"
           end
  end.

#[global] Instance ChildOutcome_eq_dec : EqDecision ChildOutcome.
Proof. solve_decision. Defined.

Lemma runCommandStreaming_run {World : Type} (sys : System World)
    (command : jsstring) (args : list jsstring) (r : Run World) (w : World)
    (out : ChildOutcome) :
  spawnInherit sys (command :: args) (world r) = (w, out) ->
  runCommandStreaming sys command args r
  = ({| world := w; spawned := spawned r ++ [command :: args];
        printed := printed r |},
     if bool_decide (out = ChildClose (Some 0)) then Resolved tt
     else Rejected (streamingFailure command args out)).
Proof.
  intros Hchild. unfold runCommandStreaming, andThen, spawnChild.
  rewrite Hchild. destruct out as [failure|code]; [done|].
  destruct (decide (code = Some 0)) as [->|Hcode]; [done|].
  rewrite bool_decide_eq_false_2 by done.
  rewrite bool_decide_eq_false_2 by congruence. done.
Qed.

(** X3. The commit workflow starts its commands in one fixed order and nothing
    else: the four commands of [prepareCommit], then [git commit] with one
    [-m] per paragraph, then [git push].  When [prepareCommit] fails the
    workflow fails with the same error in the same run, having started only
    a prefix of the four commands, so neither [git commit] nor [git push].
    [git commit] is started only with a non-empty list of paragraphs, none
    of them blank.  When the child of [git commit] does not exit with code
    0 the workflow fails with its error and [git push] is not started;
    [git push] is started exactly when it exits with code 0, and the
    workflow succeeds exactly when [git push] does too.  A label other than
    [commit] and [commitPush] fails before anything is started. *)
Theorem commit_workflow_commands {World : Type} (sys : System World) (env : Env)
    (id : Identity) (label : jsstring) (r : Run World) :
  let out := runCommitPushWorkflow sys env id label r in
  (label <> js "commit" -> label <> js "commitPush" ->
   out = (r, Rejected (js "Unsupported commit workflow: " ++ label)))
  /\ (label = js "commit" \/ label = js "commitPush" ->
      forall r1 res,
        prepareCommit sys env id r = (r1, res) ->
        exists L,
          spawned r1 = spawned r ++ L
          /\ L `prefix_of` prepareCommands
          /\ match res with
             | Rejected failure => out = (r1, Rejected failure)
             | Resolved payload =>
                 let commit := js "git" :: commitArgs payload in
                 let push := [js "git"; js "push"] in
                 L = prepareCommands
                 /\ paragraphs payload <> []
                 /\ Forall hasInk (paragraphs payload)
                 /\ forall w2 committed,
                      spawnInherit sys commit (world r1) = (w2, committed) ->
                      (committed <> ChildClose (Some 0) ->
                       spawned out.1 = spawned r ++ prepareCommands ++ [commit]
                       /\ out.2
                          = Rejected (streamingFailure (js "git")
                                        (commitArgs payload) committed))
                      /\ (committed = ChildClose (Some 0) ->
                          forall w3 pushed,
                            spawnInherit sys push w2 = (w3, pushed) ->
                            spawned out.1
                            = spawned r ++ prepareCommands ++ [commit; push]
                            /\ world out.1 = w3
                            /\ (pushed = ChildClose (Some 0) ->
                                out.2 = Resolved tt)
                            /\ (pushed <> ChildClose (Some 0) ->
                                out.2
                                = Rejected (streamingFailure (js "git")
                                              [js "push"] pushed)))
             end).
Proof.
  intros out. split.
  - intros H1 H2. unfold out, runCommitPushWorkflow.
    by rewrite (streq_neq _ _ H1), (streq_neq _ _ H2).
  - intros Hlabel r1 res Hprepare.
    assert (Hl : (negb (streq label (js "commit"))
                  && negb (streq label (js "commitPush")))%bool = false).
    { by destruct Hlabel as [-> | ->]. }
    pose proof Hprepare as Hstarted.
    apply prepareCommit_spawned in Hstarted as (L & S1 & _ & Hpre & Hpayload).
    exists L. split; [done|]. split; [done|].
    destruct res as [payload|failure].
    2:{ unfold out, runCommitPushWorkflow, andThen. by rewrite Hl, Hprepare. }
    destruct (Hpayload payload eq_refl) as (HL & Hsplit & Hne).
    cbv zeta. split; [done|]. split; [done|]. split.
    { apply Forall_forall. intros p Hp. rewrite Hsplit in Hp.
      by apply (paragraph_ink (message payload)). }
    intros w2 committed Hcommit.
    assert (Hout : out
              = (commitWithPayload sys payload ;;
                 printCommitSuccess payload ;;
                 runGitCommandStreaming sys [js "push"] ;;
                 consoleLog (CHECK_MARK ++ js " Pushed"))
                  (printProposedMessage (message payload) r1).1).
    { unfold out, runCommitPushWorkflow. rewrite Hl. cbv iota.
      unfold andThen at 1. rewrite Hprepare.
      unfold andThen at 1. reflexivity. }
    set (r2 := (printProposedMessage (message payload) r1).1) in Hout.
    assert (Hr2 : world r2 = world r1 /\ spawned r2 = spawned r1) by done.
    destruct Hr2 as [Hw2 Hs2].
    assert (Hc : commitWithPayload sys payload r2
                 = ({| world := w2;
                       spawned := spawned r2 ++ [js "git" :: commitArgs payload];
                       printed := printed r2 |},
                    if bool_decide (committed = ChildClose (Some 0))
                    then Resolved tt
                    else Rejected (streamingFailure (js "git")
                                     (commitArgs payload) committed))).
    { unfold commitWithPayload, runGitCommandStreaming.
      apply runCommandStreaming_run. by rewrite Hw2. }
    split.
    + intros Hfailed.
      assert (Hend : out
                = ({| world := w2;
                      spawned := spawned r2 ++ [js "git" :: commitArgs payload];
                      printed := printed r2 |},
                   Rejected (streamingFailure (js "git") (commitArgs payload)
                               committed))).
      { rewrite Hout. unfold andThen at 1. rewrite Hc.
        by rewrite bool_decide_eq_false_2. }
      rewrite Hend. cbn [fst snd spawned].
      by rewrite Hs2, S1, HL, <- app_assoc.
    + intros Hcommitted w3 pushed Hpush.
      assert (Hp : exists r4,
                 printCommitSuccess payload
                   {| world := w2;
                      spawned := spawned r2 ++ [js "git" :: commitArgs payload];
                      printed := printed r2 |}
                 = (r4, Resolved tt)
                 /\ world r4 = w2
                 /\ spawned r4 = spawned r2 ++ [js "git" :: commitArgs payload]).
      { unfold printCommitSuccess.
        destruct (paragraphs payload) as [|first others].
        - by exists {| world := w2;
                       spawned := spawned r2 ++ [js "git" :: commitArgs payload];
                       printed := printed r2 |}.
        - by exists {| world := w2;
                       spawned := spawned r2 ++ [js "git" :: commitArgs payload];
                       printed := printed r2
                                  ++ [CHECK_MARK ++ js " Committed with message: "
                                        ++ first] |}. }
      destruct Hp as (r4 & Hprint & Hw4 & Hs4).
      assert (Hpushed : runGitCommandStreaming sys [js "push"] r4
                 = ({| world := w3;
                       spawned := spawned r4 ++ [[js "git"; js "push"]];
                       printed := printed r4 |},
                    if bool_decide (pushed = ChildClose (Some 0))
                    then Resolved tt
                    else Rejected (streamingFailure (js "git") [js "push"]
                                     pushed))).
      { unfold runGitCommandStreaming.
        apply runCommandStreaming_run. by rewrite Hw4. }
      assert (Hend : out
                = (if bool_decide (pushed = ChildClose (Some 0))
                   then consoleLog (CHECK_MARK ++ js " Pushed")
                          {| world := w3;
                             spawned := spawned r4 ++ [[js "git"; js "push"]];
                             printed := printed r4 |}
                   else ({| world := w3;
                            spawned := spawned r4 ++ [[js "git"; js "push"]];
                            printed := printed r4 |},
                         Rejected (streamingFailure (js "git") [js "push"]
                                     pushed)))).
      { rewrite Hout. unfold andThen at 1. rewrite Hc.
        rewrite bool_decide_eq_true_2 by done.
        unfold andThen at 1. rewrite Hprint.
        unfold andThen at 1. rewrite Hpushed.
        by case_bool_decide. }
      assert (Hs : spawned r4 ++ [[js "git"; js "push"]]
                   = spawned r ++ prepareCommands
                       ++ [js "git" :: commitArgs payload; [js "git"; js "push"]]).
      { rewrite Hs4, Hs2, S1, HL, <- !app_assoc. reflexivity. }
      rewrite Hend. case_bool_decide as Hok; cbn [fst snd world spawned consoleLog].
      * split; [done|]. split; [done|]. split; [done|]. by intros.
      * split; [done|]. split; [done|]. split; [by intros|done].
Qed.

Lemma commit_workflow_commands_witness :
  let out := runCommitPushWorkflow sampleSystem sampleEnv initialIdentity
               (js "commit") freshRun in
  spawned out.1
  = prepareCommands
      ++ [[js "git"; js "commit"; js "-m"; js "Fix bug"]; [js "git"; js "push"]]
  /\ out.2 = Resolved tt.
Proof.
  cbv zeta.
  destruct (commit_workflow_commands sampleSystem sampleEnv initialIdentity
              (js "commit") freshRun) as [_ Hrun].
  destruct (Hrun (or_introl eq_refl) statusRun
              (Resolved {| message := js "Fix bug";
                           paragraphs := [js "Fix bug"] |}) eq_refl)
    as (L & _ & _ & _ & _ & _ & Hcommit).
  destruct (Hcommit 5%nat (ChildClose (Some 0)) eq_refl) as [_ Hpush].
  destruct (Hpush eq_refl 6%nat (ChildClose (Some 0)) eq_refl)
    as (Hstarted & _ & Hdone & _).
  split; [exact Hstarted | exact (Hdone eq_refl)].
Defined.

(** ** The message of the completion *)

Lemma blocks_of_empty_text : blocks (splitLines []) = [].
Proof. reflexivity. Qed.

(** X4. The text of the completion is trimmed, one layer of matching quotes is
    removed, and the result is cut into paragraphs.  The message is
    accepted exactly when it has a run of non-blank lines; otherwise
    [prepareCommit] fails, with the run unchanged.  An accepted payload
    holds the unquoted message and one paragraph per run. *)
Theorem completion_formatting {World : Type} (text : jsstring) (r : Run World) :
  let m := trimMatchingQuotes (trim text) in
  match blocks (splitLines m) with
  | [] => exists failure, afterCompletion text r = (r, Rejected failure)
  | b :: bs =>
      afterCompletion text r
      = (r, Resolved {| message := m;
                        paragraphs := blockParagraph <$> (b :: bs) |})
  end.
Proof.
  cbv zeta. unfold afterCompletion, formatCommitMessage.
  rewrite trim_idempotent, splitCommitMessageParagraphs_blocks.
  destruct (blocks (splitLines (trimMatchingQuotes (trim text))))
    as [|b bs] eqn:E.
  - destruct (negb (truthy (trim text))); [by eexists|].
    destruct (negb (truthy _)); by eexists.
  - assert (Hm : truthy (trimMatchingQuotes (trim text)) = true).
    { destruct (trimMatchingQuotes (trim text)); [|done].
      by rewrite blocks_of_empty_text in E. }
    assert (Ht : truthy (trim text) = true).
    { destruct (trim text); [|done]. done. }
    by rewrite Ht, Hm.
Qed.

Lemma list_ends {A : Type} (a : A) (l : list A) :
  l <> [] -> exists mid z, a :: l = a :: mid ++ [z].
Proof.
  intros Hl. destruct (exists_last Hl) as (mid & z & ->). by exists mid, z.
Qed.

Lemma trimMatchingQuotes_wrapped (a z : N) (mid : jsstring) :
  trimMatchingQuotes (a :: mid ++ [z])
  = if (((a =? DQUOTE)%N && (z =? DQUOTE)%N)
        || ((a =? SQUOTE)%N && (z =? SQUOTE)%N))%bool
    then mid else a :: mid ++ [z].
Proof.
  unfold trimMatchingQuotes.
  assert (Hlen : (2 <=? Z.of_nat (length (a :: mid ++ [z]))) = true).
  { apply Z.leb_le. simpl. rewrite length_app. simpl. lia. }
  rewrite Hlen. simpl hd.
  replace (List.last (a :: mid ++ [z]) 0%N) with z
    by (symmetry; apply (last_last (a :: mid))).
  destruct (_ || _)%bool; [|done].
  replace (length (a :: mid ++ [z]) - 2)%nat with (length mid)
    by (simpl; rewrite length_app; simpl; lia).
  change (drop 1 (a :: mid ++ [z])) with (mid ++ [z]).
  by rewrite take_app_length.
Qed.

(** X5. [trimMatchingQuotes] removes exactly one layer of quotes: a text
    wrapped in two double quotes or in two single quotes loses those two
    characters and nothing more, and every other text is returned as it
    is. *)
Theorem trimMatchingQuotes_one_layer :
  (forall q s, q = DQUOTE \/ q = SQUOTE ->
               trimMatchingQuotes (q :: s ++ [q]) = s)
  /\ (forall input,
        trimMatchingQuotes input = input
        \/ exists q, (q = DQUOTE \/ q = SQUOTE)
                     /\ input = q :: trimMatchingQuotes input ++ [q]).
Proof.
  split.
  - intros q s [-> | ->]; by rewrite trimMatchingQuotes_wrapped.
  - intros input. destruct input as [|a l]; [by left|].
    destruct l as [|b l]; [by left|].
    destruct (list_ends a (b :: l)) as (mid & z & ->); [done|].
    rewrite trimMatchingQuotes_wrapped.
    destruct (_ || _)%bool eqn:E; [|by left]. right.
    apply orb_true_iff in E as [E|E]; apply andb_true_iff in E as [Ea Ez];
      apply N.eqb_eq in Ea, Ez; subst; eauto.
Qed.

(** X6. Two blocks of non-blank lines with a blank line between them give two
    paragraphs, one per block. *)
Theorem two_blocks_two_paragraphs (A B : list jsstring) (sep : jsstring) :
  A <> [] -> B <> [] ->
  forallb (fun l => negb (isBlankLine l)) (A ++ B) = true ->
  isBlankLine sep = true ->
  forallb (forallb notBreak) (A ++ sep :: B) = true ->
  splitCommitMessageParagraphs (join [LF] (A ++ sep :: B))
  = [blockParagraph A; blockParagraph B].
Proof.
  intros HA HB Hink Hsep Hbreak.
  rewrite forallb_app in Hink. apply andb_true_iff in Hink as [HinkA HinkB].
  rewrite splitCommitMessageParagraphs_blocks, splitLines_join;
    [|by destruct A|done].
  unfold blocks. rewrite (segments_app_blank A B sep) by done.
  rewrite (segments_nonblank B) by done.
  destruct A; [done|]. by destruct B.
Qed.

Lemma two_blocks_two_paragraphs_witness :
  splitCommitMessageParagraphs
    (js "Fix bug" ++ [LF] ++ js "  " ++ [LF] ++ js "- first  " ++ [LF] ++ js "- second")
  = [js "Fix bug"; js "- first" ++ [LF] ++ js "- second"].
Proof.
  apply (two_blocks_two_paragraphs [js "Fix bug"] [js "- first  "; js "- second"]
           (js "  ")); try discriminate; reflexivity.
Defined.

(** ** Identity *)

(** A text of the configuration or of the command line, trimmed, when
    something is left of it. *)
Definition meaningful (text : option jsstring) : option jsstring :=
  t ← text; if truthy (trim t) then Some (trim t) else None.

Definition envName (env : Env) : option jsstring :=
  lookupNonEmptyEnv env (js "FLOW_COMMAND_NAME").

Definition envSummary (env : Env) : option jsstring :=
  lookupNonEmptyEnv env (js "FLOW_COMMAND_SUMMARY").

Definition configName (app : option OneFAppConfig) : option jsstring :=
  a ← app; meaningful (app_name a).

Definition configDescription (app : option OneFAppConfig) : option jsstring :=
  a ← app; meaningful (app_description a).

Definition configVersion (app : option OneFAppConfig) : option jsstring :=
  a ← app; meaningful (app_version a).

(** The name the command was called by, [fast] when there is none. *)
Definition invocationName (argv1 : option jsstring) : option jsstring :=
  meaningful (Some (default DEFAULT_COMMAND_NAME argv1)).

Lemma lookupNonEmptyEnv_trimmed (env : Env) (key value : jsstring) :
  lookupNonEmptyEnv env key = Some value ->
  truthy value = true /\ trim value = value
  /\ exists raw, env !! key = Some raw /\ value = trim raw.
Proof.
  intros H. split; [by apply (lookupNonEmptyEnv_Some env key)|].
  unfold lookupNonEmptyEnv in H. destruct (env !! key) as [raw|]; [|done].
  destruct (truthy raw); [|done]. destruct (0 <? _); [|done].
  injection H as <-. split; [apply trim_idempotent | by exists raw].
Qed.

Lemma truthy_trim (c : jsstring) : truthy (trim c) = true -> truthy c = true.
Proof. destruct c; [by rewrite trim_nil | done]. Qed.

Lemma applyCommandIdentity_valid (path : PathModule) (c : jsstring)
    (locked : bool) (id : Identity) :
  truthy (trim c) = true ->
  applyCommandIdentity path (Some c) locked id
  = {| commandName := baseOf path (trim c);
       commandSummary := if locked then commandSummary id
                         else generatedSummary (baseOf path (trim c));
       reportedVersion := reportedVersion id |}.
Proof.
  intros H. unfold applyCommandIdentity.
  by rewrite (truthy_trim c H), H.
Qed.

Lemma applyCommandIdentity_invalid (path : PathModule) (c : jsstring)
    (locked : bool) (id : Identity) :
  truthy (trim c) = false -> applyCommandIdentity path (Some c) locked id = id.
Proof.
  intros H. unfold applyCommandIdentity. rewrite H.
  by destruct (truthy c).
Qed.

(** What [configureCommandIdentity] leaves: the name of the environment or
    else of the invocation, the summary of the environment or else the one
    generated from that name, and the two locks. *)
Lemma configureCommandIdentity_result (path : PathModule) (env : Env)
    (argv1 : option jsstring) :
  let '(id, locks) := configureCommandIdentity path env argv1 initialIdentity in
  commandName id
  = match envName env, invocationName argv1 with
    | Some n, _ => baseOf path n
    | None, Some n => baseOf path n
    | None, None => DEFAULT_COMMAND_NAME
    end
  /\ commandSummary id
     = match envSummary env with
       | Some s => s
       | None => generatedSummary (commandName id)
       end
  /\ reportedVersion id = FLOW_VERSION
  /\ nameLocked locks = bool_decide (is_Some (envName env))
  /\ summaryLocked locks = bool_decide (is_Some (envSummary env)).
Proof.
  unfold configureCommandIdentity, envName, envSummary, invocationName, meaningful.
  assert (Hno : forall k : jsstring, bool_decide (is_Some (@None jsstring)) = false /\
                          bool_decide (is_Some (Some k)) = true).
  { intros k. split; [by apply bool_decide_eq_false_2; intros [? ?]
                     | by apply bool_decide_eq_true_2]. }
  destruct (lookupNonEmptyEnv env (js "FLOW_COMMAND_SUMMARY")) as [s|] eqn:Es;
    [destruct (lookupNonEmptyEnv_trimmed _ _ _ Es) as (Hs & _ & _)|];
    (destruct (lookupNonEmptyEnv env (js "FLOW_COMMAND_NAME")) as [n|] eqn:En;
     [destruct (lookupNonEmptyEnv_trimmed _ _ _ En) as (Hn & Htn & _)|]);
    cbn [truthy_opt mbind option_bind default]; rewrite ?Hs, ?Hn; cbv iota.
  all: try (destruct (truthy (trim (default DEFAULT_COMMAND_NAME argv1))) eqn:E).
  all: first [rewrite applyCommandIdentity_valid by (done || by rewrite Htn)
             | rewrite applyCommandIdentity_invalid by done].
  all: rewrite ?Htn; cbn [fst snd commandName commandSummary reportedVersion
                            nameLocked summaryLocked setSummary initialIdentity].
  all: repeat match goal with
         | |- context [bool_decide (is_Some (Some ?k))] =>
             rewrite (proj2 (Hno k))
         | |- context [bool_decide (is_Some None)] =>
             rewrite (proj1 (Hno []))
         end.
  all: done.
Qed.

(** What [applyAppMetadata] changes: a name that is not locked takes the
    name of the configuration; a summary that is not locked takes the
    description of the configuration or else the summary generated from the
    name of the configuration, whether or not that name was applied; the
    version takes the version of the configuration. *)
Lemma applyAppMetadata_result (path : PathModule) (app : option OneFAppConfig)
    (locks : IdentityLocks) (id : Identity) :
  let id' := applyAppMetadata path app locks id in
  commandName id'
  = (if nameLocked locks then commandName id
     else match configName app with
          | Some n => baseOf path n
          | None => commandName id
          end)
  /\ commandSummary id'
     = (if summaryLocked locks then commandSummary id
        else match configDescription app, configName app with
             | Some d, _ => d
             | None, Some n => generatedSummary n
             | None, None => commandSummary id
             end)
  /\ reportedVersion id' = default (reportedVersion id) (configVersion app).
Proof.
  destruct app as [a|];
    [|by destruct (nameLocked locks), (summaryLocked locks)].
  unfold applyAppMetadata, configName, configDescription, configVersion,
    meaningful, applyCommandIdentity.
  cbn [mbind option_bind].
  destruct (app_name a) as [n|], (app_description a) as [d|],
    (app_version a) as [v|];
    cbn [fmap option_fmap option_map truthy_opt default];
    rewrite ?trim_idempotent;
    try destruct (truthy (trim n)) eqn:En;
    try destruct (truthy (trim d)) eqn:Ed;
    try destruct (truthy (trim v)) eqn:Ev;
    destruct (nameLocked locks), (summaryLocked locks);
    cbn; rewrite ?En, ?Ed, ?Ev; cbn; rewrite ?En, ?Ed, ?Ev; done.
Qed.

(** X7. The identity [main] resolves.  The name comes from the environment, or
    else from the configuration, or else from the invocation, or else is
    [fast]; it is the base name of that source without its extension.  The
    summary comes from the environment, or else is the description of the
    configuration, or else is generated from the name of the configuration
    (also when the environment decided the name), or else is generated from
    the resolved name.  The version is the one of the configuration, or
    else the built-in one. *)
Theorem identity_resolution (path : PathModule) (env : Env)
    (argv1 : option jsstring) (app : option OneFAppConfig) :
  let id := resolveIdentity path env argv1 app in
  commandName id
  = match envName env, configName app, invocationName argv1 with
    | Some n, _, _ => baseOf path n
    | None, Some n, _ => baseOf path n
    | None, None, Some n => baseOf path n
    | None, None, None => DEFAULT_COMMAND_NAME
    end
  /\ commandSummary id
     = match envSummary env, configDescription app, configName app with
       | Some s, _, _ => s
       | None, Some d, _ => d
       | None, None, Some n => generatedSummary n
       | None, None, None => generatedSummary (commandName id)
       end
  /\ reportedVersion id = default FLOW_VERSION (configVersion app).
Proof.
  unfold resolveIdentity.
  pose proof (configureCommandIdentity_result path env argv1) as Hc.
  destruct (configureCommandIdentity path env argv1 initialIdentity)
    as [id0 locks].
  destruct Hc as (Hname & Hsum & Hver & Hnl & Hsl).
  destruct (applyAppMetadata_result path app locks id0) as (Hname' & Hsum' & Hver').
  cbv zeta. rewrite Hname', Hsum', Hver', Hnl, Hsl, Hver. clear Hname' Hsum' Hver'.
  split; [|split; [|done]].
  - rewrite Hname.
    destruct (envName env) as [n|].
    + by rewrite bool_decide_eq_true_2 by eauto.
    + rewrite bool_decide_eq_false_2 by (by intros [? ?]).
      by destruct (configName app), (invocationName argv1).
  - rewrite Hsum.
    destruct (envSummary env) as [s|].
    + by rewrite bool_decide_eq_true_2 by eauto.
    + rewrite bool_decide_eq_false_2 by (by intros [? ?]).
      destruct (configDescription app); [done|].
      destruct (configName app) as [n|]; [done|].
      destruct (envName env).
      * by rewrite bool_decide_eq_true_2 by eauto.
      * by rewrite bool_decide_eq_false_2 by (by intros [? ?]).
Qed.

(** The name forced by the environment is [foo] and the configuration
    names the application [bar] without a description: the name is [foo]
    and the summary is generated from [bar]. *)
Example summary_of_config_name_under_env_name :
  let id := resolveIdentity posix {[ js "FLOW_COMMAND_NAME" := js "foo" ]}
              (Some (js "/usr/local/bin/fast"))
              (Some {| app_name := Some (js "bar"); app_description := None;
                       app_version := None |}) in
  commandName id = js "foo"
  /\ commandSummary id = js "bar is CLI to move faster in software projects"
  /\ commandSummary id <> generatedSummary (commandName id).
Proof. vm_compute. repeat split; discriminate. Qed.

(** ** Running and missing commands *)

(** The trace of an unknown command. *)
Definition unknownCommandTrace (id : Identity) (cmd : jsstring) : list Effect :=
  [TrackTelemetry warn (js "command_not_found") cmd;
   ConsoleError (js "Unknown command: " ++ cmd)]
    ++ printRootHelp id ++ [ProcessExit 1].

(** The last argument is a help flag that follows the command. *)
Definition endsWithHelpFlag (cmd : jsstring) (rest : list jsstring) : bool :=
  (nonEmpty rest && isHelpFlag (List.last (cmd :: rest) []))%bool.

Lemma handleTopLevel_command (id : Identity) (cmd : jsstring)
    (rest : list jsstring) :
  truthy cmd = true -> cmd ∉ topLevelWords ->
  handleTopLevel id (cmd :: rest)
  = if endsWithHelpFlag cmd rest
    then (true, if (printCommandHelp id cmd).1 then (printCommandHelp id cmd).2
                else printRootHelp id)
    else (false, []).
Proof.
  intros Ht Hw. unfold topLevelWords in Hw.
  repeat (apply not_elem_of_cons in Hw as [?%streq_neq Hw]).
  unfold handleTopLevel, endsWithHelpFlag.
  rewrite Ht. simpl negb. cbv iota.
  repeat match goal with H : streq cmd _ = false |- _ => rewrite H; clear H end.
  rewrite !orb_false_l. cbv iota.
  destruct rest as [|a rest].
  - reflexivity.
  - assert (Hlen : (1 <? Z.of_nat (length (cmd :: a :: rest))) = true).
    { apply Z.ltb_lt. simpl length. lia. }
    rewrite Hlen. cbn [nonEmpty andb].
    destruct (isHelpFlag _); [|done].
    by destruct (printCommandHelp id cmd) as [[] out].
Qed.

Lemma includes_last (x : jsstring) (args : list jsstring) :
  includes x args = false -> args <> [] -> streq x (List.last args []) = false.
Proof.
  unfold includes. induction args as [|a args IH]; [done|].
  simpl. intros [Ha Hargs]%orb_false_iff _.
  destruct args as [|b args]; [done|]. by apply IH.
Qed.

Lemma no_flag_no_end (cmd : jsstring) (rest : list jsstring) :
  hasHelpFlag rest = false -> endsWithHelpFlag cmd rest = false.
Proof.
  unfold hasHelpFlag, endsWithHelpFlag, isHelpFlag.
  intros [H1 H2]%orb_false_iff.
  destruct rest as [|a rest]; [done|]. cbn [nonEmpty andb].
  change (List.last (cmd :: a :: rest) []) with (List.last (a :: rest) []).
  apply (includes_last _ (a :: rest)) in H1; [|done].
  apply (includes_last _ (a :: rest)) in H2; [|done].
  unfold streq in *. rewrite bool_decide_eq_false in H1, H2.
  rewrite !bool_decide_eq_false_2; [done | congruence | congruence].
Qed.

(** X8. A command that is neither a top-level word, nor a built-in, nor
    registered: when the last argument is [--help] or [-h] the root help is
    printed and [main] returns normally; otherwise [main] reports the
    command to telemetry, prints the error and the root help and exits with
    status 1.  No handler is invoked either way. *)
Theorem unknown_command (outcome : CommandHandler -> option jsstring)
    (id : Identity) (st : Commands) (cmd : jsstring) (rest : list jsstring) :
  truthy cmd = true -> cmd ∉ topLevelWords -> cmd ∉ builtinNames ->
  commandRegistry st !! cmd = None ->
  dispatch outcome id st (cmd :: rest)
  = (if endsWithHelpFlag cmd rest then printRootHelp id
     else unknownCommandTrace id cmd)
  /\ invoked (dispatch outcome id st (cmd :: rest)) = [].
Proof.
  intros Ht Hw Hb Hreg.
  assert (Hrun : dispatch outcome id st (cmd :: rest)
                 = if endsWithHelpFlag cmd rest then printRootHelp id
                   else unknownCommandTrace id cmd).
  { unfold dispatch. rewrite handleTopLevel_command by done.
    rewrite printCommandHelp_unknown;
      [|done | intros ->; apply Hw; unfold topLevelWords; elem_of_list].
    destruct (endsWithHelpFlag cmd rest); [done|].
    by rewrite Ht, Hreg. }
  split; [done|]. rewrite Hrun. by destruct (endsWithHelpFlag cmd rest).
Qed.

Lemma unknown_command_witness :
  dispatch (fun _ => None) initialIdentity (startup None) [js "bogus"]
  = unknownCommandTrace initialIdentity (js "bogus")
  /\ dispatch (fun _ => None) initialIdentity (startup None)
       [js "bogus"; js "--help"]
     = printRootHelp initialIdentity.
Proof.
  split.
  - apply (unknown_command (fun _ => None) initialIdentity (startup None)
             (js "bogus") []).
    + reflexivity.
    + refine (bool_decide_unpack _ _). vm_compute. exact I.
    + refine (bool_decide_unpack _ _). vm_compute. exact I.
    + vm_compute. reflexivity.
  - apply (unknown_command (fun _ => None) initialIdentity (startup None)
             (js "bogus") [js "--help"]).
    + reflexivity.
    + refine (bool_decide_unpack _ _). vm_compute. exact I.
    + refine (bool_decide_unpack _ _). vm_compute. exact I.
    + vm_compute. reflexivity.
Defined.

(** The trace of a registered command that runs. *)
Definition commandRunTrace (outcome : CommandHandler -> option jsstring)
    (h : TelemetryHandler) : list Effect :=
  [TrackTelemetry info (js "command_start") (wrapped_name h);
   Invoke (wrapped_handler h)]
    ++ match outcome (wrapped_handler h) with
       | None => [TrackTelemetry info (js "command_success") (wrapped_name h)]
       | Some failure =>
           [TrackTelemetry error (js "command_failure") (wrapped_name h);
            ConsoleError failure; ProcessExit 1]
       end.

(** X9. A registered command that is no top-level word, called without a help
    flag, runs: telemetry gets [command_start], the registered handler is
    invoked once and nothing else is, and telemetry gets [command_success],
    or [command_failure] followed by the error on the console and exit
    status 1 when the handler throws. *)
Theorem registered_command_runs (outcome : CommandHandler -> option jsstring)
    (id : Identity) (st : Commands) (cmd : jsstring) (rest : list jsstring)
    (h : TelemetryHandler) :
  truthy cmd = true -> cmd ∉ topLevelWords ->
  commandRegistry st !! cmd = Some h -> hasHelpFlag rest = false ->
  dispatch outcome id st (cmd :: rest) = commandRunTrace outcome h
  /\ invoked (dispatch outcome id st (cmd :: rest)) = [wrapped_handler h].
Proof.
  intros Ht Hw Hreg Hflag.
  assert (Hrun : dispatch outcome id st (cmd :: rest) = commandRunTrace outcome h).
  { unfold dispatch. rewrite handleTopLevel_command by done.
    rewrite no_flag_no_end by done. rewrite Ht, Hreg. simpl negb. cbv iota.
    assert (Hinc : (includes (js "--help") (cmd :: rest)
                    || includes (js "-h") (cmd :: rest))%bool = false).
    { unfold hasHelpFlag in Hflag. apply orb_false_iff in Hflag as [H1 H2].
      unfold includes in *. simpl. rewrite H1, H2.
      unfold topLevelWords in Hw.
      apply not_elem_of_cons in Hw as [Hw1 Hw].
      apply not_elem_of_cons in Hw as [Hw2 _].
      rewrite !orb_false_r. apply orb_false_iff.
      split; apply streq_neq; congruence. }
    rewrite Hinc. unfold executeCommandWithTelemetry, commandRunTrace.
    destruct (outcome (wrapped_handler h)); by rewrite <- app_assoc. }
  split; [done|]. rewrite Hrun. unfold commandRunTrace.
  by destruct (outcome (wrapped_handler h)).
Qed.

Lemma registered_command_runs_witness :
  invoked (dispatch (fun _ => Some (js "boom")) initialIdentity
             (startup (Some sampleConfig)) [js "dev"; js "--fast"])
  = [HConfiguredTask (js "dev") (sampleTask "bun dev")].
Proof.
  apply (registered_command_runs (fun _ => Some (js "boom")) initialIdentity
           (startup (Some sampleConfig)) (js "dev") [js "--fast"]
           (WithTelemetry (js "dev")
              (HConfiguredTask (js "dev") (sampleTask "bun dev")))).
  - reflexivity.
  - refine (bool_decide_unpack _ _). vm_compute. exact I.
  - vm_compute. reflexivity.
  - reflexivity.
Defined.

(** ** Invoking a configuration task *)

(** A registered command that is no top-level word, called without a help
    flag: [main] runs the handler between its telemetry events. *)
Lemma dispatch_registered (outcome : CommandHandler -> option jsstring)
    (id : Identity) (st : Commands) (cmd : jsstring) (rest : list jsstring)
    (h : TelemetryHandler) :
  truthy cmd = true -> cmd ∉ topLevelWords ->
  commandRegistry st !! cmd = Some h -> hasHelpFlag rest = false ->
  dispatch outcome id st (cmd :: rest)
  = [TrackTelemetry info (js "command_start") (wrapped_name h);
     Invoke (wrapped_handler h)]
      ++ match outcome (wrapped_handler h) with
         | None => [TrackTelemetry info (js "command_success") (wrapped_name h)]
         | Some failure =>
             [TrackTelemetry error (js "command_failure") (wrapped_name h);
              ConsoleError failure; ProcessExit 1]
         end.
Proof.
  intros Ht Hw Hreg Hflag.
  unfold dispatch. rewrite handleTopLevel_command by done.
  rewrite no_flag_no_end by done. rewrite Ht, Hreg. simpl negb. cbv iota.
  assert (Hinc : (includes (js "--help") (cmd :: rest)
                  || includes (js "-h") (cmd :: rest))%bool = false).
  { unfold hasHelpFlag in Hflag. apply orb_false_iff in Hflag as [H1 H2].
    unfold includes in *. simpl. rewrite H1, H2.
    unfold topLevelWords in Hw.
    apply not_elem_of_cons in Hw as [Hw1 Hw].
    apply not_elem_of_cons in Hw as [Hw2 _].
    rewrite !orb_false_r. apply orb_false_iff.
    split; apply streq_neq; congruence. }
  rewrite Hinc. unfold executeCommandWithTelemetry.
  destruct (outcome (wrapped_handler h)); by rewrite <- app_assoc.
Qed.

(** The error a promise was rejected with, if any. *)
Definition thrown {A : Type} (res : Result A) : option jsstring :=
  match res with
  | Resolved _ => None
  | Rejected failure => Some failure
  end.

Section Invocation.
Context {World : Type} (sys : System World) (env : Env).
Context (loaded : option OneFConfig) (id : Identity).

(** The handlers whose code is not modelled here. *)
Variable others : CommandHandler -> Async World unit.

(** What calling a registered handler does.  The closure of a
    configuration task is [async () => { await runConfiguredTask(taskName,
    taskConfig) }]; [loaded] is what [loadOneFConfig()] returns. *)
Definition callHandler (h : CommandHandler) : Async World unit :=
  match h with
  | HConfiguredTask taskName taskConfig =>
      runConfiguredTask sys loaded taskName (Some taskConfig)
  | HSetup => runSetup sys env loaded
  | HCommitPush label => runCommitPushWorkflow sys env id label
  | _ => others h
  end.

(** [main] started in the run [r]: what it does that is visible from
    outside, and the run in which the handlers it invoked leave the
    process. *)
Definition mainRun (st : Commands) (term : Terminal) (fzf : SelectorOutcome)
    (argv : list jsstring) (r : Run World) : list Effect * Run World :=
  let trace := main (fun h => thrown (callHandler h r).2) id st term fzf argv in
  (trace, fold_left (fun r' h => (callHandler h r').1) (invoked trace) r).

Lemma mainRun_registered (st : Commands) (term : Terminal)
    (fzf : SelectorOutcome) (cmd : jsstring) (rest : list jsstring)
    (h : TelemetryHandler) (r : Run World) :
  truthy cmd = true -> cmd ∉ topLevelWords ->
  commandRegistry st !! cmd = Some h -> hasHelpFlag rest = false ->
  mainRun st term fzf (cmd :: rest) r
  = ([TrackTelemetry info (js "command_start") (wrapped_name h);
      Invoke (wrapped_handler h)]
       ++ match (callHandler (wrapped_handler h) r).2 with
          | Resolved _ =>
              [TrackTelemetry info (js "command_success") (wrapped_name h)]
          | Rejected failure =>
              [TrackTelemetry error (js "command_failure") (wrapped_name h);
               ConsoleError failure; ProcessExit 1]
          end,
     (callHandler (wrapped_handler h) r).1).
Proof.
  intros Ht Hw Hreg Hflag. unfold mainRun, main.
  rewrite (dispatch_registered _ id st cmd rest h) by done.
  by destruct ((callHandler (wrapped_handler h) r).2).
Qed.

(** A top-level word is answered by [handleTopLevel]: [main] prints and
    leaves the run as it was. *)
Lemma mainRun_word (st : Commands) (term : Terminal) (fzf : SelectorOutcome)
    (word : jsstring) (rest : list jsstring) (r : Run World) :
  word ∈ topLevelWords ->
  mainRun st term fzf (word :: rest) r
  = ((handleTopLevel id (word :: rest)).2, r).
Proof.
  intros Hw. unfold mainRun, main.
  rewrite dispatch_handled by (by apply handleTopLevel_word).
  by rewrite handleTopLevel_no_invoke.
Qed.

(** An empty first token and a top-level word are answered by
    [handleTopLevel] whatever the registry holds. *)
Lemma mainRun_answered (st : Commands) (term : Terminal)
    (fzf : SelectorOutcome) (word : jsstring) (rest : list jsstring)
    (r : Run World) :
  truthy word = false \/ word ∈ topLevelWords ->
  mainRun st term fzf (word :: rest) r
  = ((handleTopLevel id (word :: rest)).2, r)
  /\ invoked (handleTopLevel id (word :: rest)).2 = [].
Proof.
  intros Hword. split; [|apply handleTopLevel_no_invoke].
  destruct Hword as [Hempty|Hword]; [|by apply mainRun_word].
  unfold mainRun, main.
  rewrite dispatch_handled
    by (unfold handleTopLevel; by rewrite Hempty).
  by rewrite handleTopLevel_no_invoke.
Qed.

(** A built-in keeps its name: the registry holds its handler, not the
    closure of a configuration task. *)
Lemma builtin_keeps_name (config : OneFConfig) (X : jsstring) :
  X ∈ builtinNames ->
  exists b,
    b ∈ builtinRegistrations
    /\ commandRegistry (startup (Some config)) !! X
       = Some (WithTelemetry X (reg_handler b))
    /\ forall taskName taskConfig,
         reg_handler b <> HConfiguredTask taskName taskConfig.
Proof.
  intros Hin. unfold builtinNames in Hin.
  apply list_elem_of_fmap in Hin as (b & -> & Hb).
  exists b. split; [done|]. split.
  - rewrite startup_lookup. unfold startupRegistrations.
    by rewrite (find_app_first _ _ _ b (builtin_is_first_writer b Hb)).
  - intros taskName taskConfig. unfold builtinRegistrations in Hb.
    repeat (apply elem_of_cons in Hb as [->|Hb]; [discriminate|]).
    by apply elem_of_nil in Hb.
Qed.

(** C3 (amended). A configuration task [X] whose name is not a built-in's
    and whose [cmds] is not empty is registered with a handler that runs
    [runConfiguredTask] on its table.  The handler starts the commands of
    [cmds] in declaration order, each through [bash -lc]: when all exit
    with code 0 every command was started and the task succeeds; when the
    commands [pre] succeed and the next one, [c], exits with a non-zero
    code or is ended by a signal (no exit code), exactly [pre] and [c] were
    started, nothing after [c], and the task fails with an error that names
    the task.  The command line [X rest] invokes that handler when [X] is
    not empty and none of the words [--help], [-h], [h], [--version] and
    [help], and [rest] holds no [--help] and no [-h]: [main] then reports
    the start, runs the handler, and reports the success, or reports the
    failure, prints the error and exits with status 1.  When [X] is empty
    or one of those five words, [handleTopLevel] answers the command line
    itself: no handler is invoked and the run is unchanged. *)
Theorem C3_task_runs_in_order_fail_fast (config : OneFConfig)
    (X : jsstring) (taskConfig : OneFTaskConfig) (commands : list jsstring) :
  X ∉ builtinNames ->
  lookupTask (Some config) X = Some taskConfig ->
  task_cmds taskConfig = Some commands ->
  commands <> [] ->
  let h := HConfiguredTask X taskConfig in
  let failure code :=
    js "Task '" ++ X ++ js "' command exited with code "
      ++ Number_toString (default (-1) code) in
  commandRegistry (startup (Some config)) !! X = Some (WithTelemetry X h)
  /\ (forall r w',
        allSucceed sys commands (world r) w' ->
        runConfiguredTask sys loaded X (Some taskConfig) r
        = (afterCommands r commands w', Resolved tt))
  /\ (forall r pre c post w1 w2 code,
        commands = pre ++ c :: post ->
        allSucceed sys pre (world r) w1 ->
        spawnInherit sys [js "bash"; js "-lc"; c] w1 = (w2, ChildClose code) ->
        code <> Some 0 ->
        runConfiguredTask sys loaded X (Some taskConfig) r
        = (afterCommands r (pre ++ [c]) w2, Rejected (failure code))
        /\ mentions (failure code) X)
  /\ (truthy X = true -> X ∉ topLevelWords ->
      forall term fzf rest r,
        hasHelpFlag rest = false ->
        let run := mainRun (startup (Some config)) term fzf (X :: rest) r in
        (forall w',
            allSucceed sys commands (world r) w' ->
            run = ([TrackTelemetry info (js "command_start") X; Invoke h;
                    TrackTelemetry info (js "command_success") X],
                   afterCommands r commands w'))
        /\ (forall pre c post w1 w2 code,
              commands = pre ++ c :: post ->
              allSucceed sys pre (world r) w1 ->
              spawnInherit sys [js "bash"; js "-lc"; c] w1
              = (w2, ChildClose code) ->
              code <> Some 0 ->
              run = ([TrackTelemetry info (js "command_start") X; Invoke h;
                      TrackTelemetry error (js "command_failure") X;
                      ConsoleError (failure code); ProcessExit 1],
                     afterCommands r (pre ++ [c]) w2)))
  /\ (truthy X = false \/ X ∈ topLevelWords ->
      forall term fzf rest r,
        mainRun (startup (Some config)) term fzf (X :: rest) r
        = ((handleTopLevel id (X :: rest)).2, r)
        /\ invoked (handleTopLevel id (X :: rest)).2 = []).
Proof.
  intros Hname Htask Hcmds Hne h failure.
  assert (Hreg : commandRegistry (startup (Some config)) !! X
                 = Some (WithTelemetry X h)).
  { rewrite startup_lookup_task by (by apply find_None_not_elem).
    by rewrite Htask. }
  assert (Hall : forall r w',
            allSucceed sys commands (world r) w' ->
            runConfiguredTask sys loaded X (Some taskConfig) r
            = (afterCommands r commands w', Resolved tt)).
  { intros r w' Hrun.
    rewrite (runConfiguredTask_commands sys loaded X taskConfig commands)
      by done.
    by apply (forEach_allSucceed sys X commands (world r)). }
  assert (Hfail : forall r pre c post w1 w2 code,
            commands = pre ++ c :: post ->
            allSucceed sys pre (world r) w1 ->
            spawnInherit sys [js "bash"; js "-lc"; c] w1
            = (w2, ChildClose code) ->
            code <> Some 0 ->
            runConfiguredTask sys loaded X (Some taskConfig) r
            = (afterCommands r (pre ++ [c]) w2, Rejected (failure code))).
  { intros r pre c post w1 w2 code Hsplit Hpre Hc Hcode.
    rewrite (runConfiguredTask_commands sys loaded X taskConfig commands)
      by done.
    rewrite Hsplit.
    by apply (forEach_fail_fast sys X pre post c (world r) w1 w2 code). }
  split; [done|]. split; [done|]. split; [|split].
  3:{ intros Hword term fzf rest r. by apply mainRun_answered. }
  - intros r pre c post w1 w2 code Hsplit Hpre Hc Hcode.
    split; [by apply (Hfail r pre c post w1 w2 code)|].
    by eexists (js "Task '"), _.
  - intros Htruthy Hword term fzf rest r Hflag run.
    assert (Hrun : run = mainRun (startup (Some config)) term fzf (X :: rest) r)
      by done.
    rewrite (mainRun_registered _ term fzf X rest (WithTelemetry X h))
      in Hrun by done.
    cbn [wrapped_name wrapped_handler h callHandler] in Hrun.
    split.
    + intros w' Hok. rewrite Hrun.
      unfold h. cbn [callHandler]. by rewrite (Hall r w' Hok).
    + intros pre c post w1 w2 code Hsplit Hpre Hc Hcode. rewrite Hrun.
      unfold h. cbn [callHandler].
      by rewrite (Hfail r pre c post w1 w2 code Hsplit Hpre Hc Hcode).
Qed.

(** C9 (amended). A configuration task whose [cmds] is empty or absent
    makes nothing fail when the configuration is loaded: it is registered
    like any other task.  Its handler fails at once, with an error that
    names the task and with the run unchanged, so that no command was
    started.  The command line [X rest] reaches that failure when [X] is
    not a built-in's name, not empty and none of the words [--help], [-h],
    [h], [--version] and [help], and [rest] holds no [--help] and no [-h]:
    [main] reports the failure, prints the error and exits with status 1.
    A task named [setup] is run by the built-in [setup] once the secrets
    are validated, and fails there in the same way.  Under any other name
    of a built-in the task is not registered, the built-in keeps the name;
    and when [X] is empty or one of the five words, [handleTopLevel]
    answers the command line itself: no handler is invoked and the run is
    unchanged. *)
Theorem C9_empty_task_fails_when_invoked (config : OneFConfig)
    (X : jsstring) (taskConfig : OneFTaskConfig) :
  lookupTask (Some config) X = Some taskConfig ->
  task_cmds taskConfig = None \/ task_cmds taskConfig = Some [] ->
  let h := HConfiguredTask X taskConfig in
  let failure := js "Task '" ++ X ++ js "' has no commands to run" in
  (forall r,
      runConfiguredTask sys loaded X (Some taskConfig) r = (r, Rejected failure))
  /\ mentions failure X
  /\ (X ∉ builtinNames ->
      commandRegistry (startup (Some config)) !! X = Some (WithTelemetry X h))
  /\ (X ∉ builtinNames -> truthy X = true -> X ∉ topLevelWords ->
      forall term fzf rest r,
        hasHelpFlag rest = false ->
        mainRun (startup (Some config)) term fzf (X :: rest) r
        = ([TrackTelemetry info (js "command_start") X; Invoke h;
            TrackTelemetry error (js "command_failure") X;
            ConsoleError failure; ProcessExit 1],
           r))
  /\ (X = js "setup" -> loaded = Some config ->
      missing (validateSecrets env config) = [] ->
      forall term fzf rest r,
        hasHelpFlag rest = false ->
        let r' := afterLines r (lines (validateSecrets env config)
                                  ++ [js "Running setup task commands..."]) in
        runSetup sys env loaded r = (r', Rejected failure)
        /\ spawned r' = spawned r
        /\ mainRun (startup (Some config)) term fzf (js "setup" :: rest) r
           = ([TrackTelemetry info (js "command_start") (js "setup");
               Invoke HSetup;
               TrackTelemetry error (js "command_failure") (js "setup");
               ConsoleError failure; ProcessExit 1],
              r'))
  /\ (X ∈ builtinNames ->
      exists b,
        b ∈ builtinRegistrations
        /\ commandRegistry (startup (Some config)) !! X
           = Some (WithTelemetry X (reg_handler b))
        /\ reg_handler b <> h)
  /\ (truthy X = false \/ X ∈ topLevelWords ->
      forall term fzf rest r,
        mainRun (startup (Some config)) term fzf (X :: rest) r
        = ((handleTopLevel id (X :: rest)).2, r)
        /\ invoked (handleTopLevel id (X :: rest)).2 = []).
Proof.
  intros Htask Hcmds h failure.
  assert (Hrun : forall loaded' (r : Run World),
            runConfiguredTask sys loaded' X (Some taskConfig) r
            = (r, Rejected failure)).
  { intros loaded' r. unfold runConfiguredTask.
    by destruct Hcmds as [-> | ->]. }
  assert (Hreg : X ∉ builtinNames ->
            commandRegistry (startup (Some config)) !! X
            = Some (WithTelemetry X h)).
  { intros Hname.
    rewrite startup_lookup_task by (by apply find_None_not_elem).
    by rewrite Htask. }
  split; [apply Hrun|]. split; [by eexists (js "Task '"), _|].
  split; [done|]. split; [|split; [|split]].
  3:{ intros Hin. destruct (builtin_keeps_name config X Hin) as (b & Hb & Hkept & Hno).
      exists b. split; [done|]. split; [done|]. apply Hno. }
  3:{ intros Hword term fzf rest r. by apply mainRun_answered. }
  - intros Hname Htruthy Hword term fzf rest r Hflag.
    rewrite (mainRun_registered _ term fzf X rest (WithTelemetry X h))
      by auto.
    cbn [wrapped_name wrapped_handler]. unfold h. cbn [callHandler].
    by rewrite Hrun.
  - intros HX Hloaded Hmissing term fzf rest r Hflag r'.
    assert (Hsetup : runSetup sys env loaded r = (r', Rejected failure)).
    { rewrite Hloaded. unfold runSetup, andThen.
      rewrite forEach_consoleLog, Hmissing, <- HX, Htask.
      change (0 <? Z.of_nat (length (@nil jsstring))) with false.
      cbv iota beta. unfold consoleLog. cbn [world spawned printed].
      rewrite Hrun. unfold r', afterLines. by rewrite <- app_assoc. }
    split; [done|]. split; [done|].
    assert (Hreg' : commandRegistry (startup (Some config)) !! js "setup"
                    = Some (WithTelemetry (js "setup") HSetup)).
    { rewrite startup_lookup. unfold startupRegistrations.
      by rewrite (find_app_first _ _ _
                    {| reg_name := js "setup";
                       reg_description :=
                         js "Validate required secrets and run the setup task from 1f.toml";
                       reg_handler := HSetup |}). }
    rewrite (mainRun_registered _ term fzf (js "setup") rest
               (WithTelemetry (js "setup") HSetup));
      [|done | by refine (bool_decide_unpack _ _); vm_compute | done | done].
    cbn [wrapped_name wrapped_handler callHandler].
    by rewrite Hsetup.
Qed.

End Invocation.

(** A configuration whose task is called [h], with one command. *)
Definition shadowedConfig : OneFConfig :=
  {| app := None; secrets := None;
     tasks := Some [(js "h", sampleTask "echo hi")] |}.

(** C3 as stated fails: the task [h] does not collide with a built-in, has
    a command and is registered, but the command line [h] is answered with
    the root help; no handler is invoked and no command is started. *)
Lemma C3_counterexample_task_named_h :
  let st := startup (Some shadowedConfig) in
  let out := mainRun sampleSystem sampleEnv (Some shadowedConfig) initialIdentity
               (fun _ => resolve tt) st interactive SelectorError [js "h"]
               freshRun in
  (js "h" ∉ builtinNames)
  /\ lookupTask (Some shadowedConfig) (js "h") = Some (sampleTask "echo hi")
  /\ task_cmds (sampleTask "echo hi") = Some [js "echo hi"]
  /\ commandRegistry st !! js "h"
     = Some (WithTelemetry (js "h")
               (HConfiguredTask (js "h") (sampleTask "echo hi")))
  /\ out = (printRootHelp initialIdentity, freshRun)
  /\ invoked out.1 = []
  /\ spawned out.2 = [].
Proof.
  cbv zeta.
  split; [by refine (bool_decide_unpack _ _); vm_compute|].
  split; [reflexivity|]. split; [reflexivity|].
  split; [vm_compute; reflexivity|].
  rewrite mainRun_word by (unfold topLevelWords; elem_of_list).
  done.
Qed.

Lemma C3_task_witness :
  mainRun sampleSystem sampleEnv (Some ciConfig) initialIdentity
    (fun _ => resolve tt) (startup (Some ciConfig)) interactive SelectorError
    [js "ci"; js "--verbose"] freshRun
  = ([TrackTelemetry info (js "command_start") (js "ci");
      Invoke (HConfiguredTask (js "ci") ciTask);
      TrackTelemetry error (js "command_failure") (js "ci");
      ConsoleError (js "Task 'ci' command exited with code 1");
      ProcessExit 1],
     {| world := 2%nat;
        spawned := [[js "bash"; js "-lc"; js "echo a"];
                    [js "bash"; js "-lc"; js "false"]];
        printed := [] |}).
Proof.
  destruct (C3_task_runs_in_order_fail_fast sampleSystem sampleEnv
              (Some ciConfig) initialIdentity (fun _ => resolve tt)
              ciConfig (js "ci") ciTask
              [js "echo a"; js "false"; js "echo b"])
    as (_ & _ & _ & Hmain & _).
  - refine (bool_decide_unpack _ _). vm_compute. exact I.
  - reflexivity.
  - reflexivity.
  - discriminate.
  - destruct (Hmain eq_refl) with (term := interactive) (fzf := SelectorError)
      (rest := [js "--verbose"]) (r := freshRun) as [_ Hfail].
    + refine (bool_decide_unpack _ _). vm_compute. exact I.
    + reflexivity.
    + apply (Hfail [js "echo a"] (js "false") [js "echo b"] 1%nat 2%nat (Some 1)).
      * reflexivity.
      * eapply allSucceed_cons; [reflexivity | apply allSucceed_nil].
      * reflexivity.
      * discriminate.
Defined.

(** A configuration whose task is called [h] and has no command. *)
Definition silentConfig : OneFConfig :=
  {| app := None; secrets := None; tasks := Some [(js "h", emptyTask)] |}.

(** C9 as stated fails: the task [h] has no command, but the command line
    [h] is answered with the root help; nothing fails, no error is printed
    and the process does not exit with a status. *)
Lemma C9_counterexample_empty_task_named_h :
  let st := startup (Some silentConfig) in
  let out := mainRun sampleSystem sampleEnv (Some silentConfig) initialIdentity
               (fun _ => resolve tt) st interactive SelectorError [js "h"]
               freshRun in
  lookupTask (Some silentConfig) (js "h") = Some emptyTask
  /\ task_cmds emptyTask = Some []
  /\ commandRegistry st !! js "h"
     = Some (WithTelemetry (js "h") (HConfiguredTask (js "h") emptyTask))
  /\ out = (printRootHelp initialIdentity, freshRun)
  /\ invoked out.1 = []
  /\ Forall (fun e => match e with
                      | ConsoleError _ | ProcessExit _ => False
                      | _ => True
                      end) out.1.
Proof.
  cbv zeta.
  split; [reflexivity|]. split; [reflexivity|].
  split; [vm_compute; reflexivity|].
  rewrite mainRun_word by (unfold topLevelWords; elem_of_list).
  split; [done|]. split; [done|].
  cbn [fst]. change (handleTopLevel initialIdentity [js "h"]).2
    with (printRootHelp initialIdentity).
  unfold printRootHelp, log, heading. repeat constructor.
Qed.

(** A configuration whose [setup] task has no command. *)
Definition setupConfig : OneFConfig :=
  {| app := None; secrets := None; tasks := Some [(js "setup", emptyTask)] |}.

Lemma C9_empty_task_witness :
  mainRun sampleSystem sampleEnv (Some ciConfig) initialIdentity
    (fun _ => resolve tt) (startup (Some ciConfig)) interactive SelectorError
    [js "noop"] freshRun
  = ([TrackTelemetry info (js "command_start") (js "noop");
      Invoke (HConfiguredTask (js "noop") emptyTask);
      TrackTelemetry error (js "command_failure") (js "noop");
      ConsoleError (js "Task 'noop' has no commands to run");
      ProcessExit 1],
     freshRun)
  /\ runSetup sampleSystem sampleEnv (Some setupConfig) freshRun
     = ({| world := 0%nat; spawned := [];
           printed := [js "No secrets defined in 1f.toml.";
                       js "Running setup task commands..."] |},
        Rejected (js "Task 'setup' has no commands to run")).
Proof.
  split.
  - destruct (C9_empty_task_fails_when_invoked sampleSystem sampleEnv
                (Some ciConfig) initialIdentity (fun _ => resolve tt)
                ciConfig (js "noop") emptyTask) as (_ & _ & _ & Hmain & _).
    + reflexivity.
    + right. reflexivity.
    + apply Hmain.
      * refine (bool_decide_unpack _ _). vm_compute. exact I.
      * reflexivity.
      * refine (bool_decide_unpack _ _). vm_compute. exact I.
      * reflexivity.
  - destruct (C9_empty_task_fails_when_invoked sampleSystem sampleEnv
                (Some setupConfig) initialIdentity (fun _ => resolve tt)
                setupConfig (js "setup") emptyTask)
      as (_ & _ & _ & _ & Hsetup & _).
    + reflexivity.
    + right. reflexivity.
    + destruct (Hsetup eq_refl eq_refl eq_refl interactive SelectorError []
                  freshRun eq_refl) as (Hrun & _).
      exact Hrun.
Defined.

(** ** The lines of the palette *)

(** The line [selectCommandArgs] writes to the selector for an entry of
    the catalog. *)
Definition paletteLine (e : CommandCatalogEntry) : jsstring :=
  name e ++ [TAB] ++ description e ++ [LF].

(** A code unit that may stand in a name shown in the palette: no line
    break and no tab. *)
Definition nameUnit (c : N) : bool := (notBreak c && negb (c =? TAB)%N)%bool.

Lemma splitLinesFrom_pre (pre cur rest : jsstring) :
  forallb notBreak pre = true ->
  splitLinesFrom cur (pre ++ rest) = splitLinesFrom (cur ++ pre) rest.
Proof.
  revert cur. induction pre as [|c pre IH]; intros cur Hpre.
  - by rewrite app_nil_r.
  - simpl in Hpre. apply andb_true_iff in Hpre as [Hc Hpre].
    unfold notBreak in Hc. apply negb_true_iff, orb_false_iff in Hc as [Hlf Hcr].
    rewrite <- app_comm_cons, splitLinesFrom_cons by done.
    rewrite IH by done. by rewrite <- app_assoc.
Qed.

(** The first piece of a split starts with what was read so far. *)
Lemma splitLinesFrom_head (n : nat) (s cur : jsstring) :
  (length s <= n)%nat ->
  exists t more, splitLinesFrom cur s = (cur ++ t) :: more.
Proof.
  revert s cur. induction n as [|n IH]; intros s cur Hlen.
  - destruct s; [|simpl in Hlen; lia]. exists [], []. by rewrite app_nil_r.
  - destruct s as [|c rest]; [exists [], []; by rewrite app_nil_r|].
    simpl in Hlen. simpl.
    destruct (c =? LF)%N; [exists []; eexists; by rewrite app_nil_r|].
    destruct rest as [|d rest'].
    + exists [c], []. done.
    + destruct ((c =? CR)%N && (d =? LF)%N)%bool.
      * exists []. eexists. by rewrite app_nil_r.
      * destruct (IH (d :: rest') (cur ++ [c])) as (t & more & ->);
          [simpl in *; lia|].
        exists (c :: t), more. by rewrite <- app_assoc.
Qed.

Lemma dropWhile_length {A : Type} (p : A -> bool) (l : list A) :
  (length (dropWhile p l) <= length l)%nat.
Proof.
  induction l as [|a l IH]; simpl; [lia|]. destruct (p a); simpl; lia.
Qed.

Lemma dropWhileEnd_length {A : Type} (p : A -> bool) (l : list A) :
  (length (dropWhileEnd p l) <= length l)%nat.
Proof.
  unfold dropWhileEnd. rewrite length_rev, <- (length_rev l).
  apply dropWhile_length.
Qed.

(** A text that [trim] leaves as it is does not start with white space. *)
Lemma trimmed_head (c : N) (s : jsstring) :
  trim (c :: s) = c :: s -> isWhiteSpace c = false.
Proof.
  unfold trim, trimStart, trimEnd. intros H.
  destruct (isWhiteSpace c) eqn:E; [|done]. exfalso.
  assert (Hlen : (length (c :: s) <= length s)%nat).
  { rewrite <- H at 1. simpl dropWhile. rewrite E.
    etransitivity; [apply dropWhileEnd_length | apply dropWhile_length]. }
  simpl in Hlen. lia.
Qed.

Lemma ink_not_blank (line : jsstring) (c : N) :
  c ∈ line -> isWhiteSpace c = false -> truthy (trim line) = true.
Proof.
  intros Hc Hink. unfold trim, trimStart, trimEnd.
  assert (H : c ∈ dropWhileEnd isWhiteSpace (dropWhile isWhiteSpace line)).
  { apply dropWhileEnd_keeps; [|done]. by apply dropWhile_keeps. }
  destruct (dropWhileEnd _ _); [by apply elem_of_nil in H | done].
Qed.

Lemma beforeFirstTab_name (nm rest : jsstring) :
  forallb nameUnit nm = true -> beforeFirstTab (nm ++ TAB :: rest) = nm.
Proof.
  induction nm as [|c nm IH]; simpl; [done|].
  intros [Hc Hnm]%andb_true_iff. unfold nameUnit in Hc.
  apply andb_true_iff in Hc as [_ Hc]. apply negb_true_iff in Hc.
  by rewrite Hc, IH.
Qed.

Lemma nameUnit_notBreak (nm : jsstring) :
  forallb nameUnit nm = true -> forallb notBreak nm = true.
Proof.
  induction nm as [|c nm IH]; simpl; [done|].
  intros [Hc Hnm]%andb_true_iff. unfold nameUnit in Hc.
  apply andb_true_iff in Hc as [Hc _]. by rewrite Hc, IH.
Qed.

(** X10. The selector answers with a line of the palette: when the name is not
    empty, has no surrounding white space, no tab and no line break, the
    palette yields that very name as the command, whatever the description
    is.  So every such entry of the catalog can be chosen and is then
    dispatched under its own name. *)
Theorem palette_line_roundtrip (nm tail : jsstring) :
  nm <> [] -> trim nm = nm -> forallb nameUnit nm = true ->
  selectCommandArgs interactive (SelectorClose (Some 0) (nm ++ TAB :: tail))
  = PaletteCommand [nm]
  /\ (forall descr,
        selectCommandArgs interactive
          (SelectorClose (Some 0) (paletteLine {| name := nm; description := descr |}))
        = PaletteCommand [nm])
  /\ (forall outcome id st,
        main outcome id st interactive
          (SelectorClose (Some 0) (nm ++ TAB :: tail)) []
        = dispatch outcome id st [nm]).
Proof.
  intros Hne Htrim Hunits.
  assert (Hsel : forall tl,
            selectCommandArgs interactive (SelectorClose (Some 0) (nm ++ TAB :: tl))
            = PaletteCommand [nm]).
  { intros tl. unfold selectCommandArgs. simpl.
    unfold splitLines.
    rewrite (splitLinesFrom_pre nm [] (TAB :: tl))
      by (by apply nameUnit_notBreak).
    change ([] ++ nm) with nm. rewrite splitLinesFrom_cons by done.
    destruct (splitLinesFrom_head (length tl) tl (nm ++ [TAB])) as (t & more & ->);
      [done|].
    assert (Hink : truthy (trim ((nm ++ [TAB]) ++ t)) = true).
    { destruct nm as [|c nm']; [done|].
      apply (ink_not_blank _ c); [apply list_elem_of_here|].
      by apply (trimmed_head c nm'). }
    unfold firstNonBlank. simpl.
    rewrite truthy_length in Hink. rewrite Hink.
    assert (Ht : truthy ((nm ++ [TAB]) ++ t) = true) by (by destruct nm).
    rewrite Ht. simpl. rewrite <- app_assoc. simpl.
    rewrite beforeFirstTab_name by done. rewrite Htrim.
    by destruct nm. }
  split; [apply Hsel|]. split.
  - intros descr. unfold paletteLine. simpl. apply Hsel.
  - intros outcome id st. unfold main. by rewrite Hsel.
Qed.

Lemma palette_line_roundtrip_witness :
  selectCommandArgs interactive
    (SelectorClose (Some 0)
       (paletteLine {| name := js "dbClear";
                       description := js "Remove all data from the project SQLite database" |}))
  = PaletteCommand [js "dbClear"].
Proof.
  destruct (palette_line_roundtrip (js "dbClear") []) as (_ & Hline & _).
  - discriminate.
  - reflexivity.
  - reflexivity.
  - apply Hline.
Defined.

(** ** The order of the catalog *)

Definition isBuiltinName (n : jsstring) : bool := bool_decide (n ∈ builtinNames).

Lemma registerBuiltins_catalog :
  name <$> commandCatalog (registerBuiltins initialCommands)
  = js "help" :: builtinNames.
Proof. reflexivity. Qed.

Lemma find_registration (rs : list Registration) (n : jsstring) :
  is_Some (List.find (fun r => streq (reg_name r) n) rs)
  <-> n ∈ (reg_name <$> rs).
Proof.
  induction rs as [|r rs IH]; simpl.
  - split; [by intros [? ?] | by intros ?%elem_of_nil].
  - destruct (streq (reg_name r) n) eqn:E.
    + apply streq_spec in E. subst.
      split; [intros _; apply list_elem_of_here | eauto].
    + rewrite IH. split; [apply list_elem_of_further|].
      intros [Heq|H]%elem_of_cons; [|done].
      rewrite Heq, streq_refl in E. done.
Qed.

Lemma registerBuiltins_registered (n : jsstring) :
  is_Some (commandRegistry (registerBuiltins initialCommands) !! n)
  <-> n ∈ builtinNames.
Proof.
  rewrite registerBuiltins_spec, fold_register_spec_lookup.
  change (commandRegistry initialCommands !! n) with (@None TelemetryHandler).
  cbv iota. unfold builtinNames. rewrite <- find_registration.
  by rewrite fmap_is_Some.
Qed.

(** The loop of [registerConfigTasks] appends, in order, the tasks whose
    name is not registered yet, when the names of the table are distinct. *)
Lemma registerConfigTasks_catalog (entries : list (jsstring * OneFTaskConfig))
    (st : Commands) (taken : jsstring -> bool) :
  NoDup (fst <$> entries) ->
  (forall n, n ∈ (fst <$> entries) ->
             (is_Some (commandRegistry st !! n) <-> taken n = true)) ->
  name <$> commandCatalog (fold_left registerConfigTask entries st)
  = (name <$> commandCatalog st)
      ++ List.filter (fun n => negb (taken n)) (fst <$> entries).
Proof.
  revert st. induction entries as [|[k c] entries IH]; intros st Hnd Hreg.
  - simpl. by rewrite app_nil_r.
  - rewrite fmap_cons in Hnd. apply NoDup_cons in Hnd as [Hk Hnd].
    cbn [fold_left fmap list_fmap fst List.filter].
    pose proof (Hreg k (list_elem_of_here _ _)) as Hkreg.
    unfold registerConfigTask at 2. cbn [fst].
    destruct (taken k) eqn:Et; simpl negb; cbv iota.
    + rewrite bool_decide_eq_true_2 by (by apply Hkreg).
      apply IH; [done|]. intros n Hn. apply Hreg. by apply list_elem_of_further.
    + rewrite bool_decide_eq_false_2
        by (intros H; apply Hkreg in H; congruence).
      rewrite IH; [|done|].
      * simpl. rewrite fmap_app. simpl. by rewrite <- app_assoc.
      * intros n Hn. simpl.
        assert (Hne : k <> n) by (intros ->; done).
        rewrite lookup_insert_ne by done.
        apply Hreg. by apply list_elem_of_further.
Qed.

(** X11. The catalog lists [help], then the ten built-ins in the order of
    [main], then the tasks of the configuration in the order of their table,
    without those whose name is a built-in's.  This is the order of the
    palette. *)
Theorem catalog_order (config : OneFConfig)
    (entries : list (jsstring * OneFTaskConfig)) :
  tasks config = Some entries -> NoDup (fst <$> entries) ->
  name <$> commandCatalog (startup (Some config))
  = js "help" :: builtinNames
      ++ List.filter (fun n => negb (isBuiltinName n)) (fst <$> entries).
Proof.
  intros Htasks Hnd. unfold startup, registerConfigTasks. rewrite Htasks.
  rewrite (registerConfigTasks_catalog entries _ isBuiltinName Hnd).
  - by rewrite registerBuiltins_catalog.
  - intros n _. rewrite registerBuiltins_registered. unfold isBuiltinName.
    by rewrite bool_decide_eq_true.
Qed.

Lemma catalog_order_witness :
  name <$> commandCatalog (startup (Some sampleConfig))
  = js "help" :: builtinNames ++ [js "dev"].
Proof.
  apply (catalog_order sampleConfig
           [(js "commit", sampleTask "echo hijack"); (js "dev", sampleTask "bun dev")]).
  - reflexivity.
  - refine (bool_decide_unpack _ _). vm_compute. exact I.
Defined.

(** ** Environment values *)

(** X12. [lookupNonEmptyEnv] returns the trimmed value of the variable and never
    an empty or blank one: a variable that is missing, empty or all white
    space gives nothing. *)
Theorem lookupNonEmptyEnv_value (env : Env) (key : jsstring) :
  match lookupNonEmptyEnv env key with
  | Some value =>
      value <> [] /\ trim value = value
      /\ exists raw, env !! key = Some raw /\ value = trim raw
  | None => forall raw, env !! key = Some raw -> trim raw = []
  end.
Proof.
  destruct (lookupNonEmptyEnv env key) as [value|] eqn:E.
  - destruct (lookupNonEmptyEnv_trimmed env key value E) as (Ht & Htrim & Hraw).
    split; [by destruct value|]. by split.
  - intros raw Hraw. unfold lookupNonEmptyEnv in E. rewrite Hraw in E.
    destruct raw as [|c raw]; [done|]. simpl truthy in E. cbv iota in E.
    destruct (0 <? _) eqn:El; [done|].
    rewrite <- truthy_length in El. by destruct (trim (c :: raw)).
Qed.

(** ** A task command that cannot be started *)

Section SpawnError.
Context {World : Type} (sys : System World).

(** X13. When [bash] cannot be started for a command of a task (the child
    emits [error]), the task stops there as for a failing command: the
    commands before it ran, nothing after it is started, and the task
    rejects with the error of the child as it is. *)
Theorem task_spawn_error_stops (loaded : option OneFConfig) (nm : jsstring)
    (taskConfig : OneFTaskConfig) (pre post : list jsstring) (c failure : jsstring)
    (r : Run World) (w1 w2 : World) :
  task_cmds taskConfig = Some (pre ++ c :: post) ->
  allSucceed sys pre (world r) w1 ->
  spawnInherit sys (bashLine c) w1 = (w2, ChildError failure) ->
  runConfiguredTask sys loaded nm (Some taskConfig) r
  = (afterCommands r (pre ++ [c]) w2, Rejected failure).
Proof.
  intros Hcmds Hpre Hfail.
  rewrite (runConfiguredTask_commands sys loaded nm taskConfig (pre ++ c :: post))
    by (done || by destruct pre).
  assert (H : forall w, allSucceed sys pre w w1 ->
            spawnInherit sys (bashLine c) w1 = (w2, ChildError failure) ->
            forall r', world r' = w ->
              forEach (fun command => executeTaskCommand sys command nm)
                (pre ++ c :: post) r'
              = (afterCommands r' (pre ++ [c]) w2, Rejected failure)).
  { clear. intros w.
    induction 1 as [w|c' cs w w' w'' Hc Hcs IH]; intros Hfail r Hr; simpl.
    - unfold andThen. by rewrite executeTaskCommand_run, Hr, Hfail.
    - unfold andThen. rewrite executeTaskCommand_run, Hr, Hc. simpl.
      rewrite IH by done. by rewrite afterCommands_app. }
  by apply (H (world r)).
Qed.
End SpawnError.

(** A system in which no child can be started. *)
Definition brokenSystem : System nat :=
  {| spawnInherit argv w := (S w, ChildError (js "spawn bash ENOENT"));
     execFileAsync argv w := (S w, Rejected (js "spawn git ENOENT"));
     streamText system prompt w := (w, Rejected (js "fetch failed")) |}.

Lemma task_spawn_error_stops_witness :
  runConfiguredTask brokenSystem None (js "ci") (Some ciTask) freshRun
  = ({| world := 1%nat; spawned := [bashLine (js "echo a")]; printed := [] |},
     Rejected (js "spawn bash ENOENT")).
Proof.
  apply (task_spawn_error_stops brokenSystem None (js "ci") ciTask []
           [js "false"; js "echo b"] (js "echo a") (js "spawn bash ENOENT")
           freshRun 0%nat 1%nat).
  - reflexivity.
  - apply allSucceed_nil.
  - reflexivity.
Defined.

(** ** Telemetry *)

(** The two module variables of telemetry: whether [telemetryLogger] is
    defined, and [telemetryNoticeShown]. *)
Record TelemetryState := {
  loggerDefined : bool;
  noticeShown : bool
}.

Inductive TelemetryEffect :=
| LoggerCall (level : TelemetryLevel) (event : jsstring)
| ConsoleWarn (line : jsstring).

(** [trackTelemetry]: a call of the logger method of the level, when there
    is a logger. *)
Definition trackTelemetry (level : TelemetryLevel) (event : jsstring)
    (st : TelemetryState) : list TelemetryEffect :=
  if negb (loggerDefined st) then [] else [LoggerCall level event].

(** [handleTelemetryFailure]; [debugEnabled] is [TELEMETRY_DEBUG_ENABLED]
    and [failure] the text of the error. *)
Definition handleTelemetryFailure (debugEnabled : bool) (failure : jsstring)
    (st : TelemetryState) : TelemetryState * list TelemetryEffect :=
  if (debugEnabled && negb (noticeShown st))%bool
  then ({| loggerDefined := false; noticeShown := true |},
        [ConsoleWarn (js "[telemetry] disabled: " ++ failure)])
  else ({| loggerDefined := false; noticeShown := noticeShown st |}, []).

(** What happens to telemetry during a run: an event is tracked, or a
    pending call of the logger (or its creation) fails. *)
Inductive TelemetryStep :=
| StepTrack (level : TelemetryLevel) (event : jsstring)
| StepFailure (failure : jsstring).

Definition telemetryStep (debugEnabled : bool)
    (acc : TelemetryState * list TelemetryEffect) (step : TelemetryStep)
  : TelemetryState * list TelemetryEffect :=
  match step with
  | StepTrack level event => (acc.1, acc.2 ++ trackTelemetry level event acc.1)
  | StepFailure failure =>
      let '(st, out) := handleTelemetryFailure debugEnabled failure acc.1 in
      (st, acc.2 ++ out)
  end.

Definition runTelemetry (debugEnabled : bool) (steps : list TelemetryStep)
    (st : TelemetryState) : TelemetryState * list TelemetryEffect :=
  fold_left (telemetryStep debugEnabled) steps (st, []).

Definition loggerCalls (out : list TelemetryEffect) : list TelemetryEffect :=
  List.filter (fun e => match e with LoggerCall _ _ => true | _ => false end) out.

Definition warnings (out : list TelemetryEffect) : list TelemetryEffect :=
  List.filter (fun e => match e with ConsoleWarn _ => true | _ => false end) out.

Lemma telemetry_fold (debugEnabled : bool) (steps : list TelemetryStep)
    (st : TelemetryState) (out : list TelemetryEffect) :
  fold_left (telemetryStep debugEnabled) steps (st, out)
  = ((runTelemetry debugEnabled steps st).1,
     out ++ (runTelemetry debugEnabled steps st).2).
Proof.
  unfold runTelemetry. revert st out.
  induction steps as [|step steps IH]; intros st out; simpl.
  - by rewrite app_nil_r.
  - assert (Hstep : telemetryStep debugEnabled (st, out) step
                    = ((telemetryStep debugEnabled (st, []) step).1,
                       out ++ (telemetryStep debugEnabled (st, []) step).2)).
    { destruct step as [level event|failure]; simpl; [done|].
      by destruct (handleTelemetryFailure debugEnabled failure st). }
    rewrite Hstep.
    destruct (telemetryStep debugEnabled (st, []) step) as [st' out'].
    cbn [fst snd]. rewrite IH, (IH st' out'). cbn [fst snd].
    by rewrite app_assoc.
Qed.

Lemma telemetry_cons (debugEnabled : bool) (step : TelemetryStep)
    (steps : list TelemetryStep) (st : TelemetryState) :
  runTelemetry debugEnabled (step :: steps) st
  = let first := telemetryStep debugEnabled (st, []) step in
    ((runTelemetry debugEnabled steps first.1).1,
     first.2 ++ (runTelemetry debugEnabled steps first.1).2).
Proof.
  unfold runTelemetry at 1. simpl fold_left.
  destruct (telemetryStep debugEnabled (st, []) step) as [st' out] eqn:E.
  by rewrite telemetry_fold.
Qed.

(** Without a logger nothing is sent, whatever happens. *)
Lemma telemetry_silent (debugEnabled : bool) (steps : list TelemetryStep)
    (st : TelemetryState) :
  loggerDefined st = false ->
  loggerCalls (runTelemetry debugEnabled steps st).2 = []
  /\ loggerDefined (runTelemetry debugEnabled steps st).1 = false.
Proof.
  revert st. induction steps as [|step steps IH]; intros st Hst; [done|].
  rewrite telemetry_cons. cbv zeta. simpl.
  destruct step as [level event|failure]; simpl.
  - unfold trackTelemetry. rewrite Hst. simpl. by apply IH.
  - unfold handleTelemetryFailure.
    destruct (debugEnabled && negb (noticeShown st))%bool; simpl; by apply IH.
Qed.

Lemma telemetry_warnings (debugEnabled : bool) (steps : list TelemetryStep)
    (st : TelemetryState) :
  (length (warnings (runTelemetry debugEnabled steps st).2) <= 1)%nat
  /\ ((debugEnabled = false \/ noticeShown st = true) ->
      warnings (runTelemetry debugEnabled steps st).2 = []).
Proof.
  revert st. induction steps as [|step steps IH]; intros st.
  - split; [simpl; lia | done].
  - rewrite telemetry_cons. cbv zeta.
    destruct step as [level event|failure]; simpl.
    + unfold warnings, trackTelemetry.
      destruct (negb (loggerDefined st)); simpl; apply IH.
    + unfold handleTelemetryFailure.
      destruct debugEnabled, (noticeShown st) eqn:En; simpl.
      * destruct (IH {| loggerDefined := false; noticeShown := true |}) as [H1 H2].
        split; [done|]. intros _. apply H2. by right.
      * destruct (IH {| loggerDefined := false; noticeShown := true |}) as [_ H2].
        unfold warnings in *. simpl. rewrite H2 by (by right).
        split; [simpl; lia|]. by intros [?|?].
      * destruct (IH {| loggerDefined := false; noticeShown := true |}) as [H1 H2].
        split; [done|]. intros _. apply H2. by left.
      * destruct (IH {| loggerDefined := false; noticeShown := false |}) as [H1 H2].
        split; [done|]. intros _. apply H2. by left.
Qed.

Lemma runTelemetry_app (debugEnabled : bool) (pre post : list TelemetryStep)
    (st : TelemetryState) :
  runTelemetry debugEnabled (pre ++ post) st
  = ((runTelemetry debugEnabled post (runTelemetry debugEnabled pre st).1).1,
     (runTelemetry debugEnabled pre st).2
       ++ (runTelemetry debugEnabled post (runTelemetry debugEnabled pre st).1).2).
Proof.
  unfold runTelemetry at 1. rewrite fold_left_app.
  fold (runTelemetry debugEnabled pre st).
  destruct (runTelemetry debugEnabled pre st) as [st' out].
  by rewrite telemetry_fold.
Qed.

Lemma loggerCalls_app (o1 o2 : list TelemetryEffect) :
  loggerCalls (o1 ++ o2) = loggerCalls o1 ++ loggerCalls o2.
Proof. apply List.filter_app. Qed.

(** X14. Telemetry fails quietly and once: after the first failure no logger
    method is called any more, whatever is tracked later; the notice
    [[telemetry] disabled] is printed at most once in a run, and never when
    the debug flag is off. *)
Theorem telemetry_fails_once (debugEnabled : bool) (st : TelemetryState)
    (pre post : list TelemetryStep) (failure : jsstring) :
  let out := (runTelemetry debugEnabled (pre ++ StepFailure failure :: post) st).2 in
  loggerCalls out = loggerCalls (runTelemetry debugEnabled pre st).2
  /\ (length (warnings out) <= 1)%nat
  /\ (debugEnabled = false -> warnings out = [])
  /\ loggerDefined
       (runTelemetry debugEnabled (pre ++ StepFailure failure :: post) st).1
     = false.
Proof.
  cbv zeta. split; [|split; [|split]].
  - rewrite runTelemetry_app. cbn [snd]. rewrite loggerCalls_app.
    rewrite telemetry_cons. cbv zeta. cbn [telemetryStep fst snd].
    destruct (handleTelemetryFailure debugEnabled failure _) as [st' o] eqn:E.
    cbn [fst snd]. rewrite !loggerCalls_app.
    assert (Hst' : loggerDefined st' = false /\ loggerCalls o = []).
    { unfold handleTelemetryFailure in E.
      destruct (_ && _)%bool; by injection E as <- <-. }
    destruct Hst' as [Hl Ho].
    rewrite Ho, (proj1 (telemetry_silent debugEnabled post st' Hl)).
    by rewrite app_nil_r.
  - apply telemetry_warnings.
  - intros Hd. apply telemetry_warnings. by left.
  - rewrite runTelemetry_app. cbn [fst]. rewrite telemetry_cons. cbv zeta.
    cbn [telemetryStep fst snd].
    destruct (handleTelemetryFailure debugEnabled failure _) as [st' o] eqn:E.
    cbn [fst]. apply telemetry_silent.
    unfold handleTelemetryFailure in E.
    destruct (_ && _)%bool; by injection E as <- <-.
Qed.

(** ** SQLite helpers *)

(** The global [replace] of [quoteSQLiteIdentifier]: every double quote
    becomes two. *)
Definition doubleQuotes (nm : jsstring) : jsstring :=
  flat_map (fun c => if (c =? DQUOTE)%N then [DQUOTE; DQUOTE] else [c]) nm.

Definition quoteSQLiteIdentifier (nm : jsstring) : jsstring :=
  [DQUOTE] ++ doubleQuotes nm ++ [DQUOTE].

(** How SQL reads the inside of a quoted identifier: up to the first quote
    that is not doubled, a doubled quote standing for one quote.  Returns
    the identifier and the text after its closing quote. *)
Fixpoint readQuotedBody (s : jsstring) : option (jsstring * jsstring) :=
  match s with
  | [] => None
  | c :: rest =>
      if (c =? DQUOTE)%N
      then match rest with
           | d :: rest' =>
               if (d =? DQUOTE)%N
               then (fun p => (DQUOTE :: p.1, p.2)) <$> readQuotedBody rest'
               else Some ([], rest)
           | [] => Some ([], [])
           end
      else (fun p => (c :: p.1, p.2)) <$> readQuotedBody rest
  end.

Definition readQuotedIdentifier (s : jsstring) : option (jsstring * jsstring) :=
  match s with
  | c :: rest => if (c =? DQUOTE)%N then readQuotedBody rest else None
  | [] => None
  end.

(** X15. Quoting a table name and reading it back as SQL does gives the name
    again, whatever it holds, and the text that follows it untouched: a
    quote inside a name cannot end the identifier. *)
Theorem quoteSQLiteIdentifier_roundtrip (nm rest : jsstring) :
  hd 0%N rest <> DQUOTE ->
  readQuotedIdentifier (quoteSQLiteIdentifier nm ++ rest) = Some (nm, rest).
Proof.
  intros Hrest. unfold quoteSQLiteIdentifier, readQuotedIdentifier. simpl.
  induction nm as [|c nm IH]; simpl.
  - destruct rest as [|d rest]; [done|]. simpl in Hrest.
    by rewrite (proj2 (N.eqb_neq d DQUOTE)).
  - destruct (c =? DQUOTE)%N eqn:E; simpl.
    + apply N.eqb_eq in E. subst. by rewrite IH.
    + by rewrite E, IH.
Qed.

Lemma quoteSQLiteIdentifier_roundtrip_witness :
  readQuotedIdentifier
    (quoteSQLiteIdentifier (js "a" ++ [DQUOTE] ++ js "; DROP TABLE b; --") ++ js ";")
  = Some (js "a" ++ [DQUOTE] ++ js "; DROP TABLE b; --", js ";").
Proof.
  apply (quoteSQLiteIdentifier_roundtrip
           (js "a" ++ [DQUOTE] ++ js "; DROP TABLE b; --") (js ";")).
  discriminate.
Defined.

(** The names [listSQLiteTables] reads from the output of [sqlite3]:
    [split(/\r?\n/)], [trim] on every line, empty lines dropped. *)
Definition tableNames (stdout : jsstring) : list jsstring :=
  List.filter (fun line => 0 <? Z.of_nat (length line)) (trim <$> splitLines stdout).

Lemma splitLinesFrom_no_LF (n : nat) (s cur : jsstring) :
  (length s <= n)%nat -> LF ∉ cur ->
  Forall (fun piece => LF ∉ piece) (splitLinesFrom cur s).
Proof.
  revert s cur. induction n as [|n IH]; intros s cur Hlen Hcur.
  - destruct s; [|simpl in Hlen; lia]. by repeat constructor.
  - destruct s as [|c rest]; [by repeat constructor|].
    simpl in Hlen. simpl.
    destruct (c =? LF)%N eqn:Ec.
    { constructor; [done|]. apply IH; [lia | by apply not_elem_of_nil]. }
    apply N.eqb_neq in Ec.
    assert (Hcur' : LF ∉ cur ++ [c]).
    { intros [H|H]%elem_of_app; [done|].
      apply list_elem_of_singleton in H. congruence. }
    destruct rest as [|d rest'].
    + by repeat constructor.
    + destruct ((c =? CR)%N && (d =? LF)%N)%bool.
      * constructor; [done|]. apply IH; [simpl in *; lia | by apply not_elem_of_nil].
      * apply IH; [simpl in *; lia | done].
Qed.

Lemma dropWhileEnd_subset {A : Type} (p : A -> bool) (l : list A) (x : A) :
  x ∈ dropWhileEnd p l -> x ∈ l.
Proof.
  unfold dropWhileEnd. intros H.
  apply list_elem_of_In, in_rev, list_elem_of_In in H.
  apply dropWhile_subset in H.
  by apply list_elem_of_In, in_rev, list_elem_of_In.
Qed.

(** X16. Every table name [listSQLiteTables] returns is non-empty, has no white
    space around it and no line feed in it; blank lines of the output give
    no name. *)
Theorem tableNames_clean (stdout nm : jsstring) :
  nm ∈ tableNames stdout ->
  nm <> [] /\ trim nm = nm /\ (LF ∉ nm)
  /\ exists line, line ∈ splitLines stdout /\ nm = trim line.
Proof.
  unfold tableNames. intros H.
  apply list_elem_of_In, filter_In in H as [H Hlen].
  apply list_elem_of_In, list_elem_of_fmap in H as (line & -> & Hline).
  split; [by destruct (trim line)|]. split; [apply trim_idempotent|].
  split; [|by exists line].
  pose proof (splitLinesFrom_no_LF (length stdout) stdout [] (le_n _)
                (not_elem_of_nil _)) as Hall.
  rewrite Forall_forall in Hall. intros Hin. apply (Hall line Hline).
  unfold trim, trimStart, trimEnd in Hin.
  by apply dropWhileEnd_subset, dropWhile_subset in Hin.
Qed.

Lemma tableNames_clean_witness :
  js "users" <> [] /\ trim (js "users") = js "users".
Proof.
  destruct (tableNames_clean (js "users" ++ [CR; LF] ++ js "  " ++ [LF] ++ js "posts" ++ [LF])
              (js "users")) as (H1 & H2 & _).
  - apply list_elem_of_here.
  - by split.
Defined.

(** ** The list of tasks *)

(** [s.padEnd(n)]: spaces are added up to [n] code units. *)
Definition padEnd (n : nat) (s : jsstring) : jsstring :=
  s ++ repeat SPACE (n - length s).

(** The [reduce] of [runTasksList]: the length of the longest name. *)
Definition longestName (entries : list (jsstring * OneFTaskConfig)) : nat :=
  fold_left (fun acc e => Nat.max acc (length e.1)) entries 0%nat.

(** The line [runTasksList] prints for one task. *)
Definition taskLine (longest : nat) (entry : jsstring * OneFTaskConfig) : jsstring :=
  let '(taskName, taskConfig) := entry in
  let padded := padEnd longest taskName in
  let cmdCount := Z.of_nat (length (default [] (task_cmds taskConfig))) in
  let descr := default (js "(no description)") (task_desc taskConfig) in
  let suffix :=
    js " (" ++ Number_toString cmdCount ++ js " cmd"
      ++ (if (cmdCount =? 1) then [] else js "s") ++ js ")" in
  js "  " ++ padded ++ js "  " ++ descr ++ suffix.

(** [loaded] is what [loadOneFConfig()] returns. *)
Definition runTasksList {World : Type} (loaded : option OneFConfig)
  : Async World unit :=
  match loaded ≫= tasks with
  | None => consoleLog (js "No tasks defined in " ++ ONE_F_CONFIG_FILENAME ++ js ".")
  | Some entries =>
      if (Z.of_nat (length entries) =? 0)
      then consoleLog (js "No tasks defined in " ++ ONE_F_CONFIG_FILENAME ++ js ".")
      else
        consoleLog (js "Tasks defined in " ++ ONE_F_CONFIG_FILENAME ++ js ":" ++ [LF]) ;;
        forEach (fun entry => consoleLog (taskLine (longestName entries) entry)) entries
  end.

Lemma longestName_from (entries : list (jsstring * OneFTaskConfig)) (acc : nat) :
  (acc <= fold_left (fun a e => Nat.max a (length e.1)) entries acc)%nat
  /\ forall e, e ∈ entries ->
       (length e.1 <= fold_left (fun a e => Nat.max a (length e.1)) entries acc)%nat.
Proof.
  revert acc. induction entries as [|x entries IH]; intros acc; simpl.
  - split; [lia|]. by intros e ?%elem_of_nil.
  - destruct (IH (Nat.max acc (length x.1))) as [H1 H2]. split; [lia|].
    intros e [->|He]%elem_of_cons; [lia | by apply H2].
Qed.

Lemma forEach_consoleLog_map {World : Type} {A : Type} (f : A -> jsstring)
    (xs : list A) (r : Run World) :
  forEach (fun x => consoleLog (f x)) xs r
  = ({| world := world r; spawned := spawned r;
        printed := printed r ++ (f <$> xs) |}, Resolved tt).
Proof.
  revert r. induction xs as [|x xs IH]; intros r; simpl.
  - unfold resolve. destruct r. simpl. by rewrite app_nil_r.
  - unfold andThen, consoleLog at 1. rewrite IH. simpl. by rewrite <- app_assoc.
Qed.

(** X17. [runTasksList] prints a heading and one line per task, in the order of
    the table, and starts nothing.  Every name is padded to the length of
    the longest one, so all descriptions start in the same column. *)
Theorem tasks_list_aligned {World : Type} (config : OneFConfig)
    (entries : list (jsstring * OneFTaskConfig)) (r : Run World) :
  tasks config = Some entries -> entries <> [] ->
  runTasksList (Some config) r
  = ({| world := world r; spawned := spawned r;
        printed := printed r
          ++ (js "Tasks defined in " ++ ONE_F_CONFIG_FILENAME ++ js ":" ++ [LF])
          :: (taskLine (longestName entries) <$> entries) |},
     Resolved tt)
  /\ (forall e, e ∈ entries ->
        length (padEnd (longestName entries) e.1) = longestName entries
        /\ exists rest,
             taskLine (longestName entries) e
             = js "  " ++ padEnd (longestName entries) e.1 ++ js "  " ++ rest).
Proof.
  intros Htasks Hne. split.
  - unfold runTasksList. simpl. rewrite Htasks.
    destruct entries as [|e entries]; [done|].
    change (Z.of_nat (length (e :: entries)) =? 0) with false. cbv iota.
    unfold andThen, consoleLog at 1. rewrite forEach_consoleLog_map. simpl.
    by rewrite <- app_assoc.
  - intros e He. split.
    + unfold padEnd. rewrite length_app, repeat_length.
      destruct (longestName_from entries 0 ) as [_ H]. specialize (H e He).
      unfold longestName. lia.
    + destruct e as [taskName taskConfig]. unfold taskLine. eexists.
      reflexivity.
Qed.

Lemma tasks_list_aligned_witness :
  length (padEnd (longestName (default [] (tasks ciConfig))) (js "ci"))
  = longestName (default [] (tasks ciConfig)).
Proof.
  destruct (tasks_list_aligned (World := nat) ciConfig
              (default [] (tasks ciConfig)) freshRun) as [_ H].
  - reflexivity.
  - discriminate.
  - apply (H (js "ci", ciTask)). apply list_elem_of_here.
Defined.

(** ** The API key *)

(** X18. Without a usable [OPENAI_API_KEY] the commit workflow stops right after
    the check of the repository: the error names the variable and the
    command, and neither [git add] nor anything later was started. *)
Theorem commit_requires_api_key {World : Type} (sys : System World) (env : Env)
    (id : Identity) (label : jsstring) (r r1 : Run World) :
  label = js "commit" \/ label = js "commitPush" ->
  lookupNonEmptyEnv env OPENAI_API_KEY_ENV = None ->
  ensureGitRepository sys r = (r1, Resolved tt) ->
  runCommitPushWorkflow sys env id label r
  = (r1, Rejected (js "OPENAI_API_KEY is not set; export it before running "
                     ++ commandName id ++ js " commit"))
  /\ spawned r1 = spawned r ++ [[js "git"; js "rev-parse"; js "--is-inside-work-tree"]].
Proof.
  intros Hlabel Hkey Hrepo. split.
  - unfold runCommitPushWorkflow.
    assert (Hl : (negb (streq label (js "commit"))
                  && negb (streq label (js "commitPush")))%bool = false).
    { by destruct Hlabel as [-> | ->]. }
    rewrite Hl. unfold andThen, prepareCommit, andThen. rewrite Hrepo.
    unfold resolveOpenAIKey. by rewrite Hkey.
  - by apply ensureGitRepository_spawned in Hrepo as [? _].
Qed.

Lemma commit_requires_api_key_witness :
  runCommitPushWorkflow sampleSystem ∅ initialIdentity (js "commit") freshRun
  = ({| world := 1%nat;
        spawned := [[js "git"; js "rev-parse"; js "--is-inside-work-tree"]];
        printed := [] |},
     Rejected (js "OPENAI_API_KEY is not set; export it before running fast commit")).
Proof.
  apply (commit_requires_api_key sampleSystem ∅ initialIdentity (js "commit")
           freshRun).
  - by left.
  - reflexivity.
  - reflexivity.
Defined.

Lemma trimMatchingQuotes_one_layer_witness :
  trimMatchingQuotes (DQUOTE :: (SQUOTE :: js "Fix bug" ++ [SQUOTE]) ++ [DQUOTE])
  = SQUOTE :: js "Fix bug" ++ [SQUOTE].
Proof.
  destruct trimMatchingQuotes_one_layer as [Hwrapped _].
  apply (Hwrapped DQUOTE). by left.
Defined.

Lemma telemetry_fails_once_witness :
  warnings
    (runTelemetry false
       ([StepTrack info (js "cli_invocation")]
          ++ StepFailure (js "offline") :: [StepTrack info (js "command_start")])
       {| loggerDefined := true; noticeShown := false |}).2
  = [].
Proof.
  destruct (telemetry_fails_once false
              {| loggerDefined := true; noticeShown := false |}
              [StepTrack info (js "cli_invocation")]
              [StepTrack info (js "command_start")] (js "offline"))
    as (_ & _ & Hquiet & _).
  apply Hquiet. reflexivity.
Defined.

(** ** The configuration file ([config.ts]) *)

(** A thrown [Error] with the [code] of a [NodeJS.ErrnoException] when it
    carries one. *)
Record JsError := {
  errorMessage : jsstring;
  errorCode : option jsstring
}.

(** How a call ends: [return] or [throw]. *)
Inductive Settled (A : Type) :=
| Returned (value : A)
| Thrown (error : JsError).
Arguments Returned {A} value.
Arguments Thrown {A} error.

(** [ConfigCache]; [None] in [cache_value] is [null], no configuration
    file. *)
Record ConfigCache := {
  cache_cwd : jsstring;
  cache_value : option OneFConfig
}.

(** The argument of [loadOneFConfig]. *)
Record LoadOptions := {
  option_cwd : option jsstring;
  option_useCache : option bool
}.

(** The module variable [configCache], and every path handed to
    [fs.readFile] so far, oldest first. *)
Record Loader := {
  configCache : option ConfigCache;
  filesRead : list jsstring
}.

Definition clearOneFConfigCache (st : Loader) : Loader :=
  {| configCache := None; filesRead := filesRead st |}.

(** [error instanceof Error && "code" in error && error.code === "ENOENT"]. *)
Definition isENOENT (e : JsError) : bool :=
  match errorCode e with
  | Some code => streq code (js "ENOENT")
  | None => false
  end.

(** [options?.cwd ?? process.cwd()]. *)
Definition cwdOf (processCwd : jsstring) (options : option LoadOptions)
  : jsstring :=
  default processCwd (options ≫= option_cwd).

(** [options?.useCache ?? cwd === process.cwd()]. *)
Definition useCacheOf (processCwd : jsstring) (options : option LoadOptions)
  : bool :=
  default (streq (cwdOf processCwd options) processCwd)
          (options ≫= option_useCache).

Section ConfigFile.

(** [parseOneFConfig] ([parseToml] and [normalizeOneFConfig]) and
    [path.join]. *)
Variable parseOneFConfig : jsstring -> Settled OneFConfig.
Variable join : jsstring -> jsstring -> jsstring.

(** [if (useCache) { configCache = { cwd, value } }]. *)
Definition remember (useCache : bool) (cwd : jsstring)
    (value : option OneFConfig) (st : Loader) : Loader :=
  if useCache
  then {| configCache := Some {| cache_cwd := cwd; cache_value := value |};
          filesRead := filesRead st |}
  else st.

(** The [catch] clause of [loadOneFConfig]. *)
Definition missingOrThrow (useCache : bool) (cwd : jsstring) (e : JsError)
    (st : Loader) : Loader * Settled (option OneFConfig) :=
  if isENOENT e then (remember useCache cwd None st, Returned None)
  else (st, Thrown e).

(** [loadOneFConfig] under the working directory [processCwd] and the file
    system [readFile]. *)
Definition loadOneFConfig (processCwd : jsstring)
    (readFile : jsstring -> Settled jsstring) (options : option LoadOptions)
    (st : Loader) : Loader * Settled (option OneFConfig) :=
  let cwd := cwdOf processCwd options in
  let useCache := useCacheOf processCwd options in
  let fromFile :=
    let configPath := join cwd ONE_F_CONFIG_FILENAME in
    let st1 := {| configCache := configCache st;
                  filesRead := filesRead st ++ [configPath] |} in
    match readFile configPath with
    | Returned raw =>
        match parseOneFConfig raw with
        | Returned config =>
            (remember useCache cwd (Some config) st1, Returned (Some config))
        | Thrown e => missingOrThrow useCache cwd e st1
        end
    | Thrown e => missingOrThrow useCache cwd e st1
    end in
  match configCache st with
  | Some cache =>
      if (useCache && streq (cache_cwd cache) cwd)%bool
      then (st, Returned (cache_value cache))
      else fromFile
  | None => fromFile
  end.

Lemma remember_cache (cwd : jsstring) (value : option OneFConfig)
    (st : Loader) :
  configCache (remember true cwd value st)
  = Some {| cache_cwd := cwd; cache_value := value |}.
Proof. reflexivity. Qed.

Lemma remember_filesRead (useCache : bool) (cwd : jsstring)
    (value : option OneFConfig) (st : Loader) :
  filesRead (remember useCache cwd value st) = filesRead st.
Proof. by destruct useCache. Qed.



(** X20. A load never throws the error of a missing file: when it throws,
    the error is not [ENOENT], exactly the file [1f.toml] of the directory
    was read, and the cache is as before, so that the failure is not
    remembered and the next load reads the file again. *)
Theorem loadOneFConfig_throws (processCwd : jsstring)
    (readFile : jsstring -> Settled jsstring) (options : option LoadOptions)
    (st st1 : Loader) (e : JsError) :
  loadOneFConfig processCwd readFile options st = (st1, Thrown e) ->
  isENOENT e = false
  /\ configCache st1 = configCache st
  /\ filesRead st1
     = filesRead st ++ [join (cwdOf processCwd options) ONE_F_CONFIG_FILENAME]
  /\ (readFile (join (cwdOf processCwd options) ONE_F_CONFIG_FILENAME) = Thrown e
      \/ exists raw,
           readFile (join (cwdOf processCwd options) ONE_F_CONFIG_FILENAME)
           = Returned raw
           /\ parseOneFConfig raw = Thrown e).
Proof.
  unfold loadOneFConfig, missingOrThrow.
  set (cwd := cwdOf processCwd options).
  set (useCache := useCacheOf processCwd options).
  assert (Hfile :
    match readFile (join cwd ONE_F_CONFIG_FILENAME) with
    | Returned raw =>
        match parseOneFConfig raw with
        | Returned config =>
            (remember useCache cwd (Some config)
               {| configCache := configCache st;
                  filesRead := filesRead st ++ [join cwd ONE_F_CONFIG_FILENAME] |},
             Returned (Some config))
        | Thrown e0 =>
            if isENOENT e0
            then (remember useCache cwd None
                    {| configCache := configCache st;
                       filesRead := filesRead st ++ [join cwd ONE_F_CONFIG_FILENAME] |},
                  Returned None)
            else ({| configCache := configCache st;
                     filesRead := filesRead st ++ [join cwd ONE_F_CONFIG_FILENAME] |},
                  Thrown e0)
        end
    | Thrown e0 =>
        if isENOENT e0
        then (remember useCache cwd None
                {| configCache := configCache st;
                   filesRead := filesRead st ++ [join cwd ONE_F_CONFIG_FILENAME] |},
              Returned None)
        else ({| configCache := configCache st;
                 filesRead := filesRead st ++ [join cwd ONE_F_CONFIG_FILENAME] |},
              Thrown e0)
    end = (st1, Thrown e) ->
    isENOENT e = false
    /\ configCache st1 = configCache st
    /\ filesRead st1 = filesRead st ++ [join cwd ONE_F_CONFIG_FILENAME]
    /\ (readFile (join cwd ONE_F_CONFIG_FILENAME) = Thrown e
        \/ exists raw,
             readFile (join cwd ONE_F_CONFIG_FILENAME) = Returned raw
             /\ parseOneFConfig raw = Thrown e)).
  { destruct (readFile _) as [raw|e0].
    - destruct (parseOneFConfig raw) as [config|e0] eqn:Hparse; [discriminate|].
      destruct (isENOENT e0) eqn:Hcode; [discriminate|].
      intros [= <- <-]. repeat split; try done. right. by exists raw.
    - destruct (isENOENT e0) eqn:Hcode; [discriminate|].
      intros [= <- <-]. repeat split; try done. by left. }
  destruct (configCache st) as [cache|] eqn:Hcache; [|exact Hfile].
  destruct (useCache && streq (cache_cwd cache) cwd)%bool;
    [discriminate|exact Hfile].
Qed.

(** How the file of a directory settles a load that has to read it. *)
Definition fileOutcome (readFile : jsstring -> Settled jsstring)
    (cwd : jsstring) : Settled (option OneFConfig) :=
  let absent (e : JsError) := if isENOENT e then Returned None else Thrown e in
  match readFile (join cwd ONE_F_CONFIG_FILENAME) with
  | Returned raw =>
      match parseOneFConfig raw with
      | Returned config => Returned (Some config)
      | Thrown e => absent e
      end
  | Thrown e => absent e
  end.

Lemma loadOneFConfig_uncached (processCwd : jsstring)
    (readFile : jsstring -> Settled jsstring) (options : option LoadOptions)
    (st : Loader) :
  useCacheOf processCwd options = false ->
  loadOneFConfig processCwd readFile options st
  = ({| configCache := configCache st;
        filesRead := filesRead st
                     ++ [join (cwdOf processCwd options) ONE_F_CONFIG_FILENAME] |},
     fileOutcome readFile (cwdOf processCwd options)).
Proof.
  intros Huse. unfold loadOneFConfig, missingOrThrow, fileOutcome.
  rewrite Huse.
  destruct (configCache st) as [cache|]; cbn [andb remember];
    destruct (readFile _) as [raw|e];
    try destruct (parseOneFConfig raw) as [config|e];
    try destruct (isENOENT e); reflexivity.
Qed.

(** X21. A load without the cache neither consults nor changes it: it reads
    the file [1f.toml] of the directory whatever the cache holds, settles
    as it would from any other cache, and leaves the cache as it found
    it. *)
Theorem loadOneFConfig_without_cache (processCwd : jsstring)
    (readFile : jsstring -> Settled jsstring) (options : option LoadOptions)
    (st st' : Loader) :
  useCacheOf processCwd options = false ->
  let out := loadOneFConfig processCwd readFile options st in
  configCache out.1 = configCache st
  /\ filesRead out.1
     = filesRead st ++ [join (cwdOf processCwd options) ONE_F_CONFIG_FILENAME]
  /\ out.2 = (loadOneFConfig processCwd readFile options st').2.
Proof.
  intros Huse. cbv zeta.
  rewrite (loadOneFConfig_uncached _ _ _ st Huse).
  rewrite (loadOneFConfig_uncached _ _ _ st' Huse).
  by repeat split.
Qed.

End ConfigFile.

Definition sampleJoin (dir file : jsstring) : jsstring :=
  dir ++ [SLASH] ++ file.

Definition sampleParse (raw : jsstring) : Settled OneFConfig :=
  if streq raw (js "[tasks.ci]")
  then Returned ciConfig
  else Thrown {| errorMessage := js "Unexpected character"; errorCode := None |}.

Definition noSuchFile : JsError :=
  {| errorMessage := js "ENOENT: no such file or directory";
     errorCode := Some (js "ENOENT") |}.

Definition sampleFiles (path : jsstring) : Settled jsstring :=
  if streq path (js "/repo/1f.toml") then Returned (js "[tasks.ci]")
  else if streq path (js "/broken/1f.toml") then Returned (js "[tasks")
  else Thrown noSuchFile.

Definition freshLoader : Loader := {| configCache := None; filesRead := [] |}.


Lemma loadOneFConfig_throws_witness :
  isENOENT {| errorMessage := js "Unexpected character"; errorCode := None |}
  = false
  /\ filesRead
       (loadOneFConfig sampleParse sampleJoin (js "/broken") sampleFiles None
          freshLoader).1
     = [js "/broken/1f.toml"].
Proof.
  destruct (loadOneFConfig_throws sampleParse sampleJoin (js "/broken")
              sampleFiles None freshLoader
              {| configCache := None; filesRead := [js "/broken/1f.toml"] |}
              {| errorMessage := js "Unexpected character"; errorCode := None |})
    as (Hcode & _ & _ & _).
  - reflexivity.
  - split; [exact Hcode|reflexivity].
Defined.

Lemma loadOneFConfig_without_cache_witness :
  let options := Some {| option_cwd := None; option_useCache := Some false |} in
  let st := {| configCache := Some {| cache_cwd := js "/repo";
                                      cache_value := None |};
               filesRead := [] |} in
  (loadOneFConfig sampleParse sampleJoin (js "/repo") sampleFiles options st).2
  = (loadOneFConfig sampleParse sampleJoin (js "/repo") sampleFiles options
       freshLoader).2.
Proof.
  cbv zeta.
  destruct (loadOneFConfig_without_cache sampleParse sampleJoin (js "/repo")
              sampleFiles
              (Some {| option_cwd := None; option_useCache := Some false |})
              {| configCache := Some {| cache_cwd := js "/repo";
                                        cache_value := None |};
                 filesRead := [] |}
              freshLoader)
    as (_ & _ & Hsame).
  - reflexivity.
  - exact Hsame.
Defined.
